(** * django-solr-dsl: projection of search results and nested query fragments

    A shallow embedding of [django_solr/dsl/backend.py]:
    - [SolrSearchResult] ([to_dict] and the helpers it calls), and
    - [ParentSQ] ([_parse_args], the lazy properties and
      [_repr_query_fragment_callback]),
    followed by the properties of the specification that concern them. *)

From Stdlib Require Import String Ascii ZArith List Bool Lia.
From stdpp Require Import base list.
Import ListNotations.
Set Warnings "-register-all".
Set Default Proof Using "Type".
Open Scope string_scope.
Open Scope list_scope.

Infix "+:+" := String.append (at level 60, right associativity).

(* ===================================================================== *)
(** * Python values *)
(* ===================================================================== *)

(** The values that travel through a result row: JSON-like data as the
    Solr client hands it over. *)
Inductive PyVal : Type :=
| VNone
| VBool (b : bool)
| VInt (z : Z)
| VStr (s : string)
| VList (l : list PyVal)
| VDict (d : list (string * PyVal)).

(** A Python [dict] with string keys: insertion ordered, one entry per key. *)
Abbreviation PyDict := (list (string * PyVal)).

(** Exceptions, by class, with their message. *)
Inductive exn : Type :=
| ValueError (msg : string)
| AttributeError (msg : string)
| TypeError (msg : string)
| OtherError (msg : string).

(** The outcome of a call: a value, or a raised exception. *)
Inductive Exc (A : Type) : Type :=
| Ok (a : A)
| Raise (e : exn).
Arguments Ok {A} a.
Arguments Raise {A} e.

Definition exc_bind {A B} (m : Exc A) (k : A -> Exc B) : Exc B :=
  match m with
  | Ok a => k a
  | Raise e => Raise e
  end.

Notation "x <-! m ; k" := (exc_bind m (fun x => k))
  (at level 20, m at level 100, k at level 200).
Notation "' pat <-! m ; k" :=
  (exc_bind m (fun x => match x with pat => k end))
  (at level 20, pat pattern, m at level 100, k at level 200).

(** Python truthiness ([bool(v)]). *)
Definition truthy (v : PyVal) : bool :=
  match v with
  | VNone => false
  | VBool b => b
  | VInt z => negb (Z.eqb z 0)
  | VStr s => negb (String.eqb s EmptyString)
  | VList l => match l with [] => false | _ => true end
  | VDict d => match d with [] => false | _ => true end
  end.

(** [d.get(k)] *)
Fixpoint dict_get (k : string) (d : PyDict) : option PyVal :=
  match d with
  | [] => None
  | (k', v) :: d' => if String.eqb k k' then Some v else dict_get k d'
  end.

(** [d[k] = v]: the entry is replaced where it stands, or appended. *)
Fixpoint dict_set (k : string) (v : PyVal) (d : PyDict) : PyDict :=
  match d with
  | [] => [(k, v)]
  | (k', v') :: d' =>
      if String.eqb k k' then (k', v) :: d' else (k', v') :: dict_set k v d'
  end.

Definition dict_keys (d : PyDict) : list string := map fst d.

(** [s.split(sep)] for a one-character separator: the first segment and
    the segments after it (the result of [split] is never empty). *)
Fixpoint split1 (sep : ascii) (s : string) : string * list string :=
  match s with
  | EmptyString => (EmptyString, [])
  | String c s' =>
      let (w, ws) := split1 sep s' in
      if Ascii.eqb c sep then (EmptyString, w :: ws) else (String c w, ws)
  end.

Definition split (sep : ascii) (s : string) : list string :=
  let (w, ws) := split1 sep s in w :: ws.

(** The starred unpacking [*init, last = x :: xs]. *)
Fixpoint unpack_last {A} (x : A) (xs : list A) : list A * A :=
  match xs with
  | [] => ([], x)
  | y :: ys => let (init, l) := unpack_last y ys in (x :: init, l)
  end.

(** [*init, last = s.split(sep)] *)
Definition split_unpack_last (sep : ascii) (s : string) : list string * string :=
  let (w, ws) := split1 sep s in unpack_last w ws.

(** [sep.join(items)] where every item must be a [str]. *)
Fixpoint str_items (items : list PyVal) : Exc (list string) :=
  match items with
  | [] => Ok []
  | VStr s :: rest => ss <-! str_items rest; Ok (s :: ss)
  | _ :: _ => Raise (TypeError "sequence item: expected str instance")
  end.

Definition join (sep : string) (items : list PyVal) : Exc string :=
  ss <-! str_items items; Ok (String.concat sep ss).

(** [needle in hay] on strings. *)
Fixpoint str_contains (needle hay : string) : bool :=
  String.prefix needle hay ||
  match hay with
  | EmptyString => false
  | String _ hay' => str_contains needle hay'
  end.

(** [sorted(kwargs.items())]: the names of keyword arguments are
    distinct, so the pairs are ordered by their names, as strings. *)
Fixpoint insert_sorted (item : string * PyVal) (items : list (string * PyVal))
    : list (string * PyVal) :=
  match items with
  | [] => [item]
  | item' :: rest =>
      if String.leb (fst item) (fst item') then item :: items
      else item' :: insert_sorted item rest
  end.

Definition sorted (items : list (string * PyVal)) : list (string * PyVal) :=
  fold_right insert_sorted [] items.

(** The double-quote character. *)
Definition dq : string := String (ascii_of_nat 34) EmptyString.

(* ===================================================================== *)
(** * ParentSQ: the nested query builder *)
(* ===================================================================== *)

Module ParentSQ.

(** An attribute that holds the sentinel class [EMPTY] until parsed. *)
Inductive slot (A : Type) : Type :=
| EMPTY
| Filled (a : A).
Arguments EMPTY {A}.
Arguments Filled {A} a.

Definition is_EMPTY {A} (s : slot A) : bool :=
  match s with EMPTY => true | Filled _ => false end.

(** [children] is the list of keyword arguments as (name, value) pairs,
    [connector] the connector of the tree node. *)
Record t : Type := mk {
  children : list (string * PyVal);
  connector : string;
  _full_path : slot string;
  _path : slot string;
  _value : slot PyVal;
  _key : slot string
}.

Definition nonempty {A} (l : list A) : bool :=
  match l with [] => false | _ => true end.

(** [_parse_args]: the object after the call.  The test
    [isinstance(self.value, list)] reads the property [value], which
    returns [_value] as just assigned. *)
Definition _parse_args (self : t) : Exc t :=
  match children self with
  | [] => Raise (OtherError "IndexError: list index out of range")
  | (full_path, value0) :: _ =>
      value1 <-! match value0 with
                 | VList items => s <-! join " " items; Ok (VStr s)
                 | _ => Ok value0
                 end;
      let (path_items, key) := split_unpack_last "." full_path in
      Ok {| children := children self;
            connector := connector self;
            _full_path := Filled full_path;
            _path := Filled ("/" +:+ String.concat "/" path_items);
            _value := Filled value1;
            _key := Filled key |}
  end.

(** The constructor, given the keyword arguments.  The constructor of
    the tree node stores them sorted, as its children; the connector of
    a fresh node is [AND]. *)
Definition __init__ (kwargs : list (string * PyVal)) : Exc t :=
  let self := {| children := sorted kwargs; connector := "AND";
                 _full_path := EMPTY; _path := EMPTY;
                 _value := EMPTY; _key := EMPTY |} in
  if nonempty (children self) then _parse_args self else Ok self.

(** The lazy properties: the value read and the object after the read. *)
Definition lazy {A} (get : t -> slot A) (self : t) : Exc (slot A * t) :=
  if nonempty (children self) && is_EMPTY (get self)
  then self' <-! _parse_args self; Ok (get self', self')
  else Ok (get self, self).

Definition value : t -> Exc (slot PyVal * t) := lazy _value.
Definition path : t -> Exc (slot string * t) := lazy _path.
Definition key : t -> Exc (slot string * t) := lazy _key.

Section Rendering.
(** [str(v)] for a value that is not a [str] (Django's [force_str]
    falls back to it). *)
Variable py_str : PyVal -> string.

Definition force_str (v : PyVal) : string :=
  match v with
  | VStr s => s
  | _ => py_str v
  end.

(** How the sentinel class prints inside an f-string. *)
Definition EMPTY_repr : string := "<class 'django_solr.dsl.backend.EMPTY'>".

Definition fmt_slot (s : slot string) : string :=
  match s with EMPTY => EMPTY_repr | Filled a => a end.

Definition slot_truthy (s : slot PyVal) : bool :=
  match s with EMPTY => true | Filled v => truthy v end.

Definition slot_force_str (s : slot PyVal) : string :=
  match s with EMPTY => EMPTY_repr | Filled v => force_str v end.

(** [s == lit] for an attribute that may still hold the sentinel. *)
Definition slot_is (s : slot string) (lit : string) : bool :=
  match s with EMPTY => false | Filled a => String.eqb a lit end.

Definition parent : string :=
  "{!parent which=" +:+ dq +:+ "*:* -_nest_path_:*" +:+ dq +:+ "}".

Definition _repr_query_fragment_callback
    (self : t) (field : slot string) (filter_type : string)
    (value : slot PyVal) : Exc (string * t) :=
  '(p, self1) <-! path self;
  '(nest_path, self2) <-!
    (if slot_is p "/"
     then '(k, self2) <-! key self1; Ok ("/" +:+ fmt_slot k, self2)
     else '(p', self2) <-! path self1; Ok (fmt_slot p', self2));
  let queries := ["+_nest_path_:" +:+ dq +:+ nest_path +:+ dq] in
  let queries :=
    if slot_truthy value
    then queries ++ ["+" +:+ fmt_slot field +:+ ":(" +:+ slot_force_str value +:+ ")"]
    else queries in
  let query := String.concat " " queries in
  Ok (parent +:+ " (" +:+ query +:+ ")", self2).

Definition as_query_string (self : t) : Exc (string * t) :=
  '(k, self1) <-! key self;
  let c := connector self1 in
  '(v, self2) <-! value self1;
  _repr_query_fragment_callback self2 k c v.

(** Building the object from one keyword argument and rendering it. *)
Definition fragment (full_path : string) (v : PyVal) : Exc string :=
  self <-! __init__ [(full_path, v)];
  '(s, _) <-! as_query_string self;
  Ok s.
End Rendering.

End ParentSQ.

(* ===================================================================== *)
(** * SolrSearchResult: the document projector *)
(* ===================================================================== *)

Fixpoint exc_mapM {A B} (f : A -> Exc B) (l : list A) : Exc (list B) :=
  match l with
  | [] => Ok []
  | x :: xs => y <-! f x; ys <-! exc_mapM f xs; Ok (y :: ys)
  end.

Module SolrSearchResult.

(** What the projector reads of a Django model field. *)
Record ModelField : Type := {
  mf_name : string;
  primary_key : bool
}.

(** A field descriptor of an index.  [default] is [None] when the field
    declares no default ([has_default()] is false); [convert] is the
    coercion of the field class, which may raise; [model_field] is set
    when the document was bound to a model field.  A [NestedField]
    carries its child descriptors in [properties]. *)
Inductive Field : Type :=
| SearchField (default : option PyVal) (convert : PyVal -> Exc PyVal)
              (model_field : option ModelField)
| NestedField (default : option PyVal) (is_multivalued : bool)
              (properties : list (string * Field)).

Definition field_default (f : Field) : option PyVal :=
  match f with
  | SearchField d _ _ => d
  | NestedField d _ _ => d
  end.

(** [NestedField] inherits [convert] from the base class, which returns
    its argument. *)
Definition field_convert (f : Field) : PyVal -> Exc PyVal :=
  match f with
  | SearchField _ c _ => c
  | NestedField _ _ _ => fun v => Ok v
  end.

(** The primary key of the model: [model._meta.pk]. *)
Record Model : Type := {
  pk_attname : string;
  pk_to_python : string -> Exc PyVal
}.

(** The index of a model: its declared fields, in declaration order. *)
Record Index : Type := {
  fields : list (string * Field)
}.

(** A result row.  [pk] and [id] are the instance attributes of these
    names ([id] is the composite identifier), [attrs] the other instance
    attributes (the score and the stored fields), [_fields] the allowlist
    ([None] when the attribute was never set), [_dict] the cached
    projection, as the address of a dict object. *)
Record t : Type := mk {
  model : Model;
  pk : string;
  id : string;
  _fields : option (list string);
  attrs : PyDict;
  _dict : option nat
}.

Definition set_dict (self : t) (d : option nat) : t :=
  {| model := model self; pk := pk self; id := id self;
     _fields := _fields self; attrs := attrs self; _dict := d |}.

(** [getattr(self, name, None)]: a missing attribute reads as [None]
    (the class answers every unknown name with [None]).  The names of
    the other attributes and properties of the class (model, object,
    score when not stored, ...) are taken not to be field names. *)
Definition getattr (self : t) (name : string) : PyVal :=
  if String.eqb name "pk" then VStr (pk self)
  else if String.eqb name "id" then VStr (id self)
  else match dict_get name (attrs self) with
       | Some v => v
       | None => VNone
       end.

Definition django_id (self : t) : Exc PyVal :=
  let (_, django_id) := split_unpack_last "." (id self) in
  pk_to_python (model self) django_id.

Definition is_need_dump_field (self : t) (field_name : string) : bool :=
  match _fields self with
  | Some (f :: fs) => existsb (String.eqb field_name) (f :: fs)
  | _ => true
  end.

Definition nested_error : exn :=
  ValueError "Nested field value must be dict or list of dict type".

Section Nested.
Variable self : t.
Variable fields_only : bool.

Section Single.
(** The recursive call [self._nested_to_dict]. *)
Variable rec : Field -> PyVal -> Exc PyVal.
Variable nested : PyVal.

(** [nested.get(field_name)]: only a dict has the method. *)
Definition nested_get (field_name : string) : Exc PyVal :=
  match nested with
  | VDict d => Ok (match dict_get field_name d with
                   | Some v => v
                   | None => VNone
                   end)
  | _ => Raise (AttributeError "object has no attribute 'get'")
  end.

(** The loop of [_single_nested_to_dict] over [field.properties]. *)
Fixpoint single_loop (props : list (string * Field)) (_dict : PyDict)
    : Exc PyDict :=
  match props with
  | [] => Ok _dict
  | (field_name, field_instance) :: rest =>
      if fields_only && negb (is_need_dump_field self field_name)
      then single_loop rest _dict
      else
        value <-! nested_get field_name;
        match field_instance with
        | NestedField _ _ _ =>
            v <-! rec field_instance value;
            single_loop rest (dict_set field_name v _dict)
        | SearchField dflt conv mf =>
            let value := match value, dflt with
                         | VNone, Some d => d
                         | _, _ => value
                         end in
            v <-! conv value;
            let _dict := dict_set field_name v _dict in
            let _dict := match mf with
                         | Some m => if primary_key m
                                     then dict_set (mf_name m) v _dict
                                     else _dict
                         | None => _dict
                         end in
            single_loop rest _dict
        end
  end.
End Single.

(** Only a [NestedField] has [properties]. *)
Definition no_properties : exn :=
  AttributeError "object has no attribute 'properties'".

Fixpoint _nested_to_dict (field : Field) (nested : PyVal) {struct field}
    : Exc PyVal :=
  let single := fun n : PyVal =>
    if negb (truthy n) then Ok []
    else match field with
         | NestedField _ _ props => single_loop _nested_to_dict n props []
         | SearchField _ _ _ => Raise no_properties
         end in
  match nested with
  | VNone =>
      match field_default field with
      | Some d => Ok d
      | None => Ok VNone
      end
  | VList l =>
      match l with
      | [] => Ok (VList [])
      | _ => ds <-! exc_mapM single l; Ok (VList (map VDict ds))
      end
  | VDict _ =>
      value <-! single nested;
      match field with
      | NestedField _ true _ => Ok (VList [VDict value])
      | _ => Ok (VDict value)
      end
  | _ => Raise nested_error
  end.

Definition _single_nested_to_dict (field : Field) (nested : PyVal)
    : Exc PyDict :=
  if negb (truthy nested) then Ok []
  else match field with
       | NestedField _ _ props => single_loop _nested_to_dict nested props []
       | SearchField _ _ _ => Raise no_properties
       end.

Definition _multiple_nested_to_dict (field : Field) (nested : list PyVal)
    : Exc (list PyDict) :=
  match nested with
  | [] => Ok []
  | _ => exc_mapM (_single_nested_to_dict field) nested
  end.
End Nested.

(** ** The stateful part: [to_dict] and its cache *)

(** The dict objects allocated so far, by address, and the row. *)
Record State : Type := {
  heap : list PyDict;
  obj : t
}.

Definition M (A : Type) : Type := State -> Exc A * State.

(** [d[k] = v] on the dict object at address [l]. *)
Definition setitem (l : nat) (k : string) (v : PyVal) (st : State) : State :=
  {| heap := alter (dict_set k v) l (heap st); obj := obj st |}.

(** A new dict object; its address is the next free one. *)
Definition alloc (d : PyDict) (st : State) : nat * State :=
  (length (heap st), {| heap := heap st ++ [d]; obj := obj st |}).

Section Projection.
(** The name of the document body field (a setting of the search
    library; [text] unless configured). *)
Variable DOCUMENT_FIELD : string.

(** The registry lookup
    [connections[DEFAULT_ALIAS].get_unified_index().get_index(self.model)]:
    [None] when it raises [NotHandled]. *)
Variable unified_index : option Index.

Variable fields_inheritance : bool.

(** One turn of the loop over [index.fields]; [l] is the address held
    by [self._dict], which the loop never rebinds. *)
Definition dump_field (l : nat) (entry : string * Field) : M unit :=
  fun st =>
    let (field_name, field) := entry in
    let self := obj st in
    if negb (is_need_dump_field self field_name) then (Ok tt, st)
    else
      let value := getattr self field_name in
      if String.eqb field_name DOCUMENT_FIELD && negb (truthy value)
      then (Ok tt, st)
      else
        match field with
        | NestedField _ _ _ =>
            match _nested_to_dict self fields_inheritance field value with
            | Ok v => (Ok tt, setitem l field_name v st)
            | Raise e => (Raise e, st)
            end
        | SearchField dflt conv _ =>
            let value := match value, dflt with
                         | VNone, Some d => d
                         | _, _ => value
                         end in
            match conv value with
            | Ok v => (Ok tt, setitem l field_name v st)
            | Raise e => (Raise e, st)
            end
        end.

Fixpoint dump_fields (l : nat) (fs : list (string * Field)) : M unit :=
  fun st =>
    match fs with
    | [] => (Ok tt, st)
    | entry :: rest =>
        match dump_field l entry st with
        | (Ok _, st') => dump_fields l rest st'
        | (Raise e, st') => (Raise e, st')
        end
    end.

(** [to_dict]: the address of the returned dict and the state after
    the call. *)
Definition to_dict : M nat :=
  fun st =>
    let self := obj st in
    match _dict self with
    | Some l => (Ok l, st)
    | None =>
        match unified_index with
        | None =>
            let (l, st') := alloc [] st in (Ok l, st')
        | Some index =>
            match django_id self with
            | Raise e => (Raise e, st)
            | Ok did =>
                let (l, st1) :=
                  alloc (dict_set (pk_attname (model self)) did
                           (dict_set "pk" (VStr (pk self)) [])) st in
                let st2 := {| heap := heap st1;
                              obj := set_dict (obj st1) (Some l) |} in
                match dump_fields l (fields index) st2 with
                | (Ok _, st3) => (Ok l, st3)
                | (Raise e, st3) => (Raise e, st3)
                end
            end
        end
    end.
End Projection.

(** The dict a call returned, read from the heap after the call. *)
Definition deref (st : State) (l : nat) : option PyDict := heap st !! l.

End SolrSearchResult.


(* ===================================================================== *)
(** * ProjectSolrSearchBackend: the schema *)
(* ===================================================================== *)

Module ProjectSolrSearchBackend.

(** What [build_schema] reads of a field class; [has_facet_for] tells
    whether the object has the attribute [facet_for]. *)
Record FieldClass : Type := {
  index_fieldname : string;
  document : bool;
  field_type : string;
  is_multivalued : bool;
  stored : bool;
  indexed : bool;
  has_facet_for : bool
}.

Definition TYPE_MAP : list (string * string) :=
  [("date", "pdate"); ("datetime", "pdate"); ("integer", "plong")].

(** [TYPE_MAP.get(k)] *)
Fixpoint map_get (k : string) (m : list (string * string)) : option string :=
  match m with
  | [] => None
  | (k', v) :: m' => if String.eqb k k' then Some v else map_get k m'
  end.

(** [field_data["type"] == s] *)
Definition type_is (field_data : PyDict) (s : string) : bool :=
  match dict_get "type" field_data with
  | Some (VStr t) => String.eqb t s
  | _ => false
  end.

(** The body of the loop: the entry of one field class. *)
Definition field_schema (field_class : FieldClass) : PyDict :=
  let field_data :=
    [("field_name", VStr (index_fieldname field_class));
     ("type", VStr "text");
     ("indexed", VStr "true");
     ("stored", VStr "true");
     ("multi_valued", VStr "false")] in
  let field_data :=
    match map_get (field_type field_class) TYPE_MAP with
    | Some t => dict_set "type" (VStr t) field_data
    | None => dict_set "type" (VStr (field_type field_class)) field_data
    end in
  let field_data :=
    if is_multivalued field_class
    then dict_set "multi_valued" (VStr "true") field_data
    else field_data in
  let field_data :=
    if stored field_class then field_data
    else dict_set "stored" (VStr "false") field_data in
  let field_data :=
    if indexed field_class then field_data
    else
      let field_data := dict_set "indexed" (VStr "false") field_data in
      if type_is field_data "text_en"
      then dict_set "type" (VStr "string") field_data
      else field_data in
  let field_data :=
    if has_facet_for field_class
    then if type_is field_data "text_en"
         then dict_set "type" (VStr "string") field_data
         else field_data
    else field_data in
  field_data.

(** The loop over [fields.items()], with its two accumulators. *)
Fixpoint build_schema_loop (fields : list (string * FieldClass))
    (content_field_name : string) (schema_fields : list PyDict)
    : string * list PyDict :=
  match fields with
  | [] => (content_field_name, schema_fields)
  | (_, field_class) :: rest =>
      let content_field_name :=
        if document field_class then index_fieldname field_class
        else content_field_name in
      build_schema_loop rest content_field_name
        (schema_fields ++ [field_schema field_class])
  end.

Definition build_schema (fields : list (string * FieldClass))
    : string * list PyDict :=
  build_schema_loop fields EmptyString [].

End ProjectSolrSearchBackend.

(* ===================================================================== *)
(** * SolrSearchQuerySet: the allowlist of a query *)
(* ===================================================================== *)

Module SolrSearchQuerySet.

(** What the class adds to the query set of the search library, and the
    field list of the query it drives ([self.query.fields]). *)
Record t : Type := mk {
  _internal_fields : list string;
  _fields : list string;
  query_fields : list string
}.

(** The constructor, on top of the constructor of the base class, which
    leaves the query with the field list [query_fields0]. *)
Definition __init__ (query_fields0 : list string) : t :=
  {| _internal_fields := ["id"; "django_ct"; "django_id"; "score"];
     _fields := [];
     query_fields := query_fields0 |}.

(** The method [fields], given the names: the object after the call
    (the method returns [self]). *)
Definition fields (self : t) (names : list string) : t :=
  {| _internal_fields := _internal_fields self;
     _fields := names;
     query_fields := query_fields self |}.

(** [list(set(a) | set(b))]: the elements of both, each once.  Python
    leaves the order of the list open; this is one such list. *)
Definition list_of_union (a b : list string) : list string :=
  nodup string_dec (a ++ b).

(** [_fill_cache], up to the call of the base class. *)
Definition _fill_cache (self : t) : t :=
  match _fields self with
  | [] => self
  | _ :: _ =>
      {| _internal_fields := _internal_fields self;
         _fields := _fields self;
         query_fields := list_of_union (_internal_fields self) (_fields self) |}
  end.

(** [setattr(result, "_fields", fields)] *)
Definition set_fields (result : SolrSearchResult.t) (fields : list string)
    : SolrSearchResult.t :=
  {| SolrSearchResult.model := SolrSearchResult.model result;
     SolrSearchResult.pk := SolrSearchResult.pk result;
     SolrSearchResult.id := SolrSearchResult.id result;
     SolrSearchResult._fields := Some fields;
     SolrSearchResult.attrs := SolrSearchResult.attrs result;
     SolrSearchResult._dict := SolrSearchResult._dict result |}.

(** [post_process_results]; [super_results] is what the method of the
    base class returned for the raw results. *)
Definition post_process_results (self : t)
    (super_results : list SolrSearchResult.t) : list SolrSearchResult.t :=
  map (fun result => set_fields result (_fields self)) super_results.

Section Narrowing.
(** [self.narrow(sq)] of the base class. *)
Variable narrow : t -> ParentSQ.t -> t.

Definition nested (self : t) (kwargs : list (string * PyVal)) : Exc t :=
  sq <-! ParentSQ.__init__ kwargs; Ok (narrow self sq).

Definition nested_exists (self : t) (nested : string) : Exc t :=
  sq <-! ParentSQ.__init__ [(nested, VNone)]; Ok (narrow self sq).
End Narrowing.

End SolrSearchQuerySet.

(* ===================================================================== *)
(** * SolrDocument: lookup by primary key, and the map of model fields *)
(* ===================================================================== *)

Module SolrDocument.

(** What [get_model_fields_map] reads of a model field. *)
Record ModelField : Type := {
  name : string;
  primary_key : bool
}.

(** [m[k] = v] and [m.get(k)] on a dict from names to model fields,
    kept in insertion order. *)
Fixpoint map_set (k : string) (v : ModelField) (m : list (string * ModelField))
    : list (string * ModelField) :=
  match m with
  | [] => [(k, v)]
  | (k', v') :: m' =>
      if String.eqb k k' then (k', v) :: m' else (k', v') :: map_set k v m'
  end.

Fixpoint map_get (k : string) (m : list (string * ModelField))
    : option ModelField :=
  match m with
  | [] => None
  | (k', v) :: m' => if String.eqb k k' then Some v else map_get k m'
  end.

(** The loop of [get_model_fields_map] over [model._meta.fields]. *)
Fixpoint get_model_fields_map_loop (fields : list ModelField)
    (_map : list (string * ModelField)) : list (string * ModelField) :=
  match fields with
  | [] => _map
  | field :: rest =>
      let _map := map_set (name field) field _map in
      let _map := if primary_key field then map_set "pk" field _map else _map in
      get_model_fields_map_loop rest _map
  end.

Definition get_model_fields_map (meta_fields : list ModelField)
    : list (string * ModelField) :=
  get_model_fields_map_loop meta_fields [].

(** The exceptions of [get]. *)
Inductive get_exn : Type :=
| AttributeError (msg : string)
| NotFoundError (msg : string)
| MultipleResultError (msg : string).

Inductive outcome (A : Type) : Type :=
| Returned (a : A)
| Raised (e : get_exn).
Arguments Returned {A} a.
Arguments Raised {A} e.

Section Get.
(** The names of the identifier fields of the search library ([id] and
    [django_id] unless configured). *)
Variable ID : string.
Variable DJANGO_ID : string.

Definition pk_fields : list string := [ID; DJANGO_ID; "guid"; "uuid"].

(** The [for ... else] over [pk_fields]: the first name whose keyword
    argument is truthy, with its value. *)
Fixpoint first_pk (names : list string) (kwargs : PyDict)
    : option (string * PyVal) :=
  match names with
  | [] => None
  | pk_name :: rest =>
      match dict_get pk_name kwargs with
      | Some v => if truthy v then Some (pk_name, v) else first_pk rest kwargs
      | None => first_pk rest kwargs
      end
  end.

(** The name and value [get] filters on. *)
Definition select_pk (args : list PyVal) (kwargs : PyDict)
    : outcome (string * PyVal) :=
  match args with
  | pk :: _ => Returned (DJANGO_ID, pk)
  | [] =>
      match first_pk pk_fields kwargs with
      | Some found => Returned found
      | None =>
          Raised (AttributeError
                    ("One of available pk names must be implemented: " +:+
                     String.concat ", " pk_fields))
      end
  end.

(** The decimal digits of a natural number, as [str] prints it. *)
Definition digit (n : nat) : string :=
  String (ascii_of_nat (48 + n)) EmptyString.

Fixpoint decimal_fuel (fuel n : nat) : string :=
  match fuel with
  | O => EmptyString
  | S fuel' =>
      if Nat.ltb n 10 then digit n
      else decimal_fuel fuel' (Nat.div n 10) +:+ digit (Nat.modulo n 10)
  end.

Definition decimal (n : nat) : string := decimal_fuel (S n) n.

(** The search behind [cls.search().filter(...)]: the rows that match
    the filter, as the base class hands them out; [count()] is their
    number and [first()] the first of them, after post-processing. *)
Variable matching : string -> PyVal -> list SolrSearchResult.t.

(** [get]; [kwargs] holds the keyword arguments but [fields], which is
    given apart ([None] when it is not passed). *)
Definition get (args : list PyVal) (kwargs : PyDict)
    (fields : option (list string)) : outcome SolrSearchResult.t :=
  match select_pk args kwargs with
  | Raised e => Raised e
  | Returned (pk_name, pk) =>
      let search := SolrSearchQuerySet.__init__ [] in
      let search :=
        match fields with
        | Some (f :: fs) => SolrSearchQuerySet.fields search (f :: fs)
        | _ => search
        end in
      let results :=
        SolrSearchQuerySet.post_process_results search (matching pk_name pk) in
      match results with
      | [] => Raised (NotFoundError "No items found")
      | [first] => Returned first
      | _ :: _ :: _ =>
          Raised (MultipleResultError
                    ("Multiple records found (" +:+ decimal (length results) +:+
                     "). Expected only one."))
      end
  end.
End Get.

End SolrDocument.

(* ===================================================================== *)
(** * NestedField, on the indexing side *)
(* ===================================================================== *)

Module NestedFieldPrepare.

(** A model instance as the field sees it: its attributes by name.  An
    attribute is a related manager (with the objects [all()] gives), a
    related model instance, or any other value. *)
Inductive Instance : Type :=
| Inst (attrs : list (string * Attr))
with Attr : Type :=
| AManager (all : list Instance)
| AModel (instance : Instance)
| AValue (v : PyVal).

Definition attrs_of (obj : Instance) : list (string * Attr) :=
  match obj with Inst attrs => attrs end.

(** [getattr(obj, name)] when [hasattr(obj, name)]. *)
Fixpoint lookup (name : string) (attrs : list (string * Attr)) : option Attr :=
  match attrs with
  | [] => None
  | (name', a) :: rest => if String.eqb name name' then Some a else lookup name rest
  end.

Definition hasattr (obj : Instance) (name : string) : bool :=
  match lookup name (attrs_of obj) with Some _ => true | None => false end.

(** What [get_instances] returns: [None], a query set, or an instance. *)
Inductive Related : Type :=
| RNone
| RQuerySet (objects : list Instance)
| RModel (instance : Instance).

(** The two [isinstance] tests at the end of [get_instances]. *)
Definition classify (related : Attr) : Related :=
  match related with
  | AManager all => RQuerySet all
  | AModel instance => RModel instance
  | AValue _ => RNone
  end.

(** [field_name] is [None] when neither [model_attr] nor
    [instance_name] is set; it then prints as None in the f-string and
    is refused by [hasattr]. *)
Definition get_instances (obj : Instance) (field_name : option string)
    : Exc Related :=
  let set_field_name :=
    match field_name with Some n => n | None => "None" end +:+ "_set" in
  match lookup set_field_name (attrs_of obj) with
  | Some related => Ok (classify related)
  | None =>
      match field_name with
      | None => Raise (TypeError "attribute name must be string")
      | Some n =>
          match lookup n (attrs_of obj) with
          | None => Ok RNone
          | Some related => Ok (classify related)
          end
      end
  end.

(** A field of a document.  [model_attr] is the attribute as declared
    ([None] when not given).  A field that is not nested has the
    [prepare] of the search library, which reads the object through the
    current [model_attr]; the other components are those the projector
    reads. *)
Inductive IField : Type :=
| IPlain (model_attr : option string)
         (prepare : option string -> Instance -> Exc PyVal)
         (default : option PyVal) (convert : PyVal -> Exc PyVal)
         (model_field : option SolrSearchResult.ModelField)
| INested (model_attr : option string) (default : option PyVal)
          (is_multivalued : bool) (properties : list (string * IField)).

Definition declared_model_attr (f : IField) : option string :=
  match f with
  | IPlain ma _ _ _ _ => ma
  | INested ma _ _ _ => ma
  end.

(** Truthiness of a name that may be [None]. *)
Definition name_truthy (n : option string) : bool :=
  match n with
  | Some s => negb (String.eqb s EmptyString)
  | None => false
  end.

(** [a or b] *)
Definition name_or (a b : option string) : option string :=
  if name_truthy a then a else b.

Section Loop.
(** The call [field_class.prepare(instance)], with the [model_attr] and
    the [instance_name] the field has at that point. *)
Variable rec : IField -> option string -> option string -> Instance -> Exc PyVal.
Variable instance : Instance.

(** The loop of [_instance_to_dict].  A child declared in [properties]
    has no [instance_name]; its [model_attr] is set to the property name
    when it has none.  Every field object is declared under one property
    name: the name assigned at its first visit is then the one every
    later visit finds, and the same as the one computed here.  (A field
    object declared under two names would keep, at the second, the name
    assigned at the first.) *)
Fixpoint instance_loop (properties : list (string * IField)) (doc : PyDict)
    : Exc PyDict :=
  match properties with
  | [] => Ok doc
  | (property_name, field_class) :: rest =>
      if negb (hasattr instance property_name) then instance_loop rest doc
      else
        let model_attr :=
          if name_truthy (declared_model_attr field_class)
          then declared_model_attr field_class
          else Some property_name in
        v <-! rec field_class model_attr None instance;
        instance_loop rest (dict_set property_name v doc)
  end.
End Loop.

(** [prepare]: of a nested field as the class defines it, of any other
    field as the search library does. *)
Fixpoint prepare (field : IField) (model_attr instance_name : option string)
    (obj : Instance) {struct field} : Exc PyVal :=
  match field with
  | IPlain _ prep _ _ _ => prep model_attr obj
  | INested _ _ _ properties =>
      let field_name := name_or model_attr instance_name in
      related <-! get_instances obj field_name;
      match related with
      | RQuerySet (first :: others) =>
          docs <-! exc_mapM (fun instance => instance_loop prepare instance properties [])
                     (first :: others);
          Ok (VList (map VDict docs))
      | RModel instance =>
          doc <-! instance_loop prepare instance properties [];
          Ok (VDict doc)
      | _ => Ok VNone
      end
  end.

Definition _instance_to_dict (instance : Instance)
    (properties : list (string * IField)) : Exc PyDict :=
  instance_loop prepare instance properties [].

(** The same field object, as the projector reads it. *)
Fixpoint as_field (f : IField) : SolrSearchResult.Field :=
  match f with
  | IPlain _ _ dflt conv mf => SolrSearchResult.SearchField dflt conv mf
  | INested _ dflt multi properties =>
      SolrSearchResult.NestedField dflt multi
        ((fix each (ps : list (string * IField)) :=
            match ps with
            | [] => []
            | (n, child) :: rest => (n, as_field child) :: each rest
            end) properties)
  end.

End NestedFieldPrepare.

(* ===================================================================== *)
(** * IndexesAdmin: clearing and updating the indexes *)
(* ===================================================================== *)

Module IndexesAdmin.

(** A row of [Indexes]; [updated_at] is a time stamp or null. *)
Record Indexes : Type := {
  guid : nat;
  document : string;
  model : string;
  hints : Z;
  updated_at : option Z
}.

(** [app_label, model_name = record.model.split(".")] *)
Definition split_label (label : string) : Exc (string * string) :=
  match split "." label with
  | [app_label; model_name] => Ok (app_label, model_name)
  | [] | [_] =>
      Raise (ValueError "not enough values to unpack (expected 2, got 1)")
  | _ => Raise (ValueError "too many values to unpack (expected 2)")
  end.

(** [range(start, stop, step)]: a zero step is refused. *)
Fixpoint range_loop (fuel : nat) (start stop step : Z) : list Z :=
  match fuel with
  | O => []
  | S fuel' =>
      if (if (0 <? step)%Z then (start <? stop)%Z else (stop <? start)%Z)
      then start :: range_loop fuel' (start + step)%Z stop step
      else []
  end.

Definition range (start stop step : Z) : Exc (list Z) :=
  if (step =? 0)%Z then Raise (ValueError "range() arg 3 must not be zero")
  else Ok (range_loop (Z.to_nat (Z.abs (stop - start))) start stop step).

Section Backends.
(** The model classes, [apps.get_model], the names of the configured
    backends, and the calls into the search library, which may raise. *)
Variable Model : Type.
Variable get_model : string -> string -> Exc Model.
Variable backends : list string.
Variable PK : Type.
Variable do_update : Z -> Z -> Z -> option PK -> Exc (option PK).

(** The calls made out of the admin, in order. *)
Inductive call : Type :=
| clear (backend_name : string) (models : list Model)
| bulk_update (records : list Indexes) (fields : list string)
| update (start end_ total : Z) (last_max_pk : option PK).

Variable perform : call -> Exc unit.

Definition reset (record : Indexes) : Indexes :=
  {| guid := guid record; document := document record; model := model record;
     hints := 0; updated_at := None |}.

(** The first loop of [_clear_index]: the result and the records as
    they are in memory afterwards. *)
Fixpoint reset_loop (queryset : list Indexes) (models_to_delete : list Model)
    : Exc (list Model) * list Indexes :=
  match queryset with
  | [] => (Ok models_to_delete, [])
  | record :: rest =>
      match (' (app_label, model_name) <-! split_label (model record);
             get_model app_label model_name) with
      | Raise e => (Raise e, record :: rest)
      | Ok m =>
          let (r, rest') := reset_loop rest (models_to_delete ++ [m]) in
          (r, reset record :: rest')
      end
  end.

(** The loop over the backends. *)
Fixpoint clear_loop (names : list string) (models_to_delete : list Model)
    : Exc unit * list call :=
  match names with
  | [] => (Ok tt, [])
  | backend_name :: rest =>
      let c := clear backend_name models_to_delete in
      match perform c with
      | Raise e => (Raise e, [c])
      | Ok _ =>
          let (r, calls) := clear_loop rest models_to_delete in (r, c :: calls)
      end
  end.

(** [_clear_index]: the result, the calls made, and the records. *)
Definition _clear_index (queryset : list Indexes)
    : Exc unit * list call * list Indexes :=
  match reset_loop queryset [] with
  | (Raise e, records) => (Raise e, [], records)
  | (Ok models_to_delete, records) =>
      match clear_loop backends models_to_delete with
      | (Raise e, calls) => (Raise e, calls, records)
      | (Ok _, calls) =>
          let c := bulk_update records ["hints"; "updated_at"] in
          (perform c, calls ++ [c], records)
      end
  end.

(** The batch loop of [do_update] for one record: the last [max_pk] and
    the calls of the library's [do_update]. *)
Fixpoint batch_loop (starts : list Z) (total batch_size : Z)
    (max_pk : option PK) : Exc (option PK) * list call :=
  match starts with
  | [] => (Ok max_pk, [])
  | start :: rest =>
      let end_ := Z.min (start + batch_size) total in
      let c := update start end_ total max_pk in
      match do_update start end_ total max_pk with
      | Raise e => (Raise e, [c])
      | Ok max_pk' =>
          let (r, calls) := batch_loop rest total batch_size max_pk' in
          (r, c :: calls)
      end
  end.

Definition update_batches (total batch_size : Z)
    : Exc (option PK) * list call :=
  match range 0 total batch_size with
  | Raise e => (Raise e, [])
  | Ok starts => batch_loop starts total batch_size None
  end.

End Backends.

Arguments clear {Model PK} backend_name models.
Arguments bulk_update {Model PK} records fields.
Arguments update {Model PK} start end_ total last_max_pk.
Arguments reset_loop {Model} get_model queryset models_to_delete.
Arguments clear_loop {Model PK} perform names models_to_delete.
Arguments _clear_index {Model} get_model backends {PK} perform queryset.
Arguments batch_loop {Model PK} do_update starts total batch_size max_pk.
Arguments update_batches {Model PK} do_update total batch_size.

End IndexesAdmin.

(* ===================================================================== *)
(** * FetchIndexesView: listing the indexes *)
(* ===================================================================== *)

Module FetchIndexesView.

(** What the view reads of a search index: the name of its class, the
    label of its model, and the count of its search. *)
Record SearchIndex : Type := {
  class_name : string;
  model_label : string;
  count : Z
}.

(** The table of [Indexes], a list of rows. *)
Definition Table : Type := list IndexesAdmin.Indexes.

(** A fresh primary key, as [uuid.uuid4] gives one. *)
Definition uuid4 (db : Table) : nat :=
  S (list_max (map IndexesAdmin.guid db)).

(** [Indexes.objects.get_or_create(document=..., defaults=...)]: the
    row, whether it was created, and the table. *)
Definition get_or_create (db : Table) (document model_ : string) (hints : Z)
    : Exc (IndexesAdmin.Indexes * bool * Table) :=
  match List.filter (fun r => String.eqb (IndexesAdmin.document r) document) db with
  | [] =>
      let record :=
        {| IndexesAdmin.guid := uuid4 db;
           IndexesAdmin.document := document;
           IndexesAdmin.model := model_;
           IndexesAdmin.hints := hints;
           IndexesAdmin.updated_at := None |} in
      Ok (record, true, db ++ [record])
  | [record] => Ok (record, false, db)
  | _ => Raise (OtherError "MultipleObjectsReturned")
  end.

(** [record.save()]: the row of that primary key is written. *)
Definition save (record : IndexesAdmin.Indexes) (db : Table) : Table :=
  map (fun r => if Nat.eqb (IndexesAdmin.guid r) (IndexesAdmin.guid record)
                then record else r) db.

Definition set_hints (record : IndexesAdmin.Indexes) (hints : Z)
    : IndexesAdmin.Indexes :=
  {| IndexesAdmin.guid := IndexesAdmin.guid record;
     IndexesAdmin.document := IndexesAdmin.document record;
     IndexesAdmin.model := IndexesAdmin.model record;
     IndexesAdmin.hints := hints;
     IndexesAdmin.updated_at := IndexesAdmin.updated_at record |}.

Section Post.
(** [haystack_load_apps()], the names of the backends,
    [haystack_get_models], and [get_index] of the unified index of a
    backend, [None] when the model is not handled. *)
Variable Model : Type.
Variable labels : list string.
Variable backends : list string.
Variable haystack_get_models : string -> list Model.
Variable get_index : string -> Model -> option SearchIndex.

(** The body of the innermost loop for a handled model. *)
Definition upsert (index : SearchIndex) (db : Table) : Exc Table :=
  let hints := count index in
  ' (record, is_created, db) <-!
    get_or_create db (class_name index) (model_label index) hints;
  if negb is_created then Ok (save (set_hints record hints) db) else Ok db.

Fixpoint models_loop (using_ : string) (models : list Model) (db : Table)
    : Exc Table :=
  match models with
  | [] => Ok db
  | model_ :: rest =>
      match get_index using_ model_ with
      | None => models_loop using_ rest db
      | Some index => db <-! upsert index db; models_loop using_ rest db
      end
  end.

Fixpoint backends_loop (label : string) (usings : list string) (db : Table)
    : Exc Table :=
  match usings with
  | [] => Ok db
  | using_ :: rest =>
      db <-! models_loop using_ (haystack_get_models label) db;
      backends_loop label rest db
  end.

Fixpoint labels_loop (ls : list string) (db : Table) : Exc Table :=
  match ls with
  | [] => Ok db
  | label :: rest => db <-! backends_loop label backends db; labels_loop rest db
  end.

(** [post], up to the redirect. *)
Definition post (db : Table) : Exc Table := labels_loop labels db.

End Post.

Arguments post {Model} labels backends haystack_get_models get_index db.

End FetchIndexesView.

(* ===================================================================== *)
(** * Vocabulary of the specification *)
(* ===================================================================== *)

(** [c in s] for a character. *)
Fixpoint has_char (c : ascii) (s : string) : bool :=
  match s with
  | EmptyString => false
  | String c' s' => Ascii.eqb c' c || has_char c s'
  end.

(** The two shapes of the emitted fragment: the existence-only form, and
    the form with a term filter [key:(text)]. *)
Definition existence_only (nest_path : string) : string :=
  ParentSQ.parent +:+ " (+_nest_path_:" +:+ dq +:+ nest_path +:+ dq +:+ ")".

Definition with_term (nest_path key text : string) : string :=
  ParentSQ.parent +:+ " (+_nest_path_:" +:+ dq +:+ nest_path +:+ dq
    +:+ " +" +:+ key +:+ ":(" +:+ text +:+ "))".

(** The nest path the fragment uses for a parsed [path] and [key]. *)
Definition effective_nest_path (path key : string) : string :=
  if String.eqb path "/" then "/" +:+ key else path.

(** The scalar a filter value stands for: the elements of a list joined
    with one space, any other value as it is. *)
Definition scalar_value (v : PyVal) : Exc PyVal :=
  match v with
  | VList items => s <-! join " " items; Ok (VStr s)
  | _ => Ok v
  end.

(** The value is a string. *)
Definition is_str (v : PyVal) : bool :=
  match v with VStr _ => true | _ => false end.

(** A declared top-level field is emitted: it passes the allowlist check
    and is not the document body field with an empty value. *)
Definition dumped (DOCUMENT_FIELD : string) (self : SolrSearchResult.t)
    (field_name : string) : bool :=
  SolrSearchResult.is_need_dump_field self field_name &&
  negb (String.eqb field_name DOCUMENT_FIELD &&
        negb (truthy (SolrSearchResult.getattr self field_name))).

(** The value emitted for a top-level field with raw value [raw]: a
    nested field is projected, any other field has its default
    substituted for null and is converted. *)
Definition field_value (self : SolrSearchResult.t) (fields_inheritance : bool)
    (field : SolrSearchResult.Field) (raw : PyVal) : Exc PyVal :=
  match field with
  | SolrSearchResult.NestedField _ _ _ =>
      SolrSearchResult._nested_to_dict self fields_inheritance field raw
  | SolrSearchResult.SearchField dflt conv _ =>
      conv (match raw, dflt with VNone, Some d => d | _, _ => raw end)
  end.

(** Between two states only the dict object at address [l] may differ. *)
Definition only_touches (l : nat) (st st' : SolrSearchResult.State) : Prop :=
  SolrSearchResult.obj st' = SolrSearchResult.obj st /\
  length (SolrSearchResult.heap st') = length (SolrSearchResult.heap st) /\
  forall l', l' <> l ->
    SolrSearchResult.heap st' !! l' = SolrSearchResult.heap st !! l'.

(** A raw nested value that is neither null, nor a list, nor a mapping. *)
Definition bad_shape (v : PyVal) : bool :=
  match v with
  | VNone | VList _ | VDict _ => false
  | _ => true
  end.

(** The shapes the specification allows for a raw nested value: null, a
    mapping, or a list whose elements are all mappings. *)
Definition is_mapping (v : PyVal) : bool :=
  match v with VDict _ => true | _ => false end.

Definition spec_shape (v : PyVal) : bool :=
  match v with
  | VNone | VDict _ => true
  | VList l => forallb is_mapping l
  | _ => false
  end.

Definition is_nested (field : SolrSearchResult.Field) : bool :=
  match field with
  | SolrSearchResult.NestedField _ _ _ => true
  | SolrSearchResult.SearchField _ _ _ => false
  end.

(** Some nested descriptor, [field] or one below it, is handed a raw value
    of a bad shape when [field] projects [raw]: the descent follows the
    non-empty mappings, and the mappings inside lists, through the nested
    children that the projection visits. *)
Inductive reaches_bad_shape (self : SolrSearchResult.t) (fields_only : bool) :
    SolrSearchResult.Field -> PyVal -> Prop :=
| rbs_here field raw :
    bad_shape raw = true -> reaches_bad_shape self fields_only field raw
| rbs_child dflt multi props d name dflt' multi' props' :
    d <> [] ->
    In (name, SolrSearchResult.NestedField dflt' multi' props') props ->
    fields_only && negb (SolrSearchResult.is_need_dump_field self name) = false ->
    reaches_bad_shape self fields_only
      (SolrSearchResult.NestedField dflt' multi' props')
      (match dict_get name d with Some v => v | None => VNone end) ->
    reaches_bad_shape self fields_only
      (SolrSearchResult.NestedField dflt multi props) (VDict d)
| rbs_item dflt multi props l d :
    In (VDict d) l ->
    reaches_bad_shape self fields_only
      (SolrSearchResult.NestedField dflt multi props) (VDict d) ->
    reaches_bad_shape self fields_only
      (SolrSearchResult.NestedField dflt multi props) (VList l).

(** No conversion function in the descriptor tree raises a value error. *)
Fixpoint quiet_converts (field : SolrSearchResult.Field) : Prop :=
  match field with
  | SolrSearchResult.SearchField _ conv _ =>
      forall v msg, conv v <> Raise (ValueError msg)
  | SolrSearchResult.NestedField _ _ props =>
      (fix all (ps : list (string * SolrSearchResult.Field)) : Prop :=
         match ps with
         | [] => True
         | (_, f) :: ps' => quiet_converts f /\ all ps'
         end) props
  end.

(** No child in [props] writes the entry [name]: none is called [name],
    and none copies its value under [name] as primary key. *)
Definition untouched_by (name : string)
    (props : list (string * SolrSearchResult.Field)) : Prop :=
  forall name' f,
    In (name', f) props ->
    name' <> name /\
    forall dflt conv m,
      f = SolrSearchResult.SearchField dflt conv (Some m) ->
      SolrSearchResult.primary_key m = true ->
      SolrSearchResult.mf_name m <> name.

(** The keyword argument [pk_name] is passed with a truthy value. *)
Definition pk_given (kwargs : PyDict) (pk_name : string) : bool :=
  match dict_get pk_name kwargs with
  | Some v => truthy v
  | None => false
  end.

(** The last element of a list that satisfies [p]. *)
Fixpoint find_last {A} (p : A -> bool) (l : list A) : option A :=
  match l with
  | [] => None
  | x :: rest =>
      match find_last p rest with
      | Some y => Some y
      | None => if p x then Some x else None
      end
  end.

(** The model field [f] is stored under the key [k]: under its name, and
    under pk when it is the primary key. *)
Definition stored_under (k : string) (f : SolrDocument.ModelField) : bool :=
  String.eqb (SolrDocument.name f) k ||
  (SolrDocument.primary_key f && String.eqb k "pk").

(** The children of every nested field have distinct names ([properties]
    is a dict). *)
Fixpoint distinct_names (f : NestedFieldPrepare.IField) : Prop :=
  match f with
  | NestedFieldPrepare.IPlain _ _ _ _ _ => True
  | NestedFieldPrepare.INested _ _ _ properties =>
      List.NoDup (map fst properties) /\
      (fix all (ps : list (string * NestedFieldPrepare.IField)) : Prop :=
         match ps with
         | [] => True
         | (_, child) :: rest => distinct_names child /\ all rest
         end) properties
  end.

Definition is_nested_field (f : NestedFieldPrepare.IField) : bool :=
  match f with
  | NestedFieldPrepare.INested _ _ _ _ => true
  | NestedFieldPrepare.IPlain _ _ _ _ _ => false
  end.

(** A label of the form [app_label.model_name], with one dot. *)
Definition well_labelled (label : string) : Prop :=
  exists app_label model_name,
    label = app_label +:+ "." +:+ model_name /\
    has_char "." app_label = false /\
    has_char "." model_name = false.

(** The calls index the rows from [lo] up to [hi], of [hi] in all, in
    consecutive batches that are not empty and hold at most [size] rows. *)
Fixpoint tiles {Model PK} (size lo hi : Z)
    (calls : list (IndexesAdmin.call Model PK)) : Prop :=
  match calls with
  | [] => lo = hi
  | IndexesAdmin.update start end_ total _ :: rest =>
      start = lo /\ (lo < end_ <= hi)%Z /\ (end_ - start <= size)%Z /\
      total = hi /\ tiles size end_ hi rest
  | _ :: _ => False
  end.

(** The rows have distinct primary keys and distinct document names. *)
Definition keyed (db : FetchIndexesView.Table) : Prop :=
  List.NoDup (map IndexesAdmin.guid db) /\
  List.NoDup (map IndexesAdmin.document db).

(** [db'] is [db] with other counts at most, followed by new rows. *)
Definition extends (db db' : FetchIndexesView.Table) : Prop :=
  exists added,
    map (fun r => FetchIndexesView.set_hints r 0) db' =
    map (fun r => FetchIndexesView.set_hints r 0) db ++ added.

(** The table has a row for the document [document]. *)
Definition listed (document : string) (db : FetchIndexesView.Table) : Prop :=
  exists r, In r db /\ IndexesAdmin.document r = document.

(** ** Sample data *)

(** A model with an integer primary key [id]: [to_python] reads decimal
    digits and rejects anything else. *)
Definition digit_of (c : ascii) : option Z :=
  let n := Z.of_nat (nat_of_ascii c) in
  if Z.leb 48 n && Z.leb n 57 then Some (n - 48)%Z else None.

Fixpoint parse_digits (acc : Z) (s : string) : option Z :=
  match s with
  | EmptyString => Some acc
  | String c s' =>
      match digit_of c with
      | Some d => parse_digits (10 * acc + d)%Z s'
      | None => None
      end
  end.

Definition int_to_python (s : string) : Exc PyVal :=
  match s with
  | EmptyString => Raise (OtherError "ValidationError")
  | _ => match parse_digits 0 s with
         | Some z => Ok (VInt z)
         | None => Raise (OtherError "ValidationError")
         end
  end.

Definition sample_model : SolrSearchResult.Model :=
  {| SolrSearchResult.pk_attname := "id";
     SolrSearchResult.pk_to_python := int_to_python |}.

(** A conversion that returns its argument. *)
Definition same (v : PyVal) : Exc PyVal := Ok v.

(** An index with a document body field, two plain fields (one with a
    default) and two nested fields (one multivalued with a default). *)
Definition sample_index : SolrSearchResult.Index :=
  {| SolrSearchResult.fields :=
       [("text", SolrSearchResult.SearchField None same None);
        ("title", SolrSearchResult.SearchField None same None);
        ("x", SolrSearchResult.NestedField None false
                [("y", SolrSearchResult.SearchField None same None);
                 ("z", SolrSearchResult.SearchField (Some (VInt 0)) same None)]);
        ("tags", SolrSearchResult.NestedField (Some (VList [])) true
                   [("name", SolrSearchResult.SearchField None same None)]);
        ("rating", SolrSearchResult.SearchField (Some (VInt 5)) same None)] |}.

(** A row of that model, not yet projected, with the given allowlist. *)
Definition sample_row (allowlist : option (list string)) : SolrSearchResult.t :=
  {| SolrSearchResult.model := sample_model;
     SolrSearchResult.pk := "42";
     SolrSearchResult.id := "app.model.42";
     SolrSearchResult._fields := allowlist;
     SolrSearchResult.attrs :=
       [("score", VInt 1); ("title", VStr "t");
        ("x", VDict [("y", VStr "2024-01-01")])];
     SolrSearchResult._dict := None |}.

(** The nested descriptor [x] of the sample index. *)
Definition sample_x_field : SolrSearchResult.Field :=
  SolrSearchResult.NestedField None false
    [("y", SolrSearchResult.SearchField None same None);
     ("z", SolrSearchResult.SearchField (Some (VInt 0)) same None)].

(** A row whose stored value for the nested field [x] is a number. *)
Definition sample_bad_row : SolrSearchResult.t :=
  {| SolrSearchResult.model := sample_model;
     SolrSearchResult.pk := "42";
     SolrSearchResult.id := "app.model.42";
     SolrSearchResult._fields := None;
     SolrSearchResult.attrs := [("title", VStr "t"); ("x", VInt 3)];
     SolrSearchResult._dict := None |}.

(** Field classes for a schema: the document body, a stored-only text
    field, and a date. *)
Definition sample_text_class : ProjectSolrSearchBackend.FieldClass :=
  {| ProjectSolrSearchBackend.index_fieldname := "text";
     ProjectSolrSearchBackend.document := true;
     ProjectSolrSearchBackend.field_type := "text_general";
     ProjectSolrSearchBackend.is_multivalued := false;
     ProjectSolrSearchBackend.stored := true;
     ProjectSolrSearchBackend.indexed := true;
     ProjectSolrSearchBackend.has_facet_for := false |}.

Definition sample_note_class : ProjectSolrSearchBackend.FieldClass :=
  {| ProjectSolrSearchBackend.index_fieldname := "note";
     ProjectSolrSearchBackend.document := false;
     ProjectSolrSearchBackend.field_type := "text_en";
     ProjectSolrSearchBackend.is_multivalued := false;
     ProjectSolrSearchBackend.stored := true;
     ProjectSolrSearchBackend.indexed := false;
     ProjectSolrSearchBackend.has_facet_for := false |}.

Definition sample_created_class : ProjectSolrSearchBackend.FieldClass :=
  {| ProjectSolrSearchBackend.index_fieldname := "created";
     ProjectSolrSearchBackend.document := false;
     ProjectSolrSearchBackend.field_type := "date";
     ProjectSolrSearchBackend.is_multivalued := true;
     ProjectSolrSearchBackend.stored := false;
     ProjectSolrSearchBackend.indexed := true;
     ProjectSolrSearchBackend.has_facet_for := false |}.

Definition sample_schema_fields
    : list (string * ProjectSolrSearchBackend.FieldClass) :=
  [("text", sample_text_class); ("note", sample_note_class);
   ("created", sample_created_class)].

(** An author whose books are behind the reverse accessor [books_set];
    a book has a title and a publisher, and no isbn.  The plain fields
    read the attribute [model_attr] names. *)
Definition sample_read_attr (model_attr : option string)
    (obj : NestedFieldPrepare.Instance) : Exc PyVal :=
  match model_attr with
  | Some n =>
      match NestedFieldPrepare.lookup n (NestedFieldPrepare.attrs_of obj) with
      | Some (NestedFieldPrepare.AValue v) => Ok v
      | _ => Ok VNone
      end
  | None => Ok VNone
  end.

Definition sample_char_field : NestedFieldPrepare.IField :=
  NestedFieldPrepare.IPlain None sample_read_attr None Ok None.

Definition sample_publisher : NestedFieldPrepare.Instance :=
  NestedFieldPrepare.Inst [("name", NestedFieldPrepare.AValue (VStr "Mir"))].

Definition sample_book (title : string) : NestedFieldPrepare.Instance :=
  NestedFieldPrepare.Inst
    [("title", NestedFieldPrepare.AValue (VStr title));
     ("publisher", NestedFieldPrepare.AModel sample_publisher)].

Definition sample_books : NestedFieldPrepare.Attr :=
  NestedFieldPrepare.AManager [sample_book "One"; sample_book "Two"].

Definition sample_author : NestedFieldPrepare.Instance :=
  NestedFieldPrepare.Inst
    [("name", NestedFieldPrepare.AValue (VStr "Ann"));
     ("books", NestedFieldPrepare.AValue (VInt 0));
     ("books_set", sample_books)].

Definition sample_book_properties : list (string * NestedFieldPrepare.IField) :=
  [("title", sample_char_field);
   ("publisher",
    NestedFieldPrepare.INested None None false [("name", sample_char_field)]);
   ("isbn", sample_char_field)].

Definition sample_books_field : NestedFieldPrepare.IField :=
  NestedFieldPrepare.INested None None true sample_book_properties.

(** Two rows of the admin list, one installed model, and a search
    library whose calls all succeed. *)
Definition sample_records : list IndexesAdmin.Indexes :=
  [{| IndexesAdmin.guid := 1; IndexesAdmin.document := "BookDocument";
      IndexesAdmin.model := "library.Book"; IndexesAdmin.hints := 12;
      IndexesAdmin.updated_at := Some 1700000000%Z |};
   {| IndexesAdmin.guid := 2; IndexesAdmin.document := "AuthorDocument";
      IndexesAdmin.model := "library.Author"; IndexesAdmin.hints := 3;
      IndexesAdmin.updated_at := None |}].

Definition sample_get_model (app_label model_name : string) : Exc string :=
  if String.eqb app_label "library" then Ok model_name
  else Raise (OtherError "LookupError").

Definition sample_perform (c : IndexesAdmin.call string Z) : Exc unit := Ok tt.

Definition sample_do_update (start end_ total : Z) (last_max_pk : option Z)
    : Exc (option Z) :=
  Ok (Some end_).

(** One application with two models, of which the first is indexed. *)
Definition sample_models (label : string) : list string :=
  if String.eqb label "library" then ["Book"; "Shelf"] else [].

Definition sample_get_index (using_ model_ : string)
    : option FetchIndexesView.SearchIndex :=
  if String.eqb model_ "Book"
  then Some {| FetchIndexesView.class_name := "BookDocument";
               FetchIndexesView.model_label := "library.Book";
               FetchIndexesView.count := 40 |}
  else None.

(** A row and no dict object yet. *)
Definition fresh (self : SolrSearchResult.t) : SolrSearchResult.State :=
  {| SolrSearchResult.heap := []; SolrSearchResult.obj := self |}.

(* ===================================================================== *)
(** * Strings: splitting and joining *)
(* ===================================================================== *)

Lemma split1_no_sep sep s :
  has_char sep s = false -> split1 sep s = (s, []).
Proof.
  induction s as [|c s IH]; simpl; [reflexivity|].
  intros H. apply orb_false_iff in H as [Hc Hs].
  rewrite (IH Hs), Hc. reflexivity.
Qed.

Lemma unpack_last_app {A} (x : A) (xs : list A) :
  let (init, l) := unpack_last x xs in x :: xs = init ++ [l].
Proof.
  revert x. induction xs as [|y ys IH]; intros x; simpl; [reflexivity|].
  specialize (IH y). destruct (unpack_last y ys) as [init l].
  simpl. rewrite IH. reflexivity.
Qed.

(** The starred unpacking takes the last segment of the split. *)
Lemma split_unpack_last_spec sep s :
  let (init, l) := split_unpack_last sep s in split sep s = init ++ [l].
Proof.
  unfold split_unpack_last, split. destruct (split1 sep s) as [w ws].
  apply unpack_last_app.
Qed.

Lemma unpack_last_snoc {A} (xs : list A) : forall x init l,
  init ++ [l] = x :: xs -> unpack_last x xs = (init, l).
Proof.
  induction xs as [|y ys IH]; intros x init l H.
  - destruct init as [|a [|b init]]; simpl in H.
    + injection H as ->. reflexivity.
    + discriminate.
    + discriminate.
  - destruct init as [|a init]; simpl in H.
    + discriminate.
    + injection H as -> H. simpl. rewrite (IH y init l H). reflexivity.
Qed.

(** Splitting after a segment that holds no separator. *)
Lemma split1_app sep x rest :
  has_char sep x = false ->
  split1 sep (x +:+ String sep rest) = (x, split sep rest).
Proof.
  induction x as [|c x IH]; simpl; intros H.
  - rewrite Ascii.eqb_refl. unfold split.
    destruct (split1 sep rest) as [w ws]. reflexivity.
  - apply orb_false_iff in H as [Hc Hx]. rewrite (IH Hx), Hc. reflexivity.
Qed.

(** Splitting undoes joining, for segments that hold no separator. *)
Lemma split1_concat sep xs : forall x,
  has_char sep x = false ->
  Forall (fun s => has_char sep s = false) xs ->
  split1 sep (String.concat (String sep EmptyString) (x :: xs)) = (x, xs).
Proof.
  induction xs as [|y ys IH]; intros x Hx Hxs.
  - simpl. apply split1_no_sep. exact Hx.
  - apply Forall_cons in Hxs as [Hy Hys].
    change (String.concat (String sep EmptyString) (x :: y :: ys))
      with (x +:+ String sep (String.concat (String sep EmptyString) (y :: ys))).
    rewrite (split1_app _ _ _ Hx). unfold split.
    rewrite (IH y Hy Hys). reflexivity.
Qed.

Lemma str_items_strs (items : list string) :
  str_items (map VStr items) = Ok items.
Proof.
  induction items as [|s items IH]; simpl; [reflexivity|].
  rewrite IH. reflexivity.
Qed.

Lemma join_strs sep (items : list string) :
  join sep (map VStr items) = Ok (String.concat sep items).
Proof. unfold join. rewrite str_items_strs. reflexivity. Qed.

Lemma string_app_nil_r (s : string) : s +:+ EmptyString = s.
Proof.
  induction s as [|c s IH]; [reflexivity|].
  simpl. rewrite IH. reflexivity.
Qed.

Lemma string_app_assoc (a b c : string) : (a +:+ b) +:+ c = a +:+ (b +:+ c).
Proof.
  induction a as [|x a IH]; [reflexivity|].
  simpl. rewrite IH. reflexivity.
Qed.

(* ===================================================================== *)
(** * The nested query builder *)
(* ===================================================================== *)

Section ParentSQ_facts.
Variable py_str : PyVal -> string.

(** Once every attribute is parsed, the properties only read. *)
Lemma lazy_filled {A} (get : ParentSQ.t -> ParentSQ.slot A) self a :
  get self = ParentSQ.Filled a ->
  ParentSQ.lazy get self = Ok (ParentSQ.Filled a, self).
Proof.
  intros H. unfold ParentSQ.lazy. rewrite H. simpl.
  rewrite andb_false_r. reflexivity.
Qed.

(** The fragment of a fully parsed object, in closed form. *)
Lemma as_query_string_parsed self p k v :
  ParentSQ._path self = ParentSQ.Filled p ->
  ParentSQ._key self = ParentSQ.Filled k ->
  ParentSQ._value self = ParentSQ.Filled v ->
  ParentSQ.as_query_string py_str self =
    Ok (if truthy v
        then with_term (effective_nest_path p k) k (ParentSQ.force_str py_str v)
        else existence_only (effective_nest_path p k), self).
Proof.
  intros Hp Hk Hv.
  unfold ParentSQ.as_query_string, ParentSQ._repr_query_fragment_callback,
    ParentSQ.key, ParentSQ.value, ParentSQ.path.
  rewrite (lazy_filled _ _ _ Hk). cbn [exc_bind].
  rewrite (lazy_filled _ _ _ Hv). cbn [exc_bind].
  rewrite (lazy_filled _ _ _ Hp). cbn [exc_bind ParentSQ.slot_is].
  unfold effective_nest_path, with_term, existence_only.
  destruct (String.eqb p "/").
  - rewrite (lazy_filled _ _ _ Hk).
    cbn [exc_bind ParentSQ.slot_truthy ParentSQ.fmt_slot ParentSQ.slot_force_str].
    destruct (truthy v); cbn [app String.concat];
      rewrite !string_app_assoc; cbn [String.append]; reflexivity.
  - rewrite (lazy_filled _ _ _ Hp).
    cbn [exc_bind ParentSQ.slot_truthy ParentSQ.fmt_slot ParentSQ.slot_force_str].
    destruct (truthy v); cbn [app String.concat];
      rewrite ?string_app_assoc; cbn [String.append]; reflexivity.
Qed.

(** What the constructor stores for a path and a value. *)
Lemma init_parsed full_path v v' :
  scalar_value v = Ok v' ->
  exists sq,
    ParentSQ.__init__ [(full_path, v)] = Ok sq /\
    ParentSQ._key sq = ParentSQ.Filled (snd (split_unpack_last "." full_path)) /\
    ParentSQ._path sq =
      ParentSQ.Filled ("/" +:+ String.concat "/" (fst (split_unpack_last "." full_path))) /\
    ParentSQ._value sq = ParentSQ.Filled v'.
Proof.
  intros Hv. unfold ParentSQ.__init__, ParentSQ._parse_args. simpl.
  destruct (split_unpack_last "." full_path) as [path_items key] eqn:Hs.
  destruct v; simpl in Hv; try (injection Hv as <-);
    try (eexists; repeat split; reflexivity).
  destruct (join " " l) as [s|e]; simpl in Hv; [|discriminate].
  injection Hv as <-. eexists; repeat split; reflexivity.
Qed.

(** A join that fails makes the constructor fail the same way. *)
Lemma init_join_fails full_path v e :
  scalar_value v = Raise e -> ParentSQ.__init__ [(full_path, v)] = Raise e.
Proof.
  intros Hv. unfold ParentSQ.__init__, ParentSQ._parse_args. simpl.
  destruct v; simpl in Hv; try discriminate.
  destruct (join " " l) as [s|e']; simpl in Hv; [discriminate|].
  injection Hv as <-. reflexivity.
Qed.

Lemma scalar_value_falsy v v' :
  truthy v = false -> scalar_value v = Ok v' -> truthy v' = false.
Proof.
  destruct v; simpl; intros Ht Hv; try (injection Hv as <-; exact Ht).
  destruct l; [|discriminate]. injection Hv as <-. reflexivity.
Qed.

Lemma scalar_value_falsy_ok v :
  truthy v = false -> exists v', scalar_value v = Ok v'.
Proof.
  destruct v; simpl; intros Ht; eauto.
  destruct l; [|discriminate]. eauto.
Qed.
End ParentSQ_facts.

(** C7: for the dotted path a.b.c with the filter value x the builder
    computes key c and nest path /a/b, and the emitted fragment contains
    the nest path clause for /a/b and the term filter c:(x). *)
Theorem C7_fragment_for_a_b_c (py_str : PyVal -> string) :
  exists sq frag,
    ParentSQ.__init__ [("a.b.c", VStr "x")] = Ok sq /\
    ParentSQ.key sq = Ok (ParentSQ.Filled "c", sq) /\
    ParentSQ.path sq = Ok (ParentSQ.Filled "/a/b", sq) /\
    ParentSQ.as_query_string py_str sq = Ok (frag, sq) /\
    frag = with_term "/a/b" "c" "x" /\
    str_contains ("_nest_path_:" +:+ dq +:+ "/a/b" +:+ dq) frag = true /\
    str_contains "c:(x)" frag = true.
Proof.
  destruct (init_parsed "a.b.c" (VStr "x") (VStr "x") eq_refl)
    as (sq & Hinit & Hkey & Hpath & Hval).
  exists sq, (with_term "/a/b" "c" "x").
  split; [exact Hinit|].
  split; [apply lazy_filled; exact Hkey|].
  split; [apply lazy_filled; exact Hpath|].
  split.
  - rewrite (as_query_string_parsed py_str sq _ _ _ Hpath Hkey Hval).
    reflexivity.
  - repeat split; vm_compute; reflexivity.
Qed.

(** C8: for every path with no segment before the leaf the computed nest
    path is the root and the fragment uses /key as the effective nest
    path; when the filter value is absent or empty the fragment is the
    existence-only form, with no term filter. *)
Theorem C8_root_path_degenerates (py_str : PyVal -> string)
    (p : string) (v v' : PyVal) :
  has_char "." p = false ->
  scalar_value v = Ok v' ->
  exists sq,
    ParentSQ.__init__ [(p, v)] = Ok sq /\
    ParentSQ.key sq = Ok (ParentSQ.Filled p, sq) /\
    ParentSQ.path sq = Ok (ParentSQ.Filled "/", sq) /\
    ParentSQ.as_query_string py_str sq =
      Ok (if truthy v'
          then with_term ("/" +:+ p) p (ParentSQ.force_str py_str v')
          else existence_only ("/" +:+ p), sq) /\
    (truthy v = false ->
     ParentSQ.as_query_string py_str sq = Ok (existence_only ("/" +:+ p), sq)).
Proof.
  intros Hdot Hv.
  destruct (init_parsed p v v' Hv) as (sq & Hinit & Hkey & Hpath & Hval).
  unfold split_unpack_last in Hkey, Hpath.
  rewrite (split1_no_sep _ _ Hdot) in Hkey, Hpath. simpl in Hkey, Hpath.
  pose proof (as_query_string_parsed py_str sq _ _ _ Hpath Hkey Hval) as Hq.
  unfold effective_nest_path in Hq. simpl in Hq.
  exists sq. split; [exact Hinit|].
  split; [apply lazy_filled; exact Hkey|].
  split; [apply lazy_filled; exact Hpath|].
  split; [exact Hq|].
  intros Hf. rewrite Hq, (scalar_value_falsy _ _ Hf Hv). reflexivity.
Qed.

Lemma C8_root_path_witness :
  exists sq,
    ParentSQ.__init__ [("a", VNone)] = Ok sq /\
    ParentSQ.as_query_string (fun _ => "None") sq =
      Ok (existence_only "/a", sq).
Proof.
  destruct (C8_root_path_degenerates (fun _ => "None") "a" VNone VNone
              eq_refl eq_refl) as (sq & Hinit & _ & _ & _ & Hq).
  exists sq. split; [exact Hinit|]. apply Hq. reflexivity.
Defined.

(** The path of step 1, for any number of segments: the dotted path made
    of the segments [items] and the leaf [key], none holding a dot, is
    parsed into the key [key] and the nest path that joins [items] with
    slashes after a leading slash. *)
Theorem dotted_path_parsed (items : list string) (key : string)
    (v v' : PyVal) :
  Forall (fun s => has_char "." s = false) items ->
  has_char "." key = false ->
  scalar_value v = Ok v' ->
  exists sq,
    ParentSQ.__init__ [(String.concat "." (items ++ [key]), v)] = Ok sq /\
    ParentSQ.key sq = Ok (ParentSQ.Filled key, sq) /\
    ParentSQ.path sq =
      Ok (ParentSQ.Filled ("/" +:+ String.concat "/" items), sq) /\
    ParentSQ.value sq = Ok (ParentSQ.Filled v', sq).
Proof.
  intros Hitems Hkey Hv.
  assert (Hsplit : split_unpack_last "." (String.concat "." (items ++ [key]))
                   = (items, key)).
  { unfold split_unpack_last.
    assert (Hall : Forall (fun s => has_char "." s = false) (items ++ [key])).
    { apply Forall_app. split; [exact Hitems|].
      constructor; [exact Hkey|constructor]. }
    destruct (items ++ [key]) as [|x xs] eqn:E;
      [destruct items; discriminate|].
    apply Forall_cons in Hall as [Hx Hxs].
    rewrite (split1_concat "." xs x Hx Hxs).
    apply unpack_last_snoc. exact E. }
  destruct (init_parsed (String.concat "." (items ++ [key])) v v' Hv)
    as (sq & Hinit & Hk & Hp & Hval).
  rewrite Hsplit in Hk, Hp. simpl in Hk, Hp.
  exists sq. split; [exact Hinit|].
  split; [apply lazy_filled; exact Hk|].
  split; [apply lazy_filled; exact Hp|apply lazy_filled; exact Hval].
Qed.

Lemma dotted_path_parsed_witness :
  exists sq,
    ParentSQ.__init__ [("a.b.c", VStr "x")] = Ok sq /\
    ParentSQ.key sq = Ok (ParentSQ.Filled "c", sq) /\
    ParentSQ.path sq = Ok (ParentSQ.Filled "/a/b", sq).
Proof.
  destruct (dotted_path_parsed ["a"; "b"] "c" (VStr "x") (VStr "x"))
    as (sq & Hinit & Hk & Hp & _).
  - repeat constructor.
  - reflexivity.
  - reflexivity.
  - exists sq. split; [exact Hinit|]. split; [exact Hk|exact Hp].
Defined.

(** A list with an element that is not a string cannot be joined. *)
Lemma str_items_not_str (items : list PyVal) :
  forallb is_str items = false ->
  str_items items = Raise (TypeError "sequence item: expected str instance").
Proof.
  induction items as [|v items IH]; simpl; [discriminate|].
  destruct v; simpl; try reflexivity.
  intros H. rewrite (IH H). reflexivity.
Qed.

(** C9, corrected: a filter value that is a list of strings has its
    elements joined with one space into a single string before it is
    embedded; the value [x, y] gives the term filter field:(x y).  The
    elements are not turned into text before the join: for a list that
    holds an element that is not a string the constructor raises a type
    error. *)
Theorem C9_list_value_joined (py_str : PyVal -> string)
    (full_path : string) (items : list string) :
  let joined := String.concat " " items in
  let key := snd (split_unpack_last "." full_path) in
  let path := "/" +:+ String.concat "/" (fst (split_unpack_last "." full_path)) in
  (exists sq,
     ParentSQ.__init__ [(full_path, VList (map VStr items))] = Ok sq /\
     ParentSQ.value sq = Ok (ParentSQ.Filled (VStr joined), sq) /\
     ParentSQ.as_query_string py_str sq =
       Ok (if String.eqb joined EmptyString
           then existence_only (effective_nest_path path key)
           else with_term (effective_nest_path path key) key joined, sq)) /\
  (forall values,
     forallb is_str values = false ->
     exists msg,
       ParentSQ.__init__ [(full_path, VList values)] = Raise (TypeError msg) /\
       ParentSQ.fragment py_str full_path (VList values) = Raise (TypeError msg)) /\
  ParentSQ.fragment py_str "field" (VList [VStr "x"; VStr "y"]) =
    Ok (with_term "/field" "field" "x y") /\
  str_contains "field:(x y)" (with_term "/field" "field" "x y") = true.
Proof.
  intros joined key path. split; [|split; [|split; vm_compute; reflexivity]].
  - assert (Hv : scalar_value (VList (map VStr items)) = Ok (VStr joined)).
    { simpl. rewrite join_strs. reflexivity. }
    destruct (init_parsed full_path _ _ Hv) as (sq & Hinit & Hkey & Hpath & Hval).
    exists sq. split; [exact Hinit|].
    split; [apply lazy_filled; exact Hval|].
    rewrite (as_query_string_parsed py_str sq _ _ _ Hpath Hkey Hval).
    simpl. destruct (String.eqb joined EmptyString); reflexivity.
  - intros values Hvalues. eexists.
    assert (Hinit : ParentSQ.__init__ [(full_path, VList values)] =
                    Raise (TypeError "sequence item: expected str instance")).
    { apply init_join_fails. simpl. unfold join.
      rewrite (str_items_not_str values Hvalues). reflexivity. }
    split; [exact Hinit|].
    unfold ParentSQ.fragment. rewrite Hinit. reflexivity.
Qed.

(** C9 as stated fails: the elements of a list are not turned into text
    before the join, so a list of numbers is not joined; building the
    filter raises a type error and no fragment is produced. *)
Lemma C9_non_string_list_counterexample :
  ParentSQ.__init__ [("field", VList [VInt 1; VInt 2])] =
    Raise (TypeError "sequence item: expected str instance") /\
  ParentSQ.fragment (fun _ => EmptyString) "field" (VList [VInt 1; VInt 2]) =
    Raise (TypeError "sequence item: expected str instance").
Proof. split; reflexivity. Qed.

(* ===================================================================== *)
(** * Dicts *)
(* ===================================================================== *)

Lemma dict_get_set_eq k v d : dict_get k (dict_set k v d) = Some v.
Proof.
  induction d as [|[k' v'] d IH]; simpl.
  - rewrite String.eqb_refl. reflexivity.
  - destruct (String.eqb k k') eqn:E; simpl; rewrite E; [reflexivity|exact IH].
Qed.

Lemma dict_get_set_ne k k' v d :
  k <> k' -> dict_get k' (dict_set k v d) = dict_get k' d.
Proof.
  intros Hne. induction d as [|[k0 v0] d IH]; simpl.
  - destruct (String.eqb k' k) eqn:E; [|reflexivity].
    apply String.eqb_eq in E. congruence.
  - destruct (String.eqb k k0) eqn:E; simpl.
    + apply String.eqb_eq in E. subst k0.
      destruct (String.eqb k' k) eqn:E'; [|reflexivity].
      apply String.eqb_eq in E'. congruence.
    + rewrite IH. reflexivity.
Qed.

Lemma dict_get_set k k' v d :
  dict_get k' (dict_set k v d) =
    if String.eqb k k' then Some v else dict_get k' d.
Proof.
  destruct (String.eqb k k') eqn:E.
  - apply String.eqb_eq in E. subst. apply dict_get_set_eq.
  - apply String.eqb_neq in E. apply dict_get_set_ne. exact E.
Qed.

(** A key has an entry exactly when it is among the keys. *)
Lemma dict_get_keys k d : dict_get k d <> None <-> In k (dict_keys d).
Proof.
  induction d as [|[k' v'] d IH]; simpl; [tauto|].
  destruct (String.eqb k k') eqn:E.
  - apply String.eqb_eq in E. subst. split; [auto|discriminate].
  - apply String.eqb_neq in E. rewrite IH. split; [auto|].
    intros [H|H]; [congruence|exact H].
Qed.

(* ===================================================================== *)
(** * The projector: one loop turn, and the loop *)
(* ===================================================================== *)

Section Projector_facts.
Import SolrSearchResult.
Variable DOCUMENT_FIELD : string.
Variable fields_inheritance : bool.

Lemma heap_setitem_eq l k v st :
  heap (setitem l k v st) !! l = dict_set k v <$> heap st !! l.
Proof. unfold setitem. simpl. apply list_lookup_alter_eq. Qed.

Lemma setitem_only_touches l k v st : only_touches l st (setitem l k v st).
Proof.
  unfold only_touches, setitem. simpl. split; [reflexivity|].
  split; [apply length_alter|].
  intros l' Hne. apply list_lookup_alter_ne. congruence.
Qed.

Lemma only_touches_refl l st : only_touches l st st.
Proof. unfold only_touches. auto. Qed.

Lemma only_touches_trans l st1 st2 st3 :
  only_touches l st1 st2 -> only_touches l st2 st3 -> only_touches l st1 st3.
Proof.
  unfold only_touches. intros (Ho & Hl & Hh) (Ho' & Hl' & Hh').
  split; [congruence|]. split; [congruence|].
  intros l' Hne. rewrite Hh', Hh; auto.
Qed.

(** One turn of the loop, by cases: the field is skipped, or its value
    is computed and stored, or computing it raises. *)
Lemma dump_field_cases l name field st :
  dump_field DOCUMENT_FIELD fields_inheritance l (name, field) st =
    if dumped DOCUMENT_FIELD (obj st) name
    then match field_value (obj st) fields_inheritance field
                 (getattr (obj st) name) with
         | Ok v => (Ok tt, setitem l name v st)
         | Raise e => (Raise e, st)
         end
    else (Ok tt, st).
Proof.
  unfold dump_field, dumped, field_value.
  destruct (is_need_dump_field (obj st) name); simpl; [|reflexivity].
  destruct (String.eqb name DOCUMENT_FIELD &&
            negb (truthy (getattr (obj st) name))); simpl; [reflexivity|].
  destruct field; reflexivity.
Qed.

Lemma dump_field_only_touches l entry st r st' :
  dump_field DOCUMENT_FIELD fields_inheritance l entry st = (r, st') ->
  only_touches l st st'.
Proof.
  destruct entry as [name field]. rewrite dump_field_cases.
  destruct (dumped _ _ _).
  - destruct (field_value _ _ _ _); intros [= <- <-];
      [apply setitem_only_touches|apply only_touches_refl].
  - intros [= <- <-]. apply only_touches_refl.
Qed.

Lemma dump_fields_only_touches l fs : forall st r st',
  dump_fields DOCUMENT_FIELD fields_inheritance l fs st = (r, st') ->
  only_touches l st st'.
Proof.
  induction fs as [|entry fs IH]; simpl; intros st r st' H.
  - injection H as <- <-. apply only_touches_refl.
  - destruct (dump_field _ _ l entry st) as [[[]|e] st1] eqn:E.
    + eapply only_touches_trans;
        [eapply dump_field_only_touches; exact E|eapply IH; exact H].
    + injection H as <- <-. eapply dump_field_only_touches; exact E.
Qed.

Lemma dump_fields_app l fs1 fs2 st :
  dump_fields DOCUMENT_FIELD fields_inheritance l (fs1 ++ fs2) st =
    match dump_fields DOCUMENT_FIELD fields_inheritance l fs1 st with
    | (Ok _, st') => dump_fields DOCUMENT_FIELD fields_inheritance l fs2 st'
    | (Raise e, st') => (Raise e, st')
    end.
Proof.
  revert st. induction fs1 as [|entry fs1 IH]; simpl; intros st; [reflexivity|].
  destruct (dump_field _ _ l entry st) as [[[]|e] st1]; [apply IH|reflexivity].
Qed.

(** The dict at [l] after a loop that returned: entries under names the
    loop did not emit are as before, every name that was there is still
    there, and a name is there exactly when it was there before or the
    loop emitted it. *)
Lemma dump_fields_dict l fs : forall st st' d,
  dump_fields DOCUMENT_FIELD fields_inheritance l fs st = (Ok tt, st') ->
  heap st !! l = Some d ->
  exists d',
    heap st' !! l = Some d' /\
    (forall name,
       (forall field, In (name, field) fs ->
                      dumped DOCUMENT_FIELD (obj st) name = false) ->
       dict_get name d' = dict_get name d) /\
    (forall name,
       dict_get name d' <> None <->
       dict_get name d <> None \/
       exists field, In (name, field) fs /\
                     dumped DOCUMENT_FIELD (obj st) name = true).
Proof.
  induction fs as [|[name0 field0] fs IH]; intros st st' d H Hd;
    cbn [dump_fields] in H.
  - injection H as <-. exists d. split; [exact Hd|]. split; [reflexivity|].
    intros name. split; [auto|]. intros [H|(f & [] & _)]. exact H.
  - destruct (dump_field _ _ l (name0, field0) st) as [[[]|e] st1] eqn:E;
      [|discriminate].
    pose proof (dump_field_only_touches _ _ _ _ _ E) as (Hobj & _ & _).
    rewrite dump_field_cases in E.
    destruct (dumped DOCUMENT_FIELD (obj st) name0) eqn:Hdump.
    + destruct (field_value _ _ _ _) as [v|e] eqn:Hv; [|discriminate].
      injection E as <-.
      destruct (IH _ _ (dict_set name0 v d) H) as (d' & Hd' & Hother & Hkeys).
      { rewrite heap_setitem_eq, Hd. reflexivity. }
      exists d'. split; [exact Hd'|]. split.
      * intros name Hn. rewrite Hother.
        -- apply dict_get_set_ne. intros ->.
           specialize (Hn field0 (or_introl eq_refl)). congruence.
        -- intros field Hin. cbn [obj setitem]. apply (Hn field). right. exact Hin.
      * intros name. rewrite Hkeys. cbn [obj setitem]. rewrite dict_get_set.
        destruct (String.eqb name0 name) eqn:En.
        -- apply String.eqb_eq in En. subst name.
           split; [|intros _; left; discriminate].
           intros _. right. exists field0. split; [left; reflexivity|exact Hdump].
        -- apply String.eqb_neq in En. split.
           ++ intros [H1|(f & Hin & Hdf)]; [left; exact H1|].
              right. exists f. split; [right; exact Hin|exact Hdf].
           ++ intros [H1|(f & [Heq|Hin] & Hdf)]; [left; exact H1| |].
              ** injection Heq as Heq _. congruence.
              ** right. exists f. split; [exact Hin|exact Hdf].
    + injection E as <-.
      destruct (IH _ _ d H Hd) as (d' & Hd' & Hother & Hkeys).
      exists d'. split; [exact Hd'|]. split.
      * intros name Hn. apply Hother. intros field Hin.
        apply (Hn field). right. exact Hin.
      * intros name. rewrite Hkeys. split.
        -- intros [H1|(f & Hin & Hdf)]; [left; exact H1|].
           right. exists f. split; [right; exact Hin|exact Hdf].
        -- intros [H1|(f & [Heq|Hin] & Hdf)]; [left; exact H1| |].
           ++ injection Heq as -> _. congruence.
           ++ right. exists f. split; [exact Hin|exact Hdf].
Qed.
End Projector_facts.

Section First_call.
Import SolrSearchResult.
Variable DOCUMENT_FIELD : string.
Variable fields_inheritance : bool.

(** The value stored for an emitted field whose name is declared once. *)
Lemma dump_fields_value l fs : forall st st' d name field,
  List.NoDup (map fst fs) ->
  In (name, field) fs ->
  dumped DOCUMENT_FIELD (obj st) name = true ->
  dump_fields DOCUMENT_FIELD fields_inheritance l fs st = (Ok tt, st') ->
  heap st !! l = Some d ->
  exists v d',
    field_value (obj st) fields_inheritance field (getattr (obj st) name) = Ok v /\
    heap st' !! l = Some d' /\
    dict_get name d' = Some v.
Proof.
  induction fs as [|[name0 field0] fs IH];
    intros st st' d name field Hnd Hin Hdump H Hd; [destruct Hin|].
  cbn [dump_fields] in H.
  destruct (dump_field _ _ l (name0, field0) st) as [[[]|e] st1] eqn:E;
    [|discriminate].
  pose proof (dump_field_only_touches _ _ _ _ _ _ _ E) as (Hobj & _ & _).
  rewrite dump_field_cases in E.
  cbn [map fst] in Hnd. apply List.NoDup_cons_iff in Hnd as [Hnot Hnd].
  destruct Hin as [Heq|Hin].
  - injection Heq as -> ->. rewrite Hdump in E.
    destruct (field_value _ _ _ _) as [v|e] eqn:Hv; [|discriminate].
    injection E as <-.
    destruct (dump_fields_dict _ _ _ _ _ _ (dict_set name v d) H)
      as (d' & Hd' & Hother & _).
    { rewrite heap_setitem_eq, Hd. reflexivity. }
    exists v, d'. split; [reflexivity|]. split; [exact Hd'|].
    rewrite Hother; [apply dict_get_set_eq|].
    intros f Hf. exfalso. apply Hnot.
    apply in_map_iff. exists (name, f). split; [reflexivity|exact Hf].
  - assert (Hd1 : exists d1, heap st1 !! l = Some d1).
    { destruct (dumped DOCUMENT_FIELD (obj st) name0).
      - destruct (field_value _ _ field0 _); [|discriminate].
        injection E as <-. rewrite heap_setitem_eq, Hd. simpl. eauto.
      - injection E as <-. eauto. }
    destruct Hd1 as [d1 Hd1].
    rewrite <- Hobj in Hdump |- *.
    eapply IH; eauto.
Qed.

(** The first call on a row whose model has an index: the identifier
    converts, a new dict holding the two primary-key entries is
    allocated and cached, and the loop over the declared fields runs on
    it. *)
Lemma to_dict_first index st l st' :
  _dict (obj st) = None ->
  to_dict DOCUMENT_FIELD (Some index) fields_inheritance st = (Ok l, st') ->
  exists did,
    django_id (obj st) = Ok did /\
    l = length (heap st) /\
    dump_fields DOCUMENT_FIELD fields_inheritance l (fields index)
      {| heap := heap st ++
                 [dict_set (pk_attname (model (obj st))) did
                    (dict_set "pk" (VStr (pk (obj st))) [])];
         obj := set_dict (obj st) (Some l) |} = (Ok tt, st').
Proof.
  intros Hnone H. unfold to_dict in H. rewrite Hnone in H.
  destruct (django_id (obj st)) as [did|e]; [|discriminate].
  exists did. split; [reflexivity|].
  unfold alloc in H. cbn [heap obj] in H.
  destruct (dump_fields _ _ _ _ _) as [[[]|e] st3] eqn:E; [|discriminate].
  injection H as <- <-. split; [reflexivity|exact E].
Qed.

(** A cached projection is returned as it is, whatever the arguments. *)
Lemma to_dict_cached unified_index fi st l :
  _dict (obj st) = Some l ->
  to_dict DOCUMENT_FIELD unified_index fi st = (Ok l, st).
Proof. intros H. unfold to_dict. rewrite H. reflexivity. Qed.

(** The allowlist and the attributes do not depend on the cache. *)
Lemma dumped_set_dict self c name :
  dumped DOCUMENT_FIELD (set_dict self c) name = dumped DOCUMENT_FIELD self name.
Proof. reflexivity. Qed.

Lemma getattr_set_dict self c name : getattr (set_dict self c) name = getattr self name.
Proof. reflexivity. Qed.

Lemma field_value_set_dict self c fi field raw :
  field_value (set_dict self c) fi field raw = field_value self fi field raw.
Proof. reflexivity. Qed.
End First_call.

(* ===================================================================== *)
(** * The allowlist *)
(* ===================================================================== *)

(** The allowlist check refuses a name exactly when the allowlist is a
    non-empty list that does not hold the name. *)
Lemma is_need_dump_field_false self name :
  SolrSearchResult.is_need_dump_field self name = false <->
  exists allow,
    SolrSearchResult._fields self = Some allow /\ allow <> [] /\ ~ In name allow.
Proof.
  unfold SolrSearchResult.is_need_dump_field.
  destruct (SolrSearchResult._fields self) as [[|f fs]|].
  - split; [discriminate|]. intros (a & [= <-] & Hne & _). congruence.
  - split.
    + intros H. exists (f :: fs). split; [reflexivity|]. split; [discriminate|].
      intros Hin. apply not_true_iff_false in H. apply H.
      apply existsb_exists. exists name. split; [exact Hin|apply String.eqb_refl].
    + intros (a & [= <-] & _ & Hnin). apply not_true_iff_false.
      intros H. apply existsb_exists in H as (x & Hin & Hx).
      apply String.eqb_eq in Hx. subst x. exact (Hnin Hin).
  - split; [discriminate|]. intros (a & [=] & _).
Qed.

Lemma dumped_false DOCUMENT_FIELD self name :
  dumped DOCUMENT_FIELD self name = false <->
  (exists allow,
     SolrSearchResult._fields self = Some allow /\ allow <> [] /\ ~ In name allow) \/
  (name = DOCUMENT_FIELD /\ truthy (SolrSearchResult.getattr self name) = false).
Proof.
  unfold dumped. rewrite andb_false_iff, negb_false_iff, andb_true_iff,
    negb_true_iff, String.eqb_eq, is_need_dump_field_false. reflexivity.
Qed.

(** C1, as the code has it: an allowlist that is empty counts as absent.
    On the first projection of a row whose model has an index, a declared
    field is left out of the returned dict exactly when the allowlist is
    a non-empty list that does not hold its name, or the field is the
    document body field and its value is empty.  (The names of the two
    primary-key entries are always present.) *)
Theorem C1_allowlist_filtering (DOCUMENT_FIELD : string) (fi : bool)
    (index : SolrSearchResult.Index) (st st' : SolrSearchResult.State)
    (l : nat) :
  SolrSearchResult._dict (SolrSearchResult.obj st) = None ->
  SolrSearchResult.to_dict DOCUMENT_FIELD (Some index) fi st = (Ok l, st') ->
  exists d,
    SolrSearchResult.deref st' l = Some d /\
    forall name field,
      In (name, field) (SolrSearchResult.fields index) ->
      (SolrSearchResult.is_need_dump_field (SolrSearchResult.obj st) name = false <->
       exists allow,
         SolrSearchResult._fields (SolrSearchResult.obj st) = Some allow /\
         allow <> [] /\ ~ In name allow) /\
      (name <> "pk" ->
       name <> SolrSearchResult.pk_attname
                 (SolrSearchResult.model (SolrSearchResult.obj st)) ->
       (dict_get name d = None <->
        (exists allow,
           SolrSearchResult._fields (SolrSearchResult.obj st) = Some allow /\
           allow <> [] /\ ~ In name allow) \/
        (name = DOCUMENT_FIELD /\
         truthy (SolrSearchResult.getattr (SolrSearchResult.obj st) name) = false))).
Proof.
  intros Hnone H.
  destruct (to_dict_first _ _ _ _ _ _ Hnone H) as (did & Hid & -> & Hloop).
  set (d0 := dict_set _ did _) in Hloop.
  destruct (dump_fields_dict _ _ _ _ _ _ d0 Hloop) as (d & Hd & _ & Hkeys).
  { cbn [SolrSearchResult.heap]. apply list_lookup_middle. reflexivity. }
  exists d. split; [exact Hd|].
  intros name field Hin. split; [apply is_need_dump_field_false|].
  intros Hpk Hatt. rewrite <- dumped_false.
  cbn [SolrSearchResult.obj] in Hkeys.
  assert (H0 : dict_get name d0 = None).
  { unfold d0. rewrite !dict_get_set. cbn [dict_get].
    destruct (String.eqb (SolrSearchResult.pk_attname _) name) eqn:E1;
      [apply String.eqb_eq in E1; congruence|].
    destruct (String.eqb "pk" name) eqn:E2;
      [apply String.eqb_eq in E2; congruence|reflexivity]. }
  specialize (Hkeys name). rewrite H0 in Hkeys. split.
  - intros Hn. apply not_true_iff_false. intros Hdump.
    destruct Hkeys as [_ Hk]. apply Hk; [|exact Hn].
    right. exists field. split; [exact Hin|exact Hdump].
  - intros Hdump. destruct (dict_get name d) eqn:Hg; [|reflexivity].
    destruct Hkeys as [Hk _].
    destruct Hk as [Hk|(f & _ & Hk)]; [discriminate|congruence|].
    rewrite dumped_set_dict in Hk. congruence.
Qed.

Lemma C1_allowlist_witness :
  exists d,
    SolrSearchResult.deref
      (snd (SolrSearchResult.to_dict "text" (Some sample_index) false
              (fresh (sample_row (Some ["x"]))))) 0 = Some d /\
    dict_get "title" d = None /\ dict_get "x" d <> None.
Proof.
  destruct (C1_allowlist_filtering "text" false sample_index
              (fresh (sample_row (Some ["x"]))) _ 0 eq_refl eq_refl)
    as (d & Hd & Hall).
  exists d. split; [exact Hd|]. split.
  - apply (Hall "title" (SolrSearchResult.SearchField None same None));
      [simpl; auto|discriminate|discriminate|].
    left. exists ["x"]. split; [reflexivity|]. split; [discriminate|].
    simpl. intros [E|[]]. discriminate.
  - intros Hx.
    apply (Hall "x" (SolrSearchResult.NestedField None false
                       [("y", SolrSearchResult.SearchField None same None);
                        ("z", SolrSearchResult.SearchField (Some (VInt 0)) same None)]))
      in Hx; [|simpl; auto|discriminate|discriminate].
    destruct Hx as [(a & [= <-] & _ & Hnin)|[E _]]; [|discriminate].
    apply Hnin. left. reflexivity.
Defined.

(** C1 as stated fails: with an allowlist that is given but empty every
    declared field is emitted, and the allowlist check accepts a name that
    the empty allowlist does not hold. *)
Lemma C1_empty_allowlist_counterexample :
  exists st' d,
    SolrSearchResult._fields (sample_row (Some [])) = Some [] /\
    SolrSearchResult.to_dict "text" (Some sample_index) false
      (fresh (sample_row (Some []))) = (Ok 0, st') /\
    SolrSearchResult.deref st' 0 = Some d /\
    In "title" (map fst (SolrSearchResult.fields sample_index)) /\
    dict_get "title" d = Some (VStr "t") /\
    dict_keys d = ["pk"; "id"; "title"; "x"; "tags"; "rating"] /\
    SolrSearchResult.is_need_dump_field (sample_row (Some [])) "title" = true.
Proof.
  eexists. eexists.
  split; [reflexivity|]. split; [reflexivity|]. split; [reflexivity|].
  split; [simpl; auto|]. split; [reflexivity|]. split; reflexivity.
Qed.

(* ===================================================================== *)
(** * The primary-key entries *)
(* ===================================================================== *)

(** [django_id] converts the last segment of the split identifier. *)
Lemma django_id_last_segment self did :
  SolrSearchResult.django_id self = Ok did ->
  exists init seg,
    split "." (SolrSearchResult.id self) = init ++ [seg] /\
    SolrSearchResult.pk_to_python (SolrSearchResult.model self) seg = Ok did.
Proof.
  unfold SolrSearchResult.django_id. intros H.
  pose proof (split_unpack_last_spec "." (SolrSearchResult.id self)) as Hs.
  destruct (split_unpack_last "." (SolrSearchResult.id self)) as [init seg].
  exists init, seg. split; [exact Hs|exact H].
Qed.

(** C2, as the code has it: on the first projection of a row whose model
    has an index, the returned dict has the key pk and the key named by
    the attribute name of the model's primary key; the first holds the
    row's pk string and the second the type-coerced last segment of the
    identifier split on the dot, unless a declared field of the same name
    has overwritten the entry. *)
Theorem C2_primary_key_entries (DOCUMENT_FIELD : string) (fi : bool)
    (index : SolrSearchResult.Index) (st st' : SolrSearchResult.State)
    (l : nat) :
  let self := SolrSearchResult.obj st in
  let attname := SolrSearchResult.pk_attname (SolrSearchResult.model self) in
  SolrSearchResult._dict self = None ->
  SolrSearchResult.to_dict DOCUMENT_FIELD (Some index) fi st = (Ok l, st') ->
  exists d init seg did,
    SolrSearchResult.deref st' l = Some d /\
    split "." (SolrSearchResult.id self) = init ++ [seg] /\
    SolrSearchResult.pk_to_python (SolrSearchResult.model self) seg = Ok did /\
    In "pk" (dict_keys d) /\
    In attname (dict_keys d) /\
    (~ In "pk" (map fst (SolrSearchResult.fields index)) ->
     attname <> "pk" ->
     dict_get "pk" d = Some (VStr (SolrSearchResult.pk self))) /\
    (~ In attname (map fst (SolrSearchResult.fields index)) ->
     dict_get attname d = Some did).
Proof.
  intros self attname Hnone H.
  destruct (to_dict_first _ _ _ _ _ _ Hnone H) as (did & Hid & -> & Hloop).
  fold self in Hloop. fold attname in Hloop.
  set (d0 := dict_set attname did _) in Hloop.
  destruct (dump_fields_dict _ _ _ _ _ _ d0 Hloop) as (d & Hd & Hother & Hkeys).
  { cbn [SolrSearchResult.heap]. apply list_lookup_middle. reflexivity. }
  destruct (django_id_last_segment _ _ Hid) as (init & seg & Hsplit & Hconv).
  assert (Hundeclared : forall name,
            ~ In name (map fst (SolrSearchResult.fields index)) ->
            dict_get name d = dict_get name d0).
  { intros name Hnot. apply Hother. intros f Hin. exfalso. apply Hnot.
    apply in_map_iff. exists (name, f). split; [reflexivity|exact Hin]. }
  exists d, init, seg, did.
  split; [exact Hd|]. split; [exact Hsplit|]. split; [exact Hconv|].
  split; [|split; [|split]].
  - apply dict_get_keys, Hkeys. left. unfold d0.
    rewrite dict_get_set. destruct (String.eqb attname "pk"); [discriminate|].
    rewrite dict_get_set_eq. discriminate.
  - apply dict_get_keys, Hkeys. left. unfold d0.
    rewrite dict_get_set_eq. discriminate.
  - intros Hnot Hne. rewrite (Hundeclared _ Hnot). unfold d0.
    rewrite dict_get_set_ne by exact Hne. apply dict_get_set_eq.
  - intros Hnot. rewrite (Hundeclared _ Hnot). apply dict_get_set_eq.
Qed.

Lemma C2_primary_key_witness :
  exists d,
    SolrSearchResult.deref
      (snd (SolrSearchResult.to_dict "text" (Some sample_index) false
              (fresh (sample_row None)))) 0 = Some d /\
    dict_get "pk" d = Some (VStr "42") /\
    dict_get "id" d = Some (VInt 42).
Proof.
  destruct (C2_primary_key_entries "text" false sample_index
              (fresh (sample_row None)) _ 0 eq_refl eq_refl)
    as (d & init & seg & did & Hd & Hsplit & Hconv & _ & _ & Hpk & Hid).
  exists d. split; [exact Hd|]. split.
  - apply Hpk; [|discriminate]. simpl. intuition discriminate.
  - transitivity (Some did); [apply Hid; simpl; intuition discriminate|].
    f_equal. apply (f_equal (@List.last string)) in Hsplit.
    apply (f_equal (fun f => f EmptyString)) in Hsplit.
    rewrite List.last_last in Hsplit. vm_compute in Hsplit. subst seg.
    vm_compute in Hconv. congruence.
Defined.

(** C2 as stated fails: for a row whose model has no index the projection
    returns an empty dict, with neither of the two keys. *)
Lemma C2_unhandled_model_counterexample :
  exists st' d,
    SolrSearchResult.to_dict "text" None false (fresh (sample_row None)) =
      (Ok 0, st') /\
    SolrSearchResult.deref st' 0 = Some d /\
    d = [] /\
    dict_get "pk" d = None /\
    dict_get "id" d = None.
Proof.
  eexists. eexists. split; [reflexivity|]. split; [reflexivity|].
  split; [reflexivity|]. split; reflexivity.
Qed.

(* ===================================================================== *)
(** * The cache *)
(* ===================================================================== *)

(** C3, as the code has it: when the first projection of a row whose
    model has an index returns, a second call returns the same dict
    object and leaves the state as it is; the first call allocated that
    one object, stored its address in the row, and touched nothing
    else. *)
Theorem C3_second_call_returns_cached (DOCUMENT_FIELD : string) (fi : bool)
    (index : SolrSearchResult.Index) (st st' : SolrSearchResult.State)
    (l : nat) :
  SolrSearchResult._dict (SolrSearchResult.obj st) = None ->
  SolrSearchResult.to_dict DOCUMENT_FIELD (Some index) fi st = (Ok l, st') ->
  SolrSearchResult.to_dict DOCUMENT_FIELD (Some index) fi st' = (Ok l, st') /\
  SolrSearchResult.obj st' =
    SolrSearchResult.set_dict (SolrSearchResult.obj st) (Some l) /\
  l = length (SolrSearchResult.heap st) /\
  length (SolrSearchResult.heap st') = S (length (SolrSearchResult.heap st)) /\
  forall l', l' < length (SolrSearchResult.heap st) ->
    SolrSearchResult.heap st' !! l' = SolrSearchResult.heap st !! l'.
Proof.
  intros Hnone H.
  destruct (to_dict_first _ _ _ _ _ _ Hnone H) as (did & Hid & -> & Hloop).
  destruct (dump_fields_only_touches _ _ _ _ _ _ _ Hloop) as (Hobj & Hlen & Hrest).
  cbn [SolrSearchResult.heap SolrSearchResult.obj] in Hobj, Hlen, Hrest.
  split; [|split; [exact Hobj|split; [reflexivity|split]]].
  - apply to_dict_cached. rewrite Hobj. reflexivity.
  - rewrite Hlen, length_app. simpl. lia.
  - intros l' Hlt. rewrite Hrest by lia. apply lookup_app_l. exact Hlt.
Qed.

Lemma C3_second_call_witness :
  let st1 := snd (SolrSearchResult.to_dict "text" (Some sample_index) false
                    (fresh (sample_row None))) in
  SolrSearchResult.to_dict "text" (Some sample_index) false st1 = (Ok 0, st1).
Proof.
  exact (proj1 (C3_second_call_returns_cached "text" false sample_index
                  (fresh (sample_row None)) _ 0 eq_refl eq_refl)).
Defined.

(** C3 as stated fails: for a row whose model has no index nothing is
    cached, and the second call returns another dict object than the
    first. *)
Lemma C3_unhandled_model_counterexample :
  exists st1 st2,
    SolrSearchResult.to_dict "text" None false (fresh (sample_row None)) =
      (Ok 0, st1) /\
    SolrSearchResult._dict (SolrSearchResult.obj st1) = None /\
    SolrSearchResult.to_dict "text" None false st1 = (Ok 1, st2) /\
    SolrSearchResult.heap st2 = [[]; []].
Proof.
  eexists. eexists. split; [reflexivity|]. split; [reflexivity|].
  split; reflexivity.
Qed.

(** C10: after a call that returned, a further call with any value of
    [fields_inheritance] returns a dict equal to the one the first call
    returned; when the model has an index it is that very object, and the
    state does not change.  Whatever the first call did, a dict it left
    in the cache is what every later call returns, for any argument. *)
Theorem C10_cache_ignores_fields_inheritance (DOCUMENT_FIELD : string)
    (unified_index : option SolrSearchResult.Index) (fi fi' : bool)
    (st st' : SolrSearchResult.State) (r : Exc nat) :
  SolrSearchResult.to_dict DOCUMENT_FIELD unified_index fi st = (r, st') ->
  (forall l, r = Ok l ->
     exists l2 st2,
       SolrSearchResult.to_dict DOCUMENT_FIELD unified_index fi' st' = (Ok l2, st2) /\
       SolrSearchResult.deref st2 l2 = SolrSearchResult.deref st' l /\
       SolrSearchResult.deref st2 l = SolrSearchResult.deref st' l /\
       (unified_index <> None -> l2 = l /\ st2 = st')) /\
  (forall l0 unified_index',
     SolrSearchResult._dict (SolrSearchResult.obj st') = Some l0 ->
     SolrSearchResult.to_dict DOCUMENT_FIELD unified_index' fi' st' = (Ok l0, st')).
Proof.
  intros H. split; [|intros l0 ui' Hc; apply to_dict_cached; exact Hc].
  intros l ->.
  destruct (SolrSearchResult._dict (SolrSearchResult.obj st)) as [l0|] eqn:Hc.
  - rewrite (to_dict_cached _ _ _ _ _ Hc) in H. injection H as <- <-.
    exists l0, st. rewrite (to_dict_cached _ _ _ _ _ Hc). auto.
  - destruct unified_index as [index|].
    + destruct (to_dict_first _ _ _ _ _ _ Hc H) as (did & _ & -> & Hloop).
      destruct (dump_fields_only_touches _ _ _ _ _ _ _ Hloop) as (Hobj & _).
      cbn [SolrSearchResult.obj] in Hobj.
      exists (length (SolrSearchResult.heap st)), st'. split; [|auto].
      apply to_dict_cached. rewrite Hobj. reflexivity.
    + unfold SolrSearchResult.to_dict in H. rewrite Hc in H.
      cbn [SolrSearchResult.alloc] in H. injection H as <- <-.
      eexists. eexists. split.
      * unfold SolrSearchResult.to_dict. cbn [SolrSearchResult.obj].
        rewrite Hc. reflexivity.
      * unfold SolrSearchResult.deref.
        cbn [SolrSearchResult.heap SolrSearchResult.obj].
        split; [|split; [|congruence]].
        -- rewrite list_lookup_middle by reflexivity.
           rewrite list_lookup_middle by reflexivity. reflexivity.
        -- rewrite lookup_app_l; [reflexivity|].
           rewrite length_app. simpl. lia.
Qed.

Lemma C10_cache_witness :
  let st1 := snd (SolrSearchResult.to_dict "text" (Some sample_index) false
                    (fresh (sample_row (Some ["x"])))) in
  SolrSearchResult.to_dict "text" (Some sample_index) true st1 = (Ok 0, st1) /\
  SolrSearchResult.deref st1 0 =
    Some [("pk", VStr "42"); ("id", VInt 42);
          ("x", VDict [("y", VStr "2024-01-01"); ("z", VInt 0)])] /\
  fst (SolrSearchResult.to_dict "text" (Some sample_index) true
         (fresh (sample_row (Some ["x"])))) = Ok 0 /\
  SolrSearchResult.deref
    (snd (SolrSearchResult.to_dict "text" (Some sample_index) true
            (fresh (sample_row (Some ["x"]))))) 0 =
    Some [("pk", VStr "42"); ("id", VInt 42); ("x", VDict [])].
Proof.
  intros st1.
  destruct (C10_cache_ignores_fields_inheritance "text" (Some sample_index)
              false true (fresh (sample_row (Some ["x"]))) st1 (Ok 0) eq_refl)
    as [Hnext _].
  destruct (Hnext 0 eq_refl) as (l2 & st2 & Hcall & _ & _ & Hsame).
  destruct Hsame as [-> ->]; [discriminate|].
  split; [exact Hcall|]. split; [reflexivity|]. split; reflexivity.
Defined.

(* ===================================================================== *)
(** * Defaults *)
(* ===================================================================== *)

(** The value of a top-level field whose raw value is null and which
    declares a default: the default, converted. *)
Lemma field_value_default self fi field D :
  SolrSearchResult.field_default field = Some D ->
  field_value self fi field VNone = SolrSearchResult.field_convert field D.
Proof.
  destruct field as [dflt conv mf|dflt multi props]; simpl; intros ->;
    reflexivity.
Qed.

(** C6: on the first projection of a row, a declared field that is
    emitted, declares the default D and has a null raw value is given
    the converted default in the returned dict. *)
Theorem C6_default_substitution (DOCUMENT_FIELD : string) (fi : bool)
    (index : SolrSearchResult.Index) (st st' : SolrSearchResult.State)
    (l : nat) (name : string) (field : SolrSearchResult.Field) (D : PyVal) :
  SolrSearchResult._dict (SolrSearchResult.obj st) = None ->
  SolrSearchResult.to_dict DOCUMENT_FIELD (Some index) fi st = (Ok l, st') ->
  List.NoDup (map fst (SolrSearchResult.fields index)) ->
  In (name, field) (SolrSearchResult.fields index) ->
  SolrSearchResult.field_default field = Some D ->
  SolrSearchResult.getattr (SolrSearchResult.obj st) name = VNone ->
  SolrSearchResult.is_need_dump_field (SolrSearchResult.obj st) name = true ->
  name <> DOCUMENT_FIELD ->
  exists d v,
    SolrSearchResult.deref st' l = Some d /\
    SolrSearchResult.field_convert field D = Ok v /\
    dict_get name d = Some v.
Proof.
  intros Hnone H Hnd Hin Hdflt Hraw Hneed Hdoc.
  destruct (to_dict_first _ _ _ _ _ _ Hnone H) as (did & Hid & -> & Hloop).
  set (l := length (SolrSearchResult.heap st)) in *.
  set (st2 := {| SolrSearchResult.heap := _; SolrSearchResult.obj := _ |}) in Hloop.
  destruct (dump_fields_value DOCUMENT_FIELD fi l (SolrSearchResult.fields index)
              st2 st'
              (dict_set (SolrSearchResult.pk_attname
                           (SolrSearchResult.model (SolrSearchResult.obj st)))
                 did (dict_set "pk"
                        (VStr (SolrSearchResult.pk (SolrSearchResult.obj st))) []))
              name field Hnd Hin)
    as (v & d & Hv & Hd & Hget).
  - unfold st2. cbn [SolrSearchResult.obj]. rewrite dumped_set_dict. unfold dumped.
    rewrite Hneed. apply String.eqb_neq in Hdoc. rewrite Hdoc. reflexivity.
  - exact Hloop.
  - unfold st2. cbn [SolrSearchResult.heap]. apply list_lookup_middle. reflexivity.
  - unfold st2 in Hv. cbn [SolrSearchResult.obj] in Hv.
    rewrite field_value_set_dict, getattr_set_dict, Hraw in Hv.
    rewrite (field_value_default _ _ _ _ Hdflt) in Hv.
    exists d, v. split; [exact Hd|]. split; [exact Hv|exact Hget].
Qed.

Lemma C6_default_witness :
  exists d,
    SolrSearchResult.deref
      (snd (SolrSearchResult.to_dict "text" (Some sample_index) false
              (fresh (sample_row None)))) 0 = Some d /\
    dict_get "rating" d = Some (VInt 5) /\
    dict_get "tags" d = Some (VList []).
Proof.
  assert (Hnd : List.NoDup (map fst (SolrSearchResult.fields sample_index))).
  { simpl. repeat constructor; simpl; intuition discriminate. }
  destruct (C6_default_substitution "text" false sample_index
              (fresh (sample_row None)) _ 0 "rating" _ (VInt 5)
              eq_refl eq_refl Hnd
              ltac:(simpl; do 4 right; left; reflexivity)
              eq_refl eq_refl eq_refl ltac:(discriminate))
    as (d & v & Hd & Hv & Hget).
  destruct (C6_default_substitution "text" false sample_index
              (fresh (sample_row None)) _ 0 "tags" _ (VList [])
              eq_refl eq_refl Hnd
              ltac:(simpl; do 3 right; left; reflexivity)
              eq_refl eq_refl eq_refl ltac:(discriminate))
    as (d2 & v2 & Hd2 & Hv2 & Hget2).
  exists d. split; [exact Hd|]. split.
  - rewrite Hget. vm_compute in Hv. injection Hv as <-. reflexivity.
  - rewrite Hd in Hd2. injection Hd2 as <-. rewrite Hget2.
    vm_compute in Hv2. injection Hv2 as <-. reflexivity.
Defined.

(* ===================================================================== *)
(** * Nested values *)
(* ===================================================================== *)

Section Nested_facts.
Import SolrSearchResult.
Variable self : t.
Variable fields_only : bool.

(** [_nested_to_dict] in terms of the two helpers, as the source has it. *)
Lemma _nested_to_dict_eq field nested :
  _nested_to_dict self fields_only field nested =
    match nested with
    | VNone =>
        match field_default field with Some d => Ok d | None => Ok VNone end
    | VList l =>
        ds <-! _multiple_nested_to_dict self fields_only field l;
        Ok (VList (map VDict ds))
    | VDict _ =>
        value <-! _single_nested_to_dict self fields_only field nested;
        match field with
        | NestedField _ true _ => Ok (VList [VDict value])
        | _ => Ok (VDict value)
        end
    | _ => Raise nested_error
    end.
Proof.
  destruct field as [dflt conv mf|dflt multi props];
    destruct nested as [| | | |[|x l]|]; reflexivity.
Qed.

Lemma exc_mapM_length {A B} (f : A -> Exc B) l : forall r,
  exc_mapM f l = Ok r -> length r = length l.
Proof.
  induction l as [|x l IH]; simpl; intros r H.
  - injection H as <-. reflexivity.
  - destruct (f x); simpl in H; [|discriminate].
    destruct (exc_mapM f l) as [ys|]; simpl in H; [|discriminate].
    injection H as <-. simpl. rewrite (IH ys eq_refl). reflexivity.
Qed.

Lemma exc_mapM_raises {A B} (f : A -> Exc B) l e :
  exc_mapM f l = Raise e -> exists x, In x l /\ f x = Raise e.
Proof.
  induction l as [|x l IH]; simpl; intros H; [discriminate|].
  destruct (f x) as [y|e'] eqn:E; simpl in H.
  - destruct (exc_mapM f l) as [ys|e'']; simpl in H; [discriminate|].
    injection H as ->. destruct (IH eq_refl) as (x' & Hin & Hx').
    exists x'. split; [right; exact Hin|exact Hx'].
  - injection H as ->. exists x. split; [left; reflexivity|exact E].
Qed.

Lemma _multiple_nested_to_dict_eq field l :
  _multiple_nested_to_dict self fields_only field l =
    exc_mapM (_single_nested_to_dict self fields_only field) l.
Proof. destruct l; reflexivity. Qed.
End Nested_facts.

(** C5: for a multivalued nested descriptor, a single mapping projects to
    a one-element list holding its projected dict, a list of N values to
    the list of the N projected dicts, and null to the declared default,
    or to null when none is declared. *)
Theorem C5_nested_cardinality (self : SolrSearchResult.t) (fields_only : bool)
    (dflt : option PyVal) (props : list (string * SolrSearchResult.Field))
    (d : PyDict) (l : list PyVal) :
  let field := SolrSearchResult.NestedField dflt true props in
  let single := SolrSearchResult._single_nested_to_dict self fields_only field in
  SolrSearchResult._nested_to_dict self fields_only field (VDict d) =
    (value <-! single (VDict d); Ok (VList [VDict value])) /\
  SolrSearchResult._nested_to_dict self fields_only field (VList l) =
    (ds <-! exc_mapM single l; Ok (VList (map VDict ds))) /\
  match SolrSearchResult._nested_to_dict self fields_only field (VList l) with
  | Ok (VList out) => length out = length l
  | Ok _ => False
  | Raise e => exists x, In x l /\ single x = Raise e
  end /\
  SolrSearchResult._nested_to_dict self fields_only field VNone =
    Ok (match dflt with Some D => D | None => VNone end).
Proof.
  intros field single. rewrite !_nested_to_dict_eq.
  rewrite _multiple_nested_to_dict_eq. fold single.
  split; [reflexivity|]. split; [reflexivity|]. split.
  - destruct (exc_mapM single l) as [ds|e] eqn:E; simpl.
    + rewrite length_map. apply (exc_mapM_length _ _ _ E).
    + apply exc_mapM_raises. exact E.
  - simpl. destruct dflt; reflexivity.
Qed.

(* ===================================================================== *)
(** * The shape of nested values *)
(* ===================================================================== *)

(** Induction on a descriptor tree: a nested descriptor has the property
    when all its children have it. *)
Lemma Field_ind_props (P : SolrSearchResult.Field -> Prop) :
  (forall dflt conv mf, P (SolrSearchResult.SearchField dflt conv mf)) ->
  (forall dflt multi props,
     (forall name f, In (name, f) props -> P f) ->
     P (SolrSearchResult.NestedField dflt multi props)) ->
  forall field, P field.
Proof.
  intros Hs Hn. fix IH 1. intros [dflt conv mf|dflt multi props]; [apply Hs|].
  apply Hn. revert props. fix go 1. intros [|[n f] ps] name f0 Hin.
  - destruct Hin.
  - destruct Hin as [E|Hin].
    + injection E as _ <-. apply IH.
    + exact (go ps name f0 Hin).
Qed.

Lemma quiet_converts_child dflt multi props name f :
  quiet_converts (SolrSearchResult.NestedField dflt multi props) ->
  In (name, f) props -> quiet_converts f.
Proof.
  simpl. induction props as [|[n f'] ps IH]; intros Hq Hin; [destruct Hin|].
  destruct Hq as [Hf Hps]. destruct Hin as [E|Hin].
  - injection E as _ <-. exact Hf.
  - exact (IH Hps Hin).
Qed.

Section Shape_facts.
Import SolrSearchResult.
Variable self : t.
Variable fields_only : bool.

(** A value error out of the loop over the children comes from the
    recursive call on a nested child of a mapping. *)
Lemma single_loop_value_error rec n props : forall acc msg,
  (forall name f, In (name, f) props -> quiet_converts f) ->
  single_loop self fields_only rec n props acc = Raise (ValueError msg) ->
  exists d name dflt multi ps,
    n = VDict d /\
    In (name, NestedField dflt multi ps) props /\
    fields_only && negb (is_need_dump_field self name) = false /\
    rec (NestedField dflt multi ps)
        (match dict_get name d with Some v => v | None => VNone end) =
      Raise (ValueError msg).
Proof.
  induction props as [|[name0 f0] props IH]; intros acc msg Hq H;
    cbn [single_loop] in H; [discriminate|].
  assert (Hq' : forall name f, In (name, f) props -> quiet_converts f).
  { intros name f Hin. apply (Hq name f). right. exact Hin. }
  assert (Hrest : forall acc',
            single_loop self fields_only rec n props acc' = Raise (ValueError msg) ->
            exists d name dflt multi ps,
              n = VDict d /\
              In (name, NestedField dflt multi ps) ((name0, f0) :: props) /\
              fields_only && negb (is_need_dump_field self name) = false /\
              rec (NestedField dflt multi ps)
                  (match dict_get name d with Some v => v | None => VNone end) =
                Raise (ValueError msg)).
  { intros acc' H'. destruct (IH acc' msg Hq' H')
      as (d & name & dflt & multi & ps & Hn & Hin & Hvis & Hrec).
    exists d, name, dflt, multi, ps.
    split; [exact Hn|]. split; [right; exact Hin|]. split; [exact Hvis|exact Hrec]. }
  destruct (fields_only && negb (is_need_dump_field self name0)) eqn:Hvis0;
    [eauto|].
  destruct n as [| | | | |d]; simpl in H; try discriminate.
  destruct f0 as [dflt conv mf|dflt multi ps].
  - destruct (conv _) as [v|e] eqn:Hconv; simpl in H.
    + eauto.
    + injection H as ->. exfalso.
      apply (Hq name0 _ (or_introl eq_refl) _ _ Hconv).
  - destruct (rec _ _) as [v|e] eqn:Hrec; simpl in H.
    + eauto.
    + injection H as ->. exists d, name0, dflt, multi, ps.
      split; [reflexivity|]. split; [left; reflexivity|].
      split; [exact Hvis0|exact Hrec].
Qed.

(** A value of a bad shape is refused at once, whatever the descriptor. *)
Lemma bad_shape_raises field raw :
  bad_shape raw = true ->
  _nested_to_dict self fields_only field raw = Raise nested_error.
Proof.
  intros H. rewrite _nested_to_dict_eq.
  destruct raw; try discriminate; reflexivity.
Qed.

(** A value error out of a projection whose conversions raise none is
    the shape error, and comes from a bad shape met on the way down. *)
Lemma value_error_reaches_bad_shape : forall field raw msg,
  quiet_converts field ->
  _nested_to_dict self fields_only field raw = Raise (ValueError msg) ->
  ValueError msg = nested_error /\
  reaches_bad_shape self fields_only field raw.
Proof.
  induction field as [dflt conv mf|dflt multi props IH] using Field_ind_props;
    intros raw msg Hq H; rewrite _nested_to_dict_eq in H.
  - destruct raw as [| | | |l|d];
      try (injection H as <-; split; [reflexivity|apply rbs_here; reflexivity]).
    + simpl in H. destruct dflt; discriminate.
    + rewrite _multiple_nested_to_dict_eq in H.
      destruct (exc_mapM _ l) as [ds|e] eqn:E; simpl in H; [discriminate|].
      injection H as ->. apply exc_mapM_raises in E as (x & _ & Hx).
      unfold _single_nested_to_dict in Hx.
      destruct (negb (truthy x)); discriminate.
    + unfold _single_nested_to_dict in H.
      destruct (negb (truthy (VDict d))); simpl in H; discriminate.
  - assert (Hsingle : forall x,
              _single_nested_to_dict self fields_only
                (NestedField dflt multi props) x = Raise (ValueError msg) ->
              ValueError msg = nested_error /\
              exists d, x = VDict d /\
                        reaches_bad_shape self fields_only
                          (NestedField dflt multi props) (VDict d)).
    { intros x Hx. unfold _single_nested_to_dict in Hx.
      destruct (negb (truthy x)) eqn:Htruthy; [discriminate|].
      apply single_loop_value_error in Hx
        as (d & name & dflt' & multi' & ps & -> & Hin & Hvis & Hrec).
      - assert (Hq' : quiet_converts (NestedField dflt' multi' ps))
          by (eapply quiet_converts_child; [exact Hq|exact Hin]).
        destruct (IH _ _ Hin _ _ Hq' Hrec) as [Hmsg Hreach].
        split; [exact Hmsg|]. exists d. split; [reflexivity|].
        eapply rbs_child; [|exact Hin|exact Hvis|exact Hreach].
        intros ->. discriminate.
      - intros name f Hin. eapply quiet_converts_child; [exact Hq|exact Hin]. }
    destruct raw as [| | | |l|d];
      try (injection H as <-; split; [reflexivity|apply rbs_here; reflexivity]).
    + simpl in H. destruct dflt; discriminate.
    + rewrite _multiple_nested_to_dict_eq in H.
      destruct (exc_mapM _ l) as [ds|e] eqn:E; simpl in H; [discriminate|].
      injection H as ->. apply exc_mapM_raises in E as (x & Hin & Hx).
      destruct (Hsingle x Hx) as (Hmsg & d & -> & Hreach).
      split; [exact Hmsg|]. eapply rbs_item; [exact Hin|exact Hreach].
    + destruct (_single_nested_to_dict _ _ _ (VDict d)) as [v|e] eqn:E;
        simpl in H.
      * destruct multi; discriminate.
      * injection H as ->. destruct (Hsingle _ E) as (Hmsg & d' & [= <-] & Hreach).
        split; [exact Hmsg|exact Hreach].
Qed.
End Shape_facts.

Section Surfacing.
Import SolrSearchResult.
Variable DOCUMENT_FIELD : string.
Variable fields_inheritance : bool.

(** The loop gets through fields that are skipped or whose value is
    computed without an exception. *)
Lemma dump_fields_all_ok l pre : forall st,
  Forall (fun entry =>
            dumped DOCUMENT_FIELD (obj st) (fst entry) = false \/
            exists v, field_value (obj st) fields_inheritance (snd entry)
                        (getattr (obj st) (fst entry)) = Ok v) pre ->
  exists st1,
    dump_fields DOCUMENT_FIELD fields_inheritance l pre st = (Ok tt, st1) /\
    obj st1 = obj st.
Proof.
  induction pre as [|[name field] pre IH]; intros st Hall; cbn [dump_fields].
  - exists st. split; reflexivity.
  - apply Forall_cons in Hall as [Hhead Htail]. cbn [fst snd] in Hhead.
    rewrite dump_field_cases.
    destruct (dumped DOCUMENT_FIELD (obj st) name) eqn:Hd.
    + destruct Hhead as [Hhead|[v Hv]]; [discriminate|]. rewrite Hv.
      destruct (IH (setitem l name v st) Htail) as (st1 & H1 & Hobj).
      exists st1. split; [exact H1|exact Hobj].
    + destruct (IH st Htail) as (st1 & H1 & Hobj).
      exists st1. split; [exact H1|exact Hobj].
Qed.

(** A nested field whose raw value has a bad shape stops the first
    projection: the fields before it were handled, the exception leaves
    [to_dict], and the fields after it are not looked at. *)
Lemma to_dict_surfaces_shape_error index pre name field post st did :
  is_nested field = true ->
  fields index = pre ++ (name, field) :: post ->
  _dict (obj st) = None ->
  django_id (obj st) = Ok did ->
  Forall (fun entry =>
            dumped DOCUMENT_FIELD (obj st) (fst entry) = false \/
            exists v, field_value (obj st) fields_inheritance (snd entry)
                        (getattr (obj st) (fst entry)) = Ok v) pre ->
  dumped DOCUMENT_FIELD (obj st) name = true ->
  bad_shape (getattr (obj st) name) = true ->
  exists st',
    to_dict DOCUMENT_FIELD (Some index) fields_inheritance st =
      (Raise nested_error, st') /\
    _dict (obj st') = Some (length (heap st)).
Proof.
  intros Hnested Hfields Hnone Hid Hpre Hdump Hbad.
  unfold to_dict. rewrite Hnone, Hid. cbn [alloc heap obj].
  rewrite Hfields, dump_fields_app.
  set (st2 := {| heap := _; obj := _ |}).
  destruct (dump_fields_all_ok (length (heap st)) pre st2) as (st1 & H1 & Hobj).
  { exact Hpre. }
  rewrite H1. cbn [dump_fields]. rewrite dump_field_cases, Hobj.
  unfold st2 at 1 2 3. cbn [obj].
  rewrite dumped_set_dict, Hdump, field_value_set_dict, getattr_set_dict.
  destruct field as [|dflt multi props]; [discriminate|].
  unfold field_value. rewrite (bad_shape_raises _ _ _ _ Hbad).
  exists st1. split; [reflexivity|]. rewrite Hobj. reflexivity.
Qed.

(** The dict that a failed first projection had begun stays in the cache:
    a later call returns it, with no exception. *)
Lemma failed_projection_leaves_cache index pre name field post st did :
  is_nested field = true ->
  fields index = pre ++ (name, field) :: post ->
  _dict (obj st) = None ->
  django_id (obj st) = Ok did ->
  Forall (fun entry =>
            dumped DOCUMENT_FIELD (obj st) (fst entry) = false \/
            exists v, field_value (obj st) fields_inheritance (snd entry)
                        (getattr (obj st) (fst entry)) = Ok v) pre ->
  dumped DOCUMENT_FIELD (obj st) name = true ->
  bad_shape (getattr (obj st) name) = true ->
  exists st',
    to_dict DOCUMENT_FIELD (Some index) fields_inheritance st =
      (Raise nested_error, st') /\
    forall unified_index fi,
      to_dict DOCUMENT_FIELD unified_index fi st' =
        (Ok (length (heap st)), st').
Proof.
  intros Hnested Hfields Hnone Hid Hpre Hdump Hbad.
  destruct (to_dict_surfaces_shape_error _ _ _ _ _ _ _
              Hnested Hfields Hnone Hid Hpre Hdump Hbad) as (st' & H & Hc).
  exists st'. split; [exact H|].
  intros ui fi. unfold to_dict. rewrite Hc. reflexivity.
Qed.
End Surfacing.

(** C4, as the code has it: a nested descriptor refuses a raw value with
    the value error, at once, when the value is neither null, nor a list,
    nor a mapping; null is never refused; the elements of a list are not
    checked.  When no conversion raises a value error, a value error out
    of the projection is this one, and some nested descriptor on the way
    down was handed a value of such a shape.  At the top level the
    exception leaves [to_dict] as soon as the field is reached. *)
Theorem C4_nested_shape_error (self : SolrSearchResult.t) (fields_only : bool)
    (field : SolrSearchResult.Field) (raw : PyVal) :
  (bad_shape raw = true ->
   SolrSearchResult._nested_to_dict self fields_only field raw =
     Raise SolrSearchResult.nested_error) /\
  (raw = VNone ->
   SolrSearchResult._nested_to_dict self fields_only field raw =
     Ok (match SolrSearchResult.field_default field with
         | Some D => D
         | None => VNone
         end)) /\
  (quiet_converts field ->
   forall msg,
     SolrSearchResult._nested_to_dict self fields_only field raw =
       Raise (ValueError msg) ->
     ValueError msg = SolrSearchResult.nested_error /\
     reaches_bad_shape self fields_only field raw) /\
  (forall DOCUMENT_FIELD index pre name post st did,
     is_nested field = true ->
     SolrSearchResult.obj st = self ->
     SolrSearchResult.getattr self name = raw ->
     bad_shape raw = true ->
     SolrSearchResult.fields index = pre ++ (name, field) :: post ->
     SolrSearchResult._dict self = None ->
     SolrSearchResult.django_id self = Ok did ->
     Forall (fun entry =>
               dumped DOCUMENT_FIELD self (fst entry) = false \/
               exists v, field_value self fields_only (snd entry)
                           (SolrSearchResult.getattr self (fst entry)) = Ok v)
            pre ->
     dumped DOCUMENT_FIELD self name = true ->
     exists st',
       SolrSearchResult.to_dict DOCUMENT_FIELD (Some index) fields_only st =
         (Raise SolrSearchResult.nested_error, st')).
Proof.
  split; [apply bad_shape_raises|].
  split.
  { intros ->. rewrite _nested_to_dict_eq.
    destruct (SolrSearchResult.field_default field); reflexivity. }
  split; [intros Hq msg; apply value_error_reaches_bad_shape; exact Hq|].
  intros DOC index pre name post st did Hn <- <- Hbad Hf Hnone Hid Hpre Hd.
  destruct (to_dict_surfaces_shape_error DOC fields_only index pre name field
              post st did Hn Hf Hnone Hid Hpre Hd Hbad) as (st' & H & _).
  exists st'. exact H.
Qed.

Lemma C4_shape_error_witness :
  SolrSearchResult._nested_to_dict sample_bad_row false sample_x_field (VInt 3) =
    Raise SolrSearchResult.nested_error /\
  reaches_bad_shape sample_bad_row false sample_x_field (VInt 3) /\
  exists st',
    SolrSearchResult.to_dict "text" (Some sample_index) false
      (fresh sample_bad_row) = (Raise SolrSearchResult.nested_error, st').
Proof.
  destruct (C4_nested_shape_error sample_bad_row false sample_x_field (VInt 3))
    as (Hbad & _ & Hreach & Hsurface).
  split; [apply Hbad; reflexivity|]. split.
  - apply (Hreach ltac:(simpl; repeat split; intros; discriminate)
             "Nested field value must be dict or list of dict type").
    reflexivity.
  - apply (Hsurface "text" sample_index
             [("text", SolrSearchResult.SearchField None same None);
              ("title", SolrSearchResult.SearchField None same None)]
             "x"
             [("tags", SolrSearchResult.NestedField (Some (VList [])) true
                         [("name", SolrSearchResult.SearchField None same None)]);
              ("rating", SolrSearchResult.SearchField (Some (VInt 5)) same None)]
             (fresh sample_bad_row) (VInt 42));
      try reflexivity.
    constructor; [left; reflexivity|].
    constructor; [right; exists (VStr "t"); reflexivity|].
    constructor.
Defined.

(** C4 as stated fails: a list whose elements are not mappings is not
    refused with the value error.  Falsy elements project to empty dicts;
    a truthy element that is no mapping fails with an attribute error
    when the first child is read from it. *)
Lemma C4_list_elements_unchecked_counterexample :
  spec_shape (VList [VInt 0; VNone]) = false /\
  SolrSearchResult._nested_to_dict (sample_row None) false sample_x_field
    (VList [VInt 0; VNone]) = Ok (VList [VDict []; VDict []]) /\
  spec_shape (VList [VInt 5]) = false /\
  SolrSearchResult._nested_to_dict (sample_row None) false sample_x_field
    (VList [VInt 5]) = Raise (AttributeError "object has no attribute 'get'").
Proof. repeat split; reflexivity. Qed.

(* ===================================================================== *)
(** * Defaults of the children of a nested mapping *)
(* ===================================================================== *)

Section Child_defaults.
Import SolrSearchResult.
Variable self : t.
Variable fields_only : bool.
Variable rec : Field -> PyVal -> Exc PyVal.

Lemma single_loop_untouched n name props : forall acc out,
  untouched_by name props ->
  single_loop self fields_only rec n props acc = Ok out ->
  dict_get name out = dict_get name acc.
Proof.
  induction props as [|[name0 f0] props IH]; intros acc out Hun H;
    cbn [single_loop] in H.
  - injection H as <-. reflexivity.
  - assert (Hun' : untouched_by name props).
    { intros name' f Hin. apply Hun. right. exact Hin. }
    destruct (Hun name0 f0 (or_introl eq_refl)) as [Hne Hpk].
    destruct (fields_only && negb (is_need_dump_field self name0));
      [exact (IH _ _ Hun' H)|].
    destruct (nested_get n name0) as [value|e]; simpl in H; [|discriminate].
    destruct f0 as [dflt conv mf|dflt multi ps].
    + destruct (conv _) as [v|e]; simpl in H; [|discriminate].
      rewrite (IH _ _ Hun' H).
      destruct mf as [m|]; [|apply dict_get_set_ne; exact Hne].
      destruct (primary_key m) eqn:Hm; [|apply dict_get_set_ne; exact Hne].
      rewrite dict_get_set_ne by exact (Hpk dflt conv m eq_refl Hm).
      apply dict_get_set_ne. exact Hne.
    + destruct (rec _ value) as [v|e]; simpl in H; [|discriminate].
      rewrite (IH _ _ Hun' H). apply dict_get_set_ne. exact Hne.
Qed.

(** A plain child that declares the default [D], is visited, and whose
    key is missing from the mapping or null there, gets the converted
    default, provided no later child writes its entry. *)
Lemma single_loop_default d name D conv mf : forall before after acc out,
  untouched_by name after ->
  fields_only && negb (is_need_dump_field self name) = false ->
  dict_get name d = None \/ dict_get name d = Some VNone ->
  single_loop self fields_only rec (VDict d)
    (before ++ (name, SearchField (Some D) conv mf) :: after) acc = Ok out ->
  exists v, conv D = Ok v /\ dict_get name out = Some v.
Proof.
  induction before as [|[name0 f0] before IH]; intros after acc out Hun Hvis Hraw H;
    cbn [app single_loop] in H.
  - rewrite Hvis in H. cbn [nested_get exc_bind] in H.
    replace (match
               match dict_get name d with Some v => v | None => VNone end
             with
             | VNone => D
             | _ => match dict_get name d with Some v => v | None => VNone end
             end) with D in H
      by (destruct Hraw as [-> | ->]; reflexivity).
    destruct (conv D) as [v|e]; simpl in H; [|discriminate].
    exists v. split; [reflexivity|].
    rewrite (single_loop_untouched _ _ _ _ _ Hun H).
    destruct mf as [m|]; [|apply dict_get_set_eq].
    destruct (primary_key m); [|apply dict_get_set_eq].
    rewrite dict_get_set, dict_get_set_eq.
    destruct (String.eqb (mf_name m) name); reflexivity.
  - destruct (fields_only && negb (is_need_dump_field self name0));
      [exact (IH _ _ _ Hun Hvis Hraw H)|].
    cbn [nested_get exc_bind] in H.
    destruct f0 as [dflt0 conv0 mf0|dflt0 multi0 ps0].
    + destruct (conv0 _) as [v0|e]; simpl in H; [|discriminate].
      exact (IH _ _ _ Hun Hvis Hraw H).
    + destruct (rec _ _) as [v0|e]; simpl in H; [|discriminate].
      exact (IH _ _ _ Hun Hvis Hraw H).
Qed.
End Child_defaults.

(** Default substitution below the top level: when a nested descriptor
    projects a non-empty mapping, a plain child that declares the default
    D, is visited, and whose key is missing from the mapping or null
    there, is given the converted D in the projected dict (no later child
    being written under its name).  An empty mapping projects to an empty
    dict, with no defaults. *)
Theorem child_default_substitution (self : SolrSearchResult.t)
    (fields_only : bool) (dflt : option PyVal) (multi : bool)
    (before after : list (string * SolrSearchResult.Field))
    (name : string) (D : PyVal) (conv : PyVal -> Exc PyVal)
    (mf : option SolrSearchResult.ModelField) (d out : PyDict) :
  let field :=
    SolrSearchResult.NestedField dflt multi
      (before ++ (name, SolrSearchResult.SearchField (Some D) conv mf) :: after) in
  d <> [] ->
  untouched_by name after ->
  fields_only && negb (SolrSearchResult.is_need_dump_field self name) = false ->
  dict_get name d = None \/ dict_get name d = Some VNone ->
  SolrSearchResult._single_nested_to_dict self fields_only field (VDict d) = Ok out ->
  (exists v, conv D = Ok v /\ dict_get name out = Some v) /\
  SolrSearchResult._single_nested_to_dict self fields_only field (VDict []) = Ok [].
Proof.
  intros field Hd Hun Hvis Hraw H. split; [|reflexivity].
  unfold SolrSearchResult._single_nested_to_dict, field in H.
  destruct d as [|entry d]; [congruence|]. cbn [truthy negb] in H.
  eapply single_loop_default; eauto.
Qed.

Lemma child_default_witness :
  exists out,
    SolrSearchResult._single_nested_to_dict (sample_row None) false
      sample_x_field (VDict [("y", VStr "2024-01-01")]) = Ok out /\
    dict_get "z" out = Some (VInt 0).
Proof.
  exists [("y", VStr "2024-01-01"); ("z", VInt 0)]. split; [reflexivity|].
  destruct (child_default_substitution (sample_row None) false None false
              [("y", SolrSearchResult.SearchField None same None)] []
              "z" (VInt 0) same None
              [("y", VStr "2024-01-01")]
              [("y", VStr "2024-01-01"); ("z", VInt 0)])
    as [(v & Hv & Hget) _].
  - discriminate.
  - intros name' f [].
  - reflexivity.
  - left. reflexivity.
  - reflexivity.
  - rewrite Hget. injection Hv as <-. reflexivity.
Defined.

(* ===================================================================== *)
(** * The schema builder *)
(* ===================================================================== *)

Section Schema_facts.
Import ProjectSolrSearchBackend.

Lemma build_schema_loop_entries fields : forall content acc,
  snd (build_schema_loop fields content acc) =
    acc ++ map (fun kf => field_schema (snd kf)) fields.
Proof.
  induction fields as [|[k f] fields IH]; intros content acc; simpl.
  - rewrite app_nil_r. reflexivity.
  - rewrite IH, <- app_assoc. reflexivity.
Qed.

Lemma build_schema_loop_content fields : forall content acc,
  (forall kf, In kf fields -> document (snd kf) = false) ->
  fst (build_schema_loop fields content acc) = content.
Proof.
  induction fields as [|[k f] fields IH]; intros content acc Hnone; simpl;
    [reflexivity|].
  pose proof (Hnone (k, f) (or_introl eq_refl)) as Hf. simpl in Hf.
  rewrite Hf. apply IH. intros kf Hin. apply Hnone. right. exact Hin.
Qed.

Lemma build_schema_loop_app fields1 fields2 content acc :
  build_schema_loop (fields1 ++ fields2) content acc =
    let (c, a) := build_schema_loop fields1 content acc in
    build_schema_loop fields2 c a.
Proof.
  revert content acc.
  induction fields1 as [|[k f] fields1 IH]; intros content acc; simpl;
    [reflexivity|apply IH].
Qed.

Lemma map_get_TYPE_MAP ft t :
  map_get ft TYPE_MAP = Some t -> t = "pdate" \/ t = "plong".
Proof.
  unfold TYPE_MAP. simpl.
  destruct (String.eqb ft "date"); [intros [= <-]; auto|].
  destruct (String.eqb ft "datetime"); [intros [= <-]; auto|].
  destruct (String.eqb ft "integer"); [intros [= <-]; auto|discriminate].
Qed.

Lemma map_get_TYPE_MAP_None ft :
  map_get ft TYPE_MAP = None ->
  ft <> "date" /\ ft <> "datetime" /\ ft <> "integer".
Proof.
  unfold TYPE_MAP. simpl.
  destruct (String.eqb ft "date") eqn:E1; [discriminate|].
  destruct (String.eqb ft "datetime") eqn:E2; [discriminate|].
  destruct (String.eqb ft "integer") eqn:E3; [discriminate|].
  intros _. apply String.eqb_neq in E1, E2, E3. auto.
Qed.

(** The entry of a field class, by cases on its type. *)
Lemma field_schema_shape f :
  exists t,
    field_schema f =
      [("field_name", VStr (index_fieldname f));
       ("type", VStr t);
       ("indexed", VStr (if indexed f then "true" else "false"));
       ("stored", VStr (if stored f then "true" else "false"));
       ("multi_valued", VStr (if is_multivalued f then "true" else "false"))] /\
    t = match map_get (field_type f) TYPE_MAP with
        | Some mapped => mapped
        | None =>
            if String.eqb (field_type f) "text_en" &&
               (negb (indexed f) || has_facet_for f)
            then "string" else field_type f
        end.
Proof.
  unfold field_schema.
  destruct (map_get (field_type f) TYPE_MAP) as [mapped|] eqn:Hmap.
  - assert (Hne : String.eqb mapped "text_en" = false).
    { destruct (map_get_TYPE_MAP _ _ Hmap) as [-> | ->]; reflexivity. }
    exists mapped. split; [|reflexivity].
    destruct (is_multivalued f), (stored f), (indexed f), (has_facet_for f);
      unfold type_is; simpl; rewrite ?Hne; simpl; rewrite ?Hne; reflexivity.
  - eexists. split; [|reflexivity].
    destruct (is_multivalued f), (stored f), (indexed f), (has_facet_for f);
      unfold type_is; simpl;
      destruct (String.eqb (field_type f) "text_en") eqn:E;
      simpl; rewrite ?E; reflexivity.
Qed.
End Schema_facts.

(** The schema has one entry per field, in the order of the fields, and
    each entry is named by the index name of its field. *)
Theorem build_schema_one_entry_per_field
    (fields : list (string * ProjectSolrSearchBackend.FieldClass)) :
  map (dict_get "field_name") (snd (ProjectSolrSearchBackend.build_schema fields)) =
    map (fun kf => Some (VStr (ProjectSolrSearchBackend.index_fieldname (snd kf))))
        fields.
Proof.
  unfold ProjectSolrSearchBackend.build_schema.
  rewrite build_schema_loop_entries. simpl. rewrite map_map.
  apply map_ext. intros [k f]. simpl.
  destruct (field_schema_shape f) as (t & -> & _). reflexivity.
Qed.

(** Every entry of the schema has the five keys, with flags that are the
    strings true or false, and a type that is never one of the mapped
    names date, datetime, integer; a field that is not indexed never has
    the type text_en. *)
Theorem build_schema_entry_shape
    (fields : list (string * ProjectSolrSearchBackend.FieldClass))
    (entry : PyDict) :
  In entry (snd (ProjectSolrSearchBackend.build_schema fields)) ->
  exists name t i s m,
    entry = [("field_name", VStr name); ("type", VStr t);
             ("indexed", VStr i); ("stored", VStr s);
             ("multi_valued", VStr m)] /\
    t <> "date" /\ t <> "datetime" /\ t <> "integer" /\
    In i ["true"; "false"] /\ In s ["true"; "false"] /\
    In m ["true"; "false"] /\
    (i = "false" -> t <> "text_en").
Proof.
  unfold ProjectSolrSearchBackend.build_schema.
  rewrite build_schema_loop_entries. simpl.
  intros Hin. apply in_map_iff in Hin as ([k f] & <- & _). simpl.
  destruct (field_schema_shape f) as (t & -> & Ht).
  do 5 eexists. split; [reflexivity|].
  assert (Hflag : forall b : bool,
            In (if b then "true" else "false") ["true"; "false"]).
  { intros []; simpl; auto. }
  assert (Htype : t <> "date" /\ t <> "datetime" /\ t <> "integer" /\
                  (ProjectSolrSearchBackend.indexed f = false -> t <> "text_en")).
  { destruct (ProjectSolrSearchBackend.map_get _ _) as [mapped|] eqn:Hmap.
    - subst t. destruct (map_get_TYPE_MAP _ _ Hmap) as [-> | ->];
        repeat split; try discriminate; intros _; discriminate.
    - destruct (map_get_TYPE_MAP_None _ Hmap) as (H1 & H2 & H3).
      destruct (String.eqb _ "text_en") eqn:E; simpl in Ht.
      + destruct (negb _ || _) eqn:E'; subst t.
        * repeat split; try discriminate; intros _; discriminate.
        * repeat split; auto. intros Hi. rewrite Hi in E'. discriminate.
      + subst t. apply String.eqb_neq in E. repeat split; auto. }
  destruct Htype as (H1 & H2 & H3 & H4).
  split; [exact H1|]. split; [exact H2|]. split; [exact H3|].
  split; [apply Hflag|]. split; [apply Hflag|]. split; [apply Hflag|].
  intros Hi. apply H4.
  destruct (ProjectSolrSearchBackend.indexed f); [discriminate|reflexivity].
Qed.

(** The content field name is the index name of the last field class
    marked as document, and the empty string when none is. *)
Theorem build_schema_content_field
    (before after : list (string * ProjectSolrSearchBackend.FieldClass))
    (key : string) (f : ProjectSolrSearchBackend.FieldClass) :
  ProjectSolrSearchBackend.document f = true ->
  (forall kf, In kf after ->
     ProjectSolrSearchBackend.document (snd kf) = false) ->
  fst (ProjectSolrSearchBackend.build_schema (before ++ (key, f) :: after)) =
    ProjectSolrSearchBackend.index_fieldname f /\
  fst (ProjectSolrSearchBackend.build_schema after) = EmptyString.
Proof.
  intros Hdoc Hafter. unfold ProjectSolrSearchBackend.build_schema.
  split; [|apply build_schema_loop_content; exact Hafter].
  rewrite build_schema_loop_app.
  destruct (ProjectSolrSearchBackend.build_schema_loop before _ _) as [c a].
  simpl. rewrite Hdoc. apply build_schema_loop_content. exact Hafter.
Qed.

Lemma build_schema_entry_shape_witness :
  exists name t i s m,
    [("field_name", VStr "note"); ("type", VStr "string");
     ("indexed", VStr "false"); ("stored", VStr "true");
     ("multi_valued", VStr "false")] =
    [("field_name", VStr name); ("type", VStr t);
     ("indexed", VStr i); ("stored", VStr s); ("multi_valued", VStr m)] /\
    t <> "text_en".
Proof.
  destruct (build_schema_entry_shape sample_schema_fields
              [("field_name", VStr "note"); ("type", VStr "string");
               ("indexed", VStr "false"); ("stored", VStr "true");
               ("multi_valued", VStr "false")])
    as (name & t & i & s & m & Heq & _ & _ & _ & _ & _ & _ & Hidx).
  - simpl. right. left. reflexivity.
  - exists name, t, i, s, m. split; [exact Heq|].
    apply Hidx. injection Heq as _ _ <- _ _. reflexivity.
Defined.

Lemma build_schema_content_field_witness :
  fst (ProjectSolrSearchBackend.build_schema sample_schema_fields) = "text".
Proof.
  refine (proj1 (build_schema_content_field []
                   [("note", sample_note_class); ("created", sample_created_class)]
                   "text" sample_text_class eq_refl _)).
  intros kf [<-|[<-|[]]]; reflexivity.
Defined.

(** The type written for a field: date and datetime become pdate and
    integer becomes plong; text_en becomes string when the field is not
    indexed or is a facet; any other type is kept. *)
Theorem build_schema_type_of_field
    (fields : list (string * ProjectSolrSearchBackend.FieldClass))
    (key : string) (f : ProjectSolrSearchBackend.FieldClass) :
  In (key, f) fields ->
  exists entry,
    In entry (snd (ProjectSolrSearchBackend.build_schema fields)) /\
    dict_get "field_name" entry =
      Some (VStr (ProjectSolrSearchBackend.index_fieldname f)) /\
    dict_get "type" entry =
      Some (VStr
        (let ft := ProjectSolrSearchBackend.field_type f in
         if String.eqb ft "date" || String.eqb ft "datetime" then "pdate"
         else if String.eqb ft "integer" then "plong"
         else if String.eqb ft "text_en" &&
                 (negb (ProjectSolrSearchBackend.indexed f) ||
                  ProjectSolrSearchBackend.has_facet_for f)
              then "string"
              else ft)).
Proof.
  intros Hin. exists (ProjectSolrSearchBackend.field_schema f). split.
  - unfold ProjectSolrSearchBackend.build_schema.
    rewrite build_schema_loop_entries. simpl.
    apply in_map_iff. exists (key, f). split; [reflexivity|exact Hin].
  - destruct (field_schema_shape f) as (t & -> & ->).
    split; [reflexivity|]. simpl.
    destruct (String.eqb _ "date"); [reflexivity|].
    destruct (String.eqb _ "datetime"); [reflexivity|].
    destruct (String.eqb _ "integer"); reflexivity.
Qed.

Lemma build_schema_type_of_field_witness :
  exists entry,
    In entry (snd (ProjectSolrSearchBackend.build_schema sample_schema_fields)) /\
    dict_get "field_name" entry = Some (VStr "created") /\
    dict_get "type" entry = Some (VStr "pdate").
Proof.
  refine (build_schema_type_of_field sample_schema_fields "created"
            sample_created_class _).
  simpl. right. right. left. reflexivity.
Defined.

(* ===================================================================== *)
(** * From the query set to the projected row *)
(* ===================================================================== *)

Lemma is_need_dump_field_set_fields result names name :
  SolrSearchResult.is_need_dump_field
    (SolrSearchQuerySet.set_fields result names) name = true <->
  names = [] \/ In name names.
Proof.
  unfold SolrSearchResult.is_need_dump_field, SolrSearchQuerySet.set_fields.
  cbn [SolrSearchResult._fields].
  destruct names as [|f fs].
  - split; auto.
  - rewrite existsb_exists. split.
    + intros (x & Hin & Hx). apply String.eqb_eq in Hx. subst x. right. exact Hin.
    + intros [H|Hin]; [discriminate|].
      exists name. split; [exact Hin|apply String.eqb_refl].
Qed.

Lemma dumped_true DOCUMENT_FIELD self name :
  dumped DOCUMENT_FIELD self name = true <->
  SolrSearchResult.is_need_dump_field self name = true /\
  (name = DOCUMENT_FIELD ->
   truthy (SolrSearchResult.getattr self name) = true).
Proof.
  unfold dumped. rewrite andb_true_iff, negb_true_iff, andb_false_iff,
    negb_false_iff, String.eqb_neq.
  split; intros [Hneed Hdoc]; (split; [exact Hneed|]).
  - intros ->. destruct Hdoc as [Hdoc|Hdoc]; [congruence|exact Hdoc].
  - destruct (string_dec name DOCUMENT_FIELD) as [E|E]; [right; auto|left; exact E].
Qed.

(** After [fields(names)], a row handed out by [post_process_results]
    projects, on its first projection, to a dict whose keys are pk, the
    attribute name of the primary key, and the declared fields that are
    among [names] (every declared field when [names] is empty), less the
    document body field when its value is empty. *)
Theorem fields_then_to_dict_keys (DOCUMENT_FIELD : string) (fi : bool)
    (index : SolrSearchResult.Index) (qs : SolrSearchQuerySet.t)
    (names : list string) (super_results : list SolrSearchResult.t)
    (r : SolrSearchResult.t) (hp : list PyDict) (l : nat)
    (st' : SolrSearchResult.State) :
  In r (SolrSearchQuerySet.post_process_results
          (SolrSearchQuerySet.fields qs names) super_results) ->
  SolrSearchResult._dict r = None ->
  SolrSearchResult.to_dict DOCUMENT_FIELD (Some index) fi
    {| SolrSearchResult.heap := hp; SolrSearchResult.obj := r |} = (Ok l, st') ->
  exists d,
    SolrSearchResult.deref st' l = Some d /\
    forall name,
      In name (dict_keys d) <->
      name = "pk" \/
      name = SolrSearchResult.pk_attname (SolrSearchResult.model r) \/
      exists field,
        In (name, field) (SolrSearchResult.fields index) /\
        (names = [] \/ In name names) /\
        (name = DOCUMENT_FIELD ->
         truthy (SolrSearchResult.getattr r name) = true).
Proof.
  intros Hin Hnone H.
  apply in_map_iff in Hin as (r0 & <- & _).
  cbn [SolrSearchQuerySet._fields SolrSearchQuerySet.fields] in *.
  set (r := SolrSearchQuerySet.set_fields r0 names) in *.
  destruct (to_dict_first DOCUMENT_FIELD fi index
              {| SolrSearchResult.heap := hp; SolrSearchResult.obj := r |}
              l st' Hnone H) as (did & Hid & -> & Hloop).
  cbn [SolrSearchResult.heap SolrSearchResult.obj] in Hloop.
  set (d0 := dict_set _ did _) in Hloop.
  destruct (dump_fields_dict _ _ _ _ _ _ d0 Hloop) as (d & Hd & _ & Hkeys).
  { cbn [SolrSearchResult.heap]. apply list_lookup_middle. reflexivity. }
  exists d. split; [exact Hd|].
  intros name. rewrite <- dict_get_keys, Hkeys.
  cbn [SolrSearchResult.obj]. unfold d0. rewrite !dict_get_set. cbn [dict_get].
  split.
  - intros [H0|(field & Hf & Hdump)].
    + destruct (String.eqb (SolrSearchResult.pk_attname _) name) eqn:E1.
      * apply String.eqb_eq in E1. auto.
      * destruct (String.eqb "pk" name) eqn:E2; [|congruence].
        apply String.eqb_eq in E2. auto.
    + right. right. exists field. split; [exact Hf|].
      rewrite dumped_set_dict in Hdump. apply dumped_true in Hdump as [Hn Hdoc].
      apply is_need_dump_field_set_fields in Hn. split; [exact Hn|exact Hdoc].
  - intros [->|[->|(field & Hf & Hn & Hdoc)]].
    + left. destruct (String.eqb _ "pk"); discriminate.
    + left. rewrite String.eqb_refl. discriminate.
    + right. exists field. split; [exact Hf|].
      rewrite dumped_set_dict. apply dumped_true. split; [|exact Hdoc].
      apply is_need_dump_field_set_fields. exact Hn.
Qed.

Lemma fields_then_to_dict_keys_witness :
  exists d,
    SolrSearchResult.deref
      (snd (SolrSearchResult.to_dict "text" (Some sample_index) false
              (fresh (SolrSearchQuerySet.set_fields (sample_row None) ["x"; "rating"]))))
      0 = Some d /\
    In "rating" (dict_keys d) /\ ~ In "title" (dict_keys d).
Proof.
  destruct (fields_then_to_dict_keys "text" false sample_index
              (SolrSearchQuerySet.__init__ []) ["x"; "rating"]
              [sample_row None]
              (SolrSearchQuerySet.set_fields (sample_row None) ["x"; "rating"])
              [] 0 _ (or_introl eq_refl) eq_refl eq_refl)
    as (d & Hd & Hkeys).
  exists d. split; [exact Hd|]. split.
  - apply Hkeys. right. right.
    exists (SolrSearchResult.SearchField (Some (VInt 5)) same None).
    split; [simpl; auto 10|]. split; [right; simpl; auto|discriminate].
  - intros Hin. apply Hkeys in Hin as [E|[E|(f & _ & [E|Hn] & _)]];
      try discriminate.
    simpl in Hn. destruct Hn as [E|[E|[]]]; discriminate.
Defined.

(** With names to restrict to, [_fill_cache] asks for the internal
    fields and the names, each once and nothing else; with no name it
    leaves the field list of the query as it is. *)
Theorem fill_cache_query_fields (qs : SolrSearchQuerySet.t)
    (names : list string) :
  let qs' := SolrSearchQuerySet._fill_cache (SolrSearchQuerySet.fields qs names) in
  (names = [] ->
   SolrSearchQuerySet.query_fields qs' = SolrSearchQuerySet.query_fields qs) /\
  (names <> [] ->
   List.NoDup (SolrSearchQuerySet.query_fields qs') /\
   forall name,
     In name (SolrSearchQuerySet.query_fields qs') <->
     In name (SolrSearchQuerySet._internal_fields qs) \/ In name names).
Proof.
  intros qs'. split.
  - intros ->. reflexivity.
  - intros Hne. destruct names as [|n names]; [congruence|].
    unfold qs', SolrSearchQuerySet._fill_cache, SolrSearchQuerySet.list_of_union.
    simpl SolrSearchQuerySet.query_fields. split.
    + apply List.NoDup_nodup.
    + intros name. rewrite nodup_In, in_app_iff. reflexivity.
Qed.

Lemma fill_cache_query_fields_witness :
  List.NoDup
    (SolrSearchQuerySet.query_fields
       (SolrSearchQuerySet._fill_cache
          (SolrSearchQuerySet.fields (SolrSearchQuerySet.__init__ []) ["x"]))) /\
  In "x"
    (SolrSearchQuerySet.query_fields
       (SolrSearchQuerySet._fill_cache
          (SolrSearchQuerySet.fields (SolrSearchQuerySet.__init__ []) ["x"]))).
Proof.
  destruct (proj2 (fill_cache_query_fields (SolrSearchQuerySet.__init__ []) ["x"])
              ltac:(discriminate)) as [Hnd Hin].
  split; [exact Hnd|]. apply Hin. right. left. reflexivity.
Defined.

(* ===================================================================== *)
(** * Nested filters built by the query set *)
(* ===================================================================== *)

(** The split of a dotted path made of segments that hold no dot. *)
Lemma split_unpack_last_concat (items : list string) (key : string) :
  Forall (fun s => has_char "." s = false) items ->
  has_char "." key = false ->
  split_unpack_last "." (String.concat "." (items ++ [key])) = (items, key).
Proof.
  intros Hitems Hkey. unfold split_unpack_last.
  assert (Hall : Forall (fun s => has_char "." s = false) (items ++ [key])).
  { apply Forall_app. split; [exact Hitems|].
    constructor; [exact Hkey|constructor]. }
  destruct (items ++ [key]) as [|x xs] eqn:E;
    [destruct items; discriminate|].
  apply Forall_cons in Hall as [Hx Hxs].
  rewrite (split1_concat "." xs x Hx Hxs).
  apply unpack_last_snoc. exact E.
Qed.

(** The pair with the least name comes first in the sorted list. *)
Lemma ltb_leb a b : String.ltb a b = true -> String.leb a b = true.
Proof.
  unfold String.ltb, String.leb.
  destruct (String.compare a b); intros H; first [reflexivity|discriminate H].
Qed.

Lemma ltb_not_leb a b : String.ltb a b = true -> String.leb b a = false.
Proof.
  unfold String.ltb, String.leb. rewrite (String.compare_antisym a b).
  destruct (String.compare b a); simpl; intros H;
    first [reflexivity|discriminate H].
Qed.

Lemma insert_sorted_Forall (P : string * PyVal -> Prop) item : forall items,
  P item -> Forall P items -> Forall P (insert_sorted item items).
Proof.
  induction items as [|item' rest IH]; intros Hitem Hitems; simpl.
  - constructor; [exact Hitem|constructor].
  - destruct (String.leb (fst item) (fst item')).
    + constructor; [exact Hitem|exact Hitems].
    + apply Forall_cons in Hitems as [H' Hrest].
      constructor; [exact H'|exact (IH Hitem Hrest)].
Qed.

Lemma sorted_Forall (P : string * PyVal -> Prop) : forall items,
  Forall P items -> Forall P (sorted items).
Proof.
  induction items as [|item rest IH]; intros H; [constructor|].
  apply Forall_cons in H as [Hitem Hrest]. simpl.
  apply insert_sorted_Forall; [exact Hitem|exact (IH Hrest)].
Qed.

Lemma insert_sorted_least name v items :
  Forall (fun item => String.ltb name (fst item) = true) items ->
  insert_sorted (name, v) items = (name, v) :: items.
Proof.
  destruct items as [|item rest]; [reflexivity|]. intros H.
  apply Forall_cons in H as [Hitem _]. simpl.
  rewrite (ltb_leb _ _ Hitem). reflexivity.
Qed.

Lemma sorted_least name v : forall before after,
  Forall (fun item => String.ltb name (fst item) = true) (before ++ after) ->
  sorted (before ++ (name, v) :: after) = (name, v) :: sorted (before ++ after).
Proof.
  induction before as [|item before IH]; intros after H.
  - simpl. apply insert_sorted_least. apply sorted_Forall. exact H.
  - simpl in H. apply Forall_cons in H as [Hitem Hrest].
    change (sorted ((item :: before) ++ (name, v) :: after))
      with (insert_sorted item (sorted (before ++ (name, v) :: after))).
    rewrite (IH after Hrest). simpl.
    rewrite (ltb_not_leb _ _ Hitem). reflexivity.
Qed.

(** The constructor looks at the first child only, the keyword argument
    with the least name. *)
Lemma init_parsed_least full_path v v' before after :
  Forall (fun item => String.ltb full_path (fst item) = true) (before ++ after) ->
  scalar_value v = Ok v' ->
  exists sq,
    ParentSQ.__init__ (before ++ (full_path, v) :: after) = Ok sq /\
    ParentSQ.children sq = (full_path, v) :: sorted (before ++ after) /\
    ParentSQ._key sq = ParentSQ.Filled (snd (split_unpack_last "." full_path)) /\
    ParentSQ._path sq =
      ParentSQ.Filled ("/" +:+ String.concat "/" (fst (split_unpack_last "." full_path))) /\
    ParentSQ._value sq = ParentSQ.Filled v'.
Proof.
  intros Hleast Hv. unfold ParentSQ.__init__.
  rewrite (sorted_least full_path v before after Hleast).
  unfold ParentSQ._parse_args.
  cbn [ParentSQ.children ParentSQ.nonempty ParentSQ.connector].
  destruct (split_unpack_last "." full_path) as [path_items key] eqn:Hs.
  destruct v; simpl in Hv; try (injection Hv as <-);
    try (eexists; repeat split; reflexivity).
  destruct (join " " l) as [s|e]; simpl in Hv; [|discriminate].
  injection Hv as <-. eexists; repeat split; reflexivity.
Qed.

Lemma init_ok_scalar full_path v sq :
  ParentSQ.__init__ [(full_path, v)] = Ok sq ->
  exists v', scalar_value v = Ok v'.
Proof.
  destruct (scalar_value v) as [v'|e] eqn:Hv; [eauto|].
  rewrite (init_join_fails _ _ _ Hv). discriminate.
Qed.

(** Of the keyword arguments only the one with the least name is used,
    the first child of the node: whatever the order in which they are
    passed, and whatever the other arguments hold, the constructor
    stores the key, path and value it stores for that argument alone,
    and the fragment is the same. *)
Theorem only_first_child_is_used (py_str : PyVal -> string)
    (full_path : string) (v : PyVal) (before after : list (string * PyVal))
    (sq : ParentSQ.t) :
  Forall (fun item => String.ltb full_path (fst item) = true) (before ++ after) ->
  ParentSQ.__init__ [(full_path, v)] = Ok sq ->
  exists sq' frag,
    ParentSQ.__init__ (before ++ (full_path, v) :: after) = Ok sq' /\
    ParentSQ.children sq' = (full_path, v) :: sorted (before ++ after) /\
    ParentSQ._key sq' = ParentSQ._key sq /\
    ParentSQ._path sq' = ParentSQ._path sq /\
    ParentSQ._value sq' = ParentSQ._value sq /\
    ParentSQ.as_query_string py_str sq = Ok (frag, sq) /\
    ParentSQ.as_query_string py_str sq' = Ok (frag, sq').
Proof.
  intros Hleast Hinit.
  destruct (init_ok_scalar _ _ _ Hinit) as [v' Hv].
  destruct (init_parsed full_path v v' Hv) as (sq0 & H0 & Hk & Hp & Hval).
  rewrite Hinit in H0. injection H0 as <-.
  destruct (init_parsed_least full_path v v' before after Hleast Hv)
    as (sq' & H' & Hc' & Hk' & Hp' & Hval').
  exists sq'. eexists.
  split; [exact H'|]. split; [exact Hc'|].
  split; [congruence|]. split; [congruence|]. split; [congruence|].
  split.
  - apply (as_query_string_parsed py_str sq _ _ _ Hp Hk Hval).
  - apply (as_query_string_parsed py_str sq' _ _ _ Hp' Hk' Hval').
Qed.

Lemma only_first_child_witness :
  exists sq',
    ParentSQ.__init__ [("b.c", VStr "x"); ("a.d", VStr "y")] = Ok sq' /\
    ParentSQ.as_query_string (fun _ => EmptyString) sq' =
      Ok (with_term "/a" "d" "y", sq').
Proof.
  destruct (init_parsed "a.d" (VStr "y") (VStr "y") eq_refl)
    as (sq & Hinit & _).
  destruct (only_first_child_is_used (fun _ => EmptyString) "a.d" (VStr "y")
              [("b.c", VStr "x")] [] sq
              ltac:(repeat constructor) Hinit)
    as (sq' & frag & H' & _ & Hk & Hp & Hv & Hfrag & Hfrag').
  exists sq'. split; [exact H'|].
  rewrite Hfrag'. f_equal. f_equal.
  assert (Hsq : sq = {| ParentSQ.children := [("a.d", VStr "y")];
                        ParentSQ.connector := "AND";
                        ParentSQ._full_path := ParentSQ.Filled "a.d";
                        ParentSQ._path := ParentSQ.Filled "/a";
                        ParentSQ._value := ParentSQ.Filled (VStr "y");
                        ParentSQ._key := ParentSQ.Filled "d" |}).
  { vm_compute in Hinit. injection Hinit as <-. reflexivity. }
  rewrite Hsq in Hfrag. vm_compute in Hfrag. injection Hfrag as <-.
  vm_compute. reflexivity.
Defined.

(** [nested_exists] on a path of two or more segments tests for nested
    documents at the path without its last segment: the last segment is
    taken for a field name and, there being no value, is not used. *)
Theorem nested_exists_ignores_last_segment (py_str : PyVal -> string)
    (narrow : SolrSearchQuerySet.t -> ParentSQ.t -> SolrSearchQuerySet.t)
    (self : SolrSearchQuerySet.t) (items : list string) (key : string) :
  Forall (fun s => has_char "." s = false) items ->
  has_char "." key = false ->
  String.concat "/" items <> EmptyString ->
  exists sq,
    SolrSearchQuerySet.nested_exists narrow self
      (String.concat "." (items ++ [key])) = Ok (narrow self sq) /\
    ParentSQ.as_query_string py_str sq =
      Ok (existence_only ("/" +:+ String.concat "/" items), sq).
Proof.
  intros Hitems Hkey Hne.
  destruct (init_parsed (String.concat "." (items ++ [key])) VNone VNone
              eq_refl) as (sq & Hinit & Hk & Hp & Hval).
  rewrite (split_unpack_last_concat _ _ Hitems Hkey) in Hk, Hp.
  cbn [fst snd] in Hk, Hp.
  exists sq. split.
  - unfold SolrSearchQuerySet.nested_exists. rewrite Hinit. reflexivity.
  - rewrite (as_query_string_parsed py_str sq _ _ _ Hp Hk Hval).
    cbn [truthy]. unfold effective_nest_path.
    destruct (String.concat "/" items) as [|c j] eqn:E; [congruence|].
    reflexivity.
Qed.

Lemma nested_exists_ignores_last_segment_witness :
  exists sq,
    SolrSearchQuerySet.nested_exists (fun qs _ => qs)
      (SolrSearchQuerySet.__init__ []) "orders.items" =
      Ok (SolrSearchQuerySet.__init__ []) /\
    ParentSQ.as_query_string (fun _ => EmptyString) sq =
      Ok (existence_only "/orders", sq).
Proof.
  destruct (nested_exists_ignores_last_segment (fun _ => EmptyString)
              (fun qs _ => qs) (SolrSearchQuerySet.__init__ [])
              ["orders"] "items")
    as (sq & Hcall & Hfrag).
  - repeat constructor.
  - reflexivity.
  - discriminate.
  - exists sq. split; [exact Hcall|exact Hfrag].
Defined.

(* ===================================================================== *)
(** * The allowlist below the top level *)
(* ===================================================================== *)

Lemma dict_keys_set k k' v d :
  In k (dict_keys (dict_set k' v d)) <-> k = k' \/ In k (dict_keys d).
Proof.
  rewrite <- !dict_get_keys, dict_get_set.
  destruct (String.eqb k' k) eqn:E.
  - apply String.eqb_eq in E. subst. split; [auto|discriminate].
  - apply String.eqb_neq in E. split; [auto|].
    intros [H|H]; [congruence|exact H].
Qed.

Section Inheritance_facts.
Import SolrSearchResult.

(** The keys the loop over the children adds: the names of the children
    it visits, and the model field names of the visited children that
    are primary keys. *)
Lemma single_loop_keys self fields_only rec n props : forall acc out k,
  single_loop self fields_only rec n props acc = Ok out ->
  In k (dict_keys out) ->
  In k (dict_keys acc) \/
  exists name f,
    In (name, f) props /\
    fields_only && negb (is_need_dump_field self name) = false /\
    (k = name \/
     exists dflt conv m,
       f = SearchField dflt conv (Some m) /\ primary_key m = true /\
       k = mf_name m).
Proof.
  induction props as [|[name0 f0] props IH]; intros acc out k H Hk;
    cbn [single_loop] in H.
  - injection H as <-. left. exact Hk.
  - assert (Hlater : forall acc',
              single_loop self fields_only rec n props acc' = Ok out ->
              In k (dict_keys acc') \/
              exists name f,
                In (name, f) ((name0, f0) :: props) /\
                fields_only && negb (is_need_dump_field self name) = false /\
                (k = name \/
                 exists dflt conv m,
                   f = SearchField dflt conv (Some m) /\ primary_key m = true /\
                   k = mf_name m)).
    { intros acc' H'. destruct (IH acc' out k H' Hk)
        as [Hacc|(name & f & Hin & Hvis & Hkey)]; [left; exact Hacc|].
      right. exists name, f. split; [right; exact Hin|]. split; assumption. }
    destruct (fields_only && negb (is_need_dump_field self name0)) eqn:Hvis;
      [apply Hlater; exact H|].
    destruct (nested_get n name0) as [value|e]; simpl in H; [|discriminate].
    assert (Hhere : forall key' : string,
              key' = name0 \/
              (exists dflt conv m,
                 f0 = SearchField dflt conv (Some m) /\ primary_key m = true /\
                 key' = mf_name m) ->
              k = key' ->
              exists name f,
                In (name, f) ((name0, f0) :: props) /\
                fields_only && negb (is_need_dump_field self name) = false /\
                (k = name \/
                 exists dflt conv m,
                   f = SearchField dflt conv (Some m) /\ primary_key m = true /\
                   k = mf_name m)).
    { intros key' Hkey' ->. exists name0, f0.
      split; [left; reflexivity|]. split; [exact Hvis|exact Hkey']. }
    destruct f0 as [dflt conv mf|dflt multi ps].
    + destruct (conv _) as [v|e]; simpl in H; [|discriminate].
      destruct (Hlater _ H) as [Hacc|Hex]; [|right; exact Hex].
      destruct mf as [m|].
      * destruct (primary_key m) eqn:Hm.
        -- apply dict_keys_set in Hacc as [->|Hacc].
           ++ right. apply (Hhere (mf_name m)); [|reflexivity].
              right. exists dflt, conv, m. auto.
           ++ apply dict_keys_set in Hacc as [->|Hacc]; [|left; exact Hacc].
              right. apply (Hhere name0); auto.
        -- apply dict_keys_set in Hacc as [->|Hacc]; [|left; exact Hacc].
           right. apply (Hhere name0); auto.
      * apply dict_keys_set in Hacc as [->|Hacc]; [|left; exact Hacc].
        right. apply (Hhere name0); auto.
    + destruct (rec _ value) as [v|e]; simpl in H; [|discriminate].
      destruct (Hlater _ H) as [Hacc|Hex]; [|right; exact Hex].
      apply dict_keys_set in Hacc as [->|Hacc]; [|left; exact Hacc].
      right. apply (Hhere name0); auto.
Qed.
End Inheritance_facts.

(** The allowlist below the top level.  With [fields_inheritance] off,
    the projection of a nested value does not depend on the row, hence
    not on its allowlist.  With it on and a non-empty allowlist, the
    dict projected from a nested mapping has no key besides the names of
    the allowlist and the model field names of the allowed children that
    are primary keys: a child is matched by its bare name against the
    same allowlist as the top-level fields. *)
Theorem nested_projection_with_inheritance
    (self : SolrSearchResult.t) (allow : list string)
    (field : SolrSearchResult.Field) (raw : PyVal) :
  SolrSearchResult._fields self = Some allow ->
  allow <> [] ->
  (forall self',
     SolrSearchResult._nested_to_dict self false field raw =
     SolrSearchResult._nested_to_dict self' false field raw) /\
  (forall out k,
     SolrSearchResult._single_nested_to_dict self true field raw = Ok out ->
     In k (dict_keys out) ->
     In k allow \/
     exists name dflt conv m props dflt' multi',
       field = SolrSearchResult.NestedField dflt' multi' props /\
       In (name, SolrSearchResult.SearchField dflt conv (Some m)) props /\
       In name allow /\
       SolrSearchResult.primary_key m = true /\
       k = SolrSearchResult.mf_name m).
Proof.
  intros Hallow Hne. split; [intros self'; reflexivity|].
  intros out k H Hk.
  unfold SolrSearchResult._single_nested_to_dict in H.
  destruct (negb (truthy raw)); [injection H as <-; destruct Hk|].
  destruct field as [dflt conv mf|dflt' multi' props]; [discriminate|].
  destruct (single_loop_keys _ _ _ _ _ _ _ _ H Hk)
    as [[]|(name & f & Hin & Hvis & Hkey)].
  assert (Hname : In name allow).
  { simpl in Hvis. apply negb_false_iff in Hvis.
    destruct (In_dec string_dec name allow) as [Hyes|Hno]; [exact Hyes|].
    exfalso.
    assert (Hfalse : SolrSearchResult.is_need_dump_field self name = false).
    { apply is_need_dump_field_false. exists allow. auto. }
    congruence. }
  destruct Hkey as [->|(dflt & conv & m & -> & Hm & ->)]; [left; exact Hname|].
  right. exists name, dflt, conv, m, props, dflt', multi'. auto.
Qed.

Lemma nested_projection_with_inheritance_witness :
  SolrSearchResult._single_nested_to_dict
    (SolrSearchQuerySet.set_fields (sample_row None) ["x"; "y"]) true
    sample_x_field (VDict [("y", VStr "2024-01-01")]) =
    Ok [("y", VStr "2024-01-01")] /\
  (In "y" ["x"; "y"] \/
   exists name dflt conv m props dflt' multi',
     sample_x_field = SolrSearchResult.NestedField dflt' multi' props /\
     In (name, SolrSearchResult.SearchField dflt conv (Some m)) props /\
     In name ["x"; "y"] /\
     SolrSearchResult.primary_key m = true /\
     "y" = SolrSearchResult.mf_name m).
Proof.
  split; [reflexivity|].
  refine (proj2 (nested_projection_with_inheritance
                   (SolrSearchQuerySet.set_fields (sample_row None) ["x"; "y"])
                   ["x"; "y"] sample_x_field (VDict [("y", VStr "2024-01-01")])
                   eq_refl _)
            [("y", VStr "2024-01-01")] "y" eq_refl _).
  - discriminate.
  - simpl. auto.
Defined.

(* ===================================================================== *)
(** * Documents: the map of model fields, and lookup by primary key *)
(* ===================================================================== *)

Section Document_facts.
Import SolrDocument.

Lemma map_get_set k k' v m :
  map_get k' (map_set k v m) = if String.eqb k k' then Some v else map_get k' m.
Proof.
  induction m as [|[k0 v0] m IH]; simpl.
  - rewrite (String.eqb_sym k' k). reflexivity.
  - destruct (String.eqb k k0) eqn:E; simpl.
    + apply String.eqb_eq in E. subst k0.
      rewrite (String.eqb_sym k' k). destruct (String.eqb k k'); reflexivity.
    + rewrite IH. destruct (String.eqb k' k0) eqn:E'; [|reflexivity].
      apply String.eqb_eq in E'. subst k0. rewrite E. reflexivity.
Qed.

(** The value under a key after the loop: the last field stored under
    it, or what the map held before. *)
Lemma get_model_fields_map_loop_get k fields : forall m,
  map_get k (get_model_fields_map_loop fields m) =
    match find_last (stored_under k) fields with
    | Some f => Some f
    | None => map_get k m
    end.
Proof.
  induction fields as [|f fields IH]; intros m;
    cbn [get_model_fields_map_loop find_last]; [reflexivity|].
  rewrite IH. destruct (find_last (stored_under k) fields); [reflexivity|].
  unfold stored_under.
  destruct (primary_key f); rewrite ?map_get_set; cbn [andb].
  - rewrite (String.eqb_sym k "pk").
    destruct (String.eqb "pk" k), (String.eqb (name f) k); reflexivity.
  - rewrite orb_false_r. destruct (String.eqb (name f) k); reflexivity.
Qed.

Lemma find_last_unique {A} (p : A -> bool) (l : list A) (x : A) :
  In x l -> p x = true -> (forall y, In y l -> p y = true -> y = x) ->
  find_last p l = Some x.
Proof.
  induction l as [|a l IH]; intros Hin Hp Huniq; [destruct Hin|]. simpl.
  destruct (find_last p l) as [y|] eqn:E.
  - f_equal. apply Huniq.
    + right. clear -E. induction l as [|b l IHl]; [discriminate|]. simpl in E.
      destruct (find_last p l) as [z|].
      * injection E as <-. right. apply IHl. reflexivity.
      * destruct (p b); [injection E as <-; left; reflexivity|discriminate].
    + clear -E. induction l as [|b l IHl]; [discriminate|]. simpl in E.
      destruct (find_last p l) as [z|].
      * injection E as <-. apply IHl. reflexivity.
      * destruct (p b) eqn:Hb; [injection E as <-; exact Hb|discriminate].
  - destruct Hin as [->|Hin].
    + rewrite Hp. reflexivity.
    + exfalso. clear -E Hin Hp. induction l as [|b l IHl]; [destruct Hin|].
      simpl in E. destruct (find_last p l) as [z|]; [discriminate|].
      destruct (p b) eqn:Hb; [discriminate|].
      destruct Hin as [->|Hin]; [congruence|exact (IHl eq_refl Hin)].
Qed.

Lemma first_pk_some names kwargs pk_name v :
  first_pk names kwargs = Some (pk_name, v) <->
  exists before after,
    names = before ++ pk_name :: after /\
    forallb (fun n => negb (pk_given kwargs n)) before = true /\
    dict_get pk_name kwargs = Some v /\ truthy v = true.
Proof.
  induction names as [|n names IH]; simpl.
  - split; [discriminate|]. intros (b & a & H & _). destruct b; discriminate.
  - split.
    + intros H. destruct (dict_get n kwargs) as [w|] eqn:Hn.
      * destruct (truthy w) eqn:Hw.
        -- injection H as <- <-. exists [], names. auto.
        -- apply IH in H as (b & a & -> & Hb & Hget & Ht).
           exists (n :: b), a. split; [reflexivity|].
           split; [|auto]. simpl. unfold pk_given at 1. rewrite Hn, Hw. exact Hb.
      * apply IH in H as (b & a & -> & Hb & Hget & Ht).
        exists (n :: b), a. split; [reflexivity|].
        split; [|auto]. simpl. unfold pk_given at 1. rewrite Hn. exact Hb.
    + intros (b & a & Heq & Hb & Hget & Ht). destruct b as [|n' b].
      * injection Heq as -> ->. rewrite Hget, Ht. reflexivity.
      * injection Heq as -> ->. simpl in Hb.
        apply andb_true_iff in Hb as [Hn Hb]. apply negb_true_iff in Hn.
        unfold pk_given in Hn.
        assert (Hrest : first_pk (b ++ pk_name :: a) kwargs = Some (pk_name, v)).
        { apply IH. exists b, a. auto. }
        destruct (dict_get n' kwargs) as [w|]; [rewrite Hn|]; exact Hrest.
Qed.

Lemma first_pk_none names kwargs :
  first_pk names kwargs = None <->
  forallb (fun n => negb (pk_given kwargs n)) names = true.
Proof.
  induction names as [|n names IH]; simpl; [tauto|].
  unfold pk_given at 1.
  destruct (dict_get n kwargs) as [w|]; [destruct (truthy w)|]; simpl;
    [split; discriminate|exact IH|exact IH].
Qed.
End Document_facts.

(** The map of model fields holds, under each key, the last field of the
    model stored under it; so for a model whose fields have distinct
    names, none of them pk, every field is found under its name and the
    key pk gives the last field that is a primary key. *)
Theorem get_model_fields_map_lookup (meta_fields : list SolrDocument.ModelField) :
  (forall k,
     SolrDocument.map_get k (SolrDocument.get_model_fields_map meta_fields) =
       find_last (stored_under k) meta_fields) /\
  (List.NoDup (map SolrDocument.name meta_fields) ->
   (forall f, In f meta_fields -> SolrDocument.name f <> "pk") ->
   (forall f, In f meta_fields ->
      SolrDocument.map_get (SolrDocument.name f)
        (SolrDocument.get_model_fields_map meta_fields) = Some f) /\
   SolrDocument.map_get "pk" (SolrDocument.get_model_fields_map meta_fields) =
     find_last SolrDocument.primary_key meta_fields).
Proof.
  assert (Hget : forall k,
            SolrDocument.map_get k (SolrDocument.get_model_fields_map meta_fields) =
              find_last (stored_under k) meta_fields).
  { intros k. unfold SolrDocument.get_model_fields_map.
    rewrite get_model_fields_map_loop_get.
    destruct (find_last _ _); reflexivity. }
  split; [exact Hget|]. intros Hnd Hpk. split.
  - intros f Hin. rewrite Hget. apply find_last_unique; [exact Hin| |].
    + unfold stored_under. rewrite String.eqb_refl. reflexivity.
    + intros y Hy Hs. unfold stored_under in Hs.
      apply orb_true_iff in Hs as [Hs|Hs].
      * apply String.eqb_eq in Hs.
        clear -Hnd Hin Hy Hs. induction meta_fields as [|a l IH]; [destruct Hin|].
        simpl in Hnd. apply List.NoDup_cons_iff in Hnd as [Hnot Hnd].
        destruct Hin as [->|Hin], Hy as [->|Hy]; auto.
        -- exfalso. apply Hnot. rewrite <- Hs. apply in_map. exact Hy.
        -- exfalso. apply Hnot. rewrite Hs. apply in_map. exact Hin.
      * apply andb_true_iff in Hs as [_ Hs]. apply String.eqb_eq in Hs.
        exfalso. exact (Hpk f Hin Hs).
  - rewrite Hget. clear Hget Hnd.
    induction meta_fields as [|a l IH]; [reflexivity|]. cbn [find_last].
    rewrite IH by (intros f Hf; apply Hpk; right; exact Hf).
    destruct (find_last SolrDocument.primary_key l); [reflexivity|].
    unfold stored_under. rewrite String.eqb_refl, andb_true_r.
    destruct (String.eqb (SolrDocument.name a) "pk") eqn:E; [|reflexivity].
    apply String.eqb_eq in E. exfalso. exact (Hpk a (or_introl eq_refl) E).
Qed.

Lemma get_model_fields_map_lookup_witness :
  SolrDocument.map_get "pk"
    (SolrDocument.get_model_fields_map
       [ {| SolrDocument.name := "guid"; SolrDocument.primary_key := true |};
         {| SolrDocument.name := "title"; SolrDocument.primary_key := false |} ]) =
    Some {| SolrDocument.name := "guid"; SolrDocument.primary_key := true |}.
Proof.
  refine (eq_trans
            (proj2 (proj2 (get_model_fields_map_lookup _) _ _)) eq_refl).
  - repeat constructor; simpl; intuition discriminate.
  - intros f [<-|[<-|[]]]; discriminate.
Defined.

(** [get] filters on the positional argument, under the name of the
    Django identifier, when one is given, whatever the keyword arguments;
    otherwise on the first of the four primary-key names whose keyword
    argument is truthy (a value such as 0 or the empty string counts as
    not given), and it raises the attribute error exactly when there is
    none.  It returns the row when exactly one row matches, with the
    requested allowlist on it, raises [NotFoundError] when none matches
    and [MultipleResultError] when several do. *)
Theorem get_by_primary_key (ID DJANGO_ID : string)
    (matching : string -> PyVal -> list SolrSearchResult.t)
    (args : list PyVal) (kwargs : PyDict) (fields : option (list string)) :
  let select := SolrDocument.select_pk ID DJANGO_ID in
  let get := SolrDocument.get ID DJANGO_ID matching in
  let allow := match fields with Some names => names | None => [] end in
  (forall pk rest, select (pk :: rest) kwargs = SolrDocument.Returned (DJANGO_ID, pk)) /\
  (forall pk_name pk,
     select [] kwargs = SolrDocument.Returned (pk_name, pk) <->
     exists before after,
       SolrDocument.pk_fields ID DJANGO_ID = before ++ pk_name :: after /\
       forallb (fun n => negb (pk_given kwargs n)) before = true /\
       dict_get pk_name kwargs = Some pk /\ truthy pk = true) /\
  ((exists msg, select [] kwargs = SolrDocument.Raised (SolrDocument.AttributeError msg)) <->
   forallb (fun n => negb (pk_given kwargs n))
     (SolrDocument.pk_fields ID DJANGO_ID) = true) /\
  match select args kwargs with
  | SolrDocument.Raised e => get args kwargs fields = SolrDocument.Raised e
  | SolrDocument.Returned (pk_name, pk) =>
      match matching pk_name pk with
      | [] =>
          get args kwargs fields =
            SolrDocument.Raised (SolrDocument.NotFoundError "No items found")
      | [row] =>
          get args kwargs fields =
            SolrDocument.Returned (SolrSearchQuerySet.set_fields row allow)
      | _ :: _ :: _ =>
          exists msg,
            get args kwargs fields =
              SolrDocument.Raised (SolrDocument.MultipleResultError msg)
      end
  end.
Proof.
  intros select get allow. split; [reflexivity|]. split; [|split].
  - intros pk_name pk. unfold select, SolrDocument.select_pk.
    rewrite <- first_pk_some.
    destruct (SolrDocument.first_pk _ _) as [[n v]|].
    + split; [intros [= -> ->]; reflexivity|intros [= -> ->]; reflexivity].
    + split; discriminate.
  - unfold select, SolrDocument.select_pk. rewrite <- first_pk_none.
    destruct (SolrDocument.first_pk _ _) as [[n v]|].
    + split; [intros [msg H]; discriminate|discriminate].
    + split; [reflexivity|]. intros _. eexists. reflexivity.
  - unfold get, SolrDocument.get. fold select.
    destruct (select args kwargs) as [[pk_name pk]|e]; [|reflexivity].
    assert (Hallow : SolrSearchQuerySet._fields
                       (match fields with
                        | Some (f :: fs) =>
                            SolrSearchQuerySet.fields
                              (SolrSearchQuerySet.__init__ []) (f :: fs)
                        | _ => SolrSearchQuerySet.__init__ []
                        end) = allow).
    { unfold allow. destruct fields as [[|f fs]|]; reflexivity. }
    unfold SolrSearchQuerySet.post_process_results. rewrite Hallow.
    destruct (matching pk_name pk) as [|row [|row2 more]]; simpl;
      [reflexivity|reflexivity|].
    eexists. reflexivity.
Qed.

(* ===================================================================== *)
(** * What a failed first projection leaves behind *)
(* ===================================================================== *)

Section Failure_facts.
Import SolrSearchResult.
Variable DOCUMENT_FIELD : string.
Variable fields_inheritance : bool.

(** The state in which the shape error leaves [to_dict]: the one reached
    by the loop over the fields before the failing one. *)
Lemma failed_projection_state index pre name field post st did :
  is_nested field = true ->
  fields index = pre ++ (name, field) :: post ->
  _dict (obj st) = None ->
  django_id (obj st) = Ok did ->
  Forall (fun entry =>
            dumped DOCUMENT_FIELD (obj st) (fst entry) = false \/
            exists v, field_value (obj st) fields_inheritance (snd entry)
                        (getattr (obj st) (fst entry)) = Ok v) pre ->
  dumped DOCUMENT_FIELD (obj st) name = true ->
  bad_shape (getattr (obj st) name) = true ->
  exists st',
    dump_fields DOCUMENT_FIELD fields_inheritance (length (heap st)) pre
      {| heap := heap st ++
                 [dict_set (pk_attname (model (obj st))) did
                    (dict_set "pk" (VStr (pk (obj st))) [])];
         obj := set_dict (obj st) (Some (length (heap st))) |} = (Ok tt, st') /\
    to_dict DOCUMENT_FIELD (Some index) fields_inheritance st =
      (Raise nested_error, st').
Proof.
  intros Hnested Hfields Hnone Hid Hpre Hdump Hbad.
  unfold to_dict. rewrite Hnone, Hid. cbn [alloc heap obj].
  rewrite Hfields, dump_fields_app.
  set (st2 := {| heap := _; obj := _ |}).
  destruct (dump_fields_all_ok DOCUMENT_FIELD fields_inheritance
              (length (heap st)) pre st2) as (st1 & H1 & Hobj).
  { exact Hpre. }
  exists st1. split; [exact H1|].
  rewrite H1. cbn [dump_fields]. rewrite dump_field_cases, Hobj.
  unfold st2 at 1 2 3. cbn [obj].
  rewrite dumped_set_dict, Hdump, field_value_set_dict, getattr_set_dict.
  destruct field as [|dflt multi props]; [discriminate|].
  unfold field_value. rewrite (bad_shape_raises _ _ _ _ Hbad). reflexivity.
Qed.
End Failure_facts.

(** Failures of the first projection and the cache.  When the identifier
    cannot be coerced, [to_dict] raises and leaves the row as it was,
    with nothing cached.  When a nested field is refused for its shape,
    the dict begun before it stays in the cache: it holds the two
    primary-key entries and no entry for a field declared only at or
    after the failing one, and every later call returns it instead of
    raising. *)
Theorem failed_first_projection (DOCUMENT_FIELD : string) (fi : bool)
    (index : SolrSearchResult.Index) (st : SolrSearchResult.State) :
  let self := SolrSearchResult.obj st in
  SolrSearchResult._dict self = None ->
  (forall e,
     SolrSearchResult.django_id self = Raise e ->
     SolrSearchResult.to_dict DOCUMENT_FIELD (Some index) fi st = (Raise e, st)) /\
  (forall pre name field post did,
     is_nested field = true ->
     SolrSearchResult.fields index = pre ++ (name, field) :: post ->
     SolrSearchResult.django_id self = Ok did ->
     Forall (fun entry =>
               dumped DOCUMENT_FIELD self (fst entry) = false \/
               exists v, field_value self fi (snd entry)
                           (SolrSearchResult.getattr self (fst entry)) = Ok v)
            pre ->
     dumped DOCUMENT_FIELD self name = true ->
     bad_shape (SolrSearchResult.getattr self name) = true ->
     exists st' d,
       SolrSearchResult.to_dict DOCUMENT_FIELD (Some index) fi st =
         (Raise SolrSearchResult.nested_error, st') /\
       (forall unified_index fi',
          SolrSearchResult.to_dict DOCUMENT_FIELD unified_index fi' st' =
            (Ok (length (SolrSearchResult.heap st)), st')) /\
       SolrSearchResult.deref st' (length (SolrSearchResult.heap st)) = Some d /\
       In "pk" (dict_keys d) /\
       In (SolrSearchResult.pk_attname (SolrSearchResult.model self)) (dict_keys d) /\
       (forall k,
          k <> "pk" ->
          k <> SolrSearchResult.pk_attname (SolrSearchResult.model self) ->
          ~ In k (map fst pre) ->
          ~ In k (dict_keys d))).
Proof.
  intros self Hnone. split.
  - intros e He. unfold SolrSearchResult.to_dict. fold self.
    rewrite Hnone, He. reflexivity.
  - intros pre name field post did Hnested Hfields Hid Hpre Hdump Hbad.
    destruct (failed_projection_state DOCUMENT_FIELD fi index pre name field
                post st did Hnested Hfields Hnone Hid Hpre Hdump Hbad)
      as (st' & Hloop & Hcall).
    fold self in Hloop.
    set (d0 := dict_set _ did _) in Hloop.
    destruct (dump_fields_only_touches _ _ _ _ _ _ _ Hloop) as (Hobj & _).
    destruct (dump_fields_dict _ _ _ _ _ _ d0 Hloop) as (d & Hd & _ & Hkeys).
    { cbn [SolrSearchResult.heap]. apply list_lookup_middle. reflexivity. }
    cbn [SolrSearchResult.obj] in Hobj, Hkeys.
    assert (H0 : forall k,
              dict_get k d0 <> None <->
              k = "pk" \/
              k = SolrSearchResult.pk_attname (SolrSearchResult.model self)).
    { intros k. unfold d0. rewrite !dict_get_set. cbn [dict_get].
      destruct (String.eqb (SolrSearchResult.pk_attname _) k) eqn:E1.
      - apply String.eqb_eq in E1. split; [auto|discriminate].
      - apply String.eqb_neq in E1.
        destruct (String.eqb "pk" k) eqn:E2.
        + apply String.eqb_eq in E2. split; [auto|discriminate].
        + apply String.eqb_neq in E2. split; [congruence|].
          intros [E|E]; congruence. }
    exists st', d. split; [exact Hcall|]. split.
    { intros ui fi'. unfold SolrSearchResult.to_dict. rewrite Hobj. reflexivity. }
    split; [exact Hd|]. split; [|split].
    + apply dict_get_keys, Hkeys. left. apply H0. auto.
    + apply dict_get_keys, Hkeys. left. apply H0. auto.
    + intros k Hpk Hatt Hnot Hin.
      apply dict_get_keys, Hkeys in Hin as [Hin|(f & Hf & _)].
      * apply H0 in Hin as [E|E]; congruence.
      * apply Hnot. apply in_map_iff. exists (k, f). auto.
Qed.

Lemma failed_first_projection_witness :
  exists st' d,
    SolrSearchResult.to_dict "text" (Some sample_index) false
      (fresh sample_bad_row) = (Raise SolrSearchResult.nested_error, st') /\
    SolrSearchResult.to_dict "text" (Some sample_index) false st' = (Ok 0, st') /\
    SolrSearchResult.deref st' 0 = Some d /\
    ~ In "rating" (dict_keys d).
Proof.
  destruct (proj2 (failed_first_projection "text" false sample_index
                     (fresh sample_bad_row) eq_refl)
              [("text", SolrSearchResult.SearchField None same None);
               ("title", SolrSearchResult.SearchField None same None)]
              "x" sample_x_field
              [("tags", SolrSearchResult.NestedField (Some (VList [])) true
                          [("name", SolrSearchResult.SearchField None same None)]);
               ("rating", SolrSearchResult.SearchField (Some (VInt 5)) same None)]
              (VInt 42) eq_refl eq_refl eq_refl)
    as (st' & d & Hcall & Hlater & Hd & _ & _ & Habsent).
  - constructor; [left; reflexivity|].
    constructor; [right; exists (VStr "t"); reflexivity|].
    constructor.
  - reflexivity.
  - reflexivity.
  - exists st', d. split; [exact Hcall|]. split; [apply Hlater|].
    split; [exact Hd|].
    apply Habsent; [discriminate|discriminate|].
    simpl. intuition discriminate.
Defined.

(* ===================================================================== *)
(** * Preparing nested documents *)
(* ===================================================================== *)

Lemma IField_ind_props (P : NestedFieldPrepare.IField -> Prop) :
  (forall ma prep dflt conv mf,
     P (NestedFieldPrepare.IPlain ma prep dflt conv mf)) ->
  (forall ma dflt multi props,
     (forall name f, In (name, f) props -> P f) ->
     P (NestedFieldPrepare.INested ma dflt multi props)) ->
  forall field, P field.
Proof.
  intros Hp Hn. fix IH 1. intros [ma prep dflt conv mf|ma dflt multi props];
    [apply Hp|].
  apply Hn. revert props. fix go 1. intros [|[n f] ps] name f0 Hin.
  - destruct Hin.
  - destruct Hin as [E|Hin].
    + injection E as _ <-. apply IH.
    + exact (go ps name f0 Hin).
Qed.

Section Prepare_facts.
Import NestedFieldPrepare.

Lemma prepare_nested_eq ma dflt multi props model_attr instance_name obj :
  prepare (INested ma dflt multi props) model_attr instance_name obj =
    (related <-! get_instances obj (name_or model_attr instance_name);
     match related with
     | RQuerySet (first :: others) =>
         docs <-! exc_mapM (fun instance => _instance_to_dict instance props)
                    (first :: others);
         Ok (VList (map VDict docs))
     | RModel instance =>
         doc <-! _instance_to_dict instance props; Ok (VDict doc)
     | _ => Ok VNone
     end).
Proof. reflexivity. Qed.

(** The children of the projected field, as those of the declared one. *)
Lemma as_field_nested ma dflt multi props :
  as_field (INested ma dflt multi props) =
    SolrSearchResult.NestedField dflt multi
      (map (fun nf => (fst nf, as_field (snd nf))) props).
Proof.
  simpl. f_equal. induction props as [|[n c] props IH]; [reflexivity|].
  simpl. rewrite IH. reflexivity.
Qed.

Lemma distinct_names_nested ma dflt multi props :
  distinct_names (INested ma dflt multi props) ->
  List.NoDup (map fst props) /\
  forall name f, In (name, f) props -> distinct_names f.
Proof.
  simpl. intros [Hnd Hall]. split; [exact Hnd|]. clear Hnd.
  induction props as [|[n c] props IH]; intros name f Hin; [destruct Hin|].
  destruct Hall as [Hc Hrest]. destruct Hin as [E|Hin].
  - injection E as _ <-. exact Hc.
  - exact (IH Hrest name f Hin).
Qed.

(** The loop leaves alone the entries of the keys that are no child. *)
Lemma instance_loop_get_other rec instance k props : forall doc out,
  ~ In k (map fst props) ->
  instance_loop rec instance props doc = Ok out ->
  dict_get k out = dict_get k doc.
Proof.
  induction props as [|[n c] props IH]; intros doc out Hk H;
    cbn [instance_loop] in H.
  - injection H as <-. reflexivity.
  - cbn [map fst In] in Hk.
    destruct (negb (hasattr instance n)).
    + apply IH; [tauto|exact H].
    + destruct (rec c _ None instance) as [v|e]; simpl in H; [|discriminate].
      rewrite (IH _ _ (fun Hin => Hk (or_intror Hin)) H).
      apply dict_get_set_ne. intros ->. apply Hk. left. reflexivity.
Qed.

(** The keys the loop writes: the names of the children that are
    attributes of the instance. *)
Lemma instance_loop_keys rec instance props : forall doc out,
  instance_loop rec instance props doc = Ok out ->
  forall k,
    In k (dict_keys out) <->
    In k (dict_keys doc) \/
    (In k (map fst props) /\ hasattr instance k = true).
Proof.
  induction props as [|[n c] props IH]; intros doc out H k;
    cbn [instance_loop] in H.
  - injection H as <-. simpl. tauto.
  - destruct (hasattr instance n) eqn:Hn; cbn [negb] in H.
    + destruct (rec c _ None instance) as [v|e]; simpl in H; [|discriminate].
      rewrite (IH _ _ H), dict_keys_set. cbn [map fst In]. split.
      * intros [[->|Hd]|[Hin Hk]]; auto.
      * intros [Hd|[[<-|Hin] Hk]]; auto.
    + rewrite (IH _ _ H). cbn [map fst In]. split.
      * intros [Hd|[Hin Hk]]; auto.
      * intros [Hd|[[<-|Hin] Hk]]; auto. congruence.
Qed.

(** With distinct names, the entry of a child holds the value its
    [prepare] returned. *)
Lemma instance_loop_entry rec instance props : forall doc out,
  List.NoDup (map fst props) ->
  instance_loop rec instance props doc = Ok out ->
  forall name child,
    In (name, child) props ->
    hasattr instance name = true ->
    exists v,
      rec child
        (if name_truthy (declared_model_attr child)
         then declared_model_attr child else Some name)
        None instance = Ok v /\
      dict_get name out = Some v.
Proof.
  induction props as [|[n c] props IH]; intros doc out Hnd H name child Hin Hattr;
    [destruct Hin|].
  cbn [instance_loop] in H. cbn [map fst] in Hnd.
  apply List.NoDup_cons_iff in Hnd as [Hnot Hnd].
  destruct Hin as [E|Hin].
  - injection E as -> ->. rewrite Hattr in H. cbn [negb] in H.
    destruct (rec child _ None instance) as [v|e] eqn:Hv; simpl in H;
      [|discriminate].
    exists v. split; [reflexivity|].
    rewrite (instance_loop_get_other _ _ _ _ _ _ Hnot H).
    apply dict_get_set_eq.
  - destruct (negb (hasattr instance n)).
    + exact (IH _ _ Hnd H name child Hin Hattr).
    + destruct (rec c _ None instance) as [v|e]; simpl in H; [|discriminate].
      exact (IH _ _ Hnd H name child Hin Hattr).
Qed.

(** A key that is no attribute of the instance has no entry. *)
Lemma instance_loop_absent rec instance props out name :
  instance_loop rec instance props [] = Ok out ->
  hasattr instance name = false ->
  dict_get name out = None.
Proof.
  intros H Hattr. destruct (dict_get name out) eqn:E; [|reflexivity].
  assert (Hk : In name (dict_keys out)).
  { apply dict_get_keys. rewrite E. discriminate. }
  apply (instance_loop_keys _ _ _ _ _ H) in Hk as [[]|[_ Hk]]. congruence.
Qed.

End Prepare_facts.

Lemma exc_mapM_in {A B} (f : A -> Exc B) l : forall r y,
  exc_mapM f l = Ok r -> In y r -> exists x, In x l /\ f x = Ok y.
Proof.
  induction l as [|x l IH]; simpl; intros r y H Hin.
  - injection H as <-. destruct Hin.
  - destruct (f x) as [y0|] eqn:Hx; simpl in H; [|discriminate].
    destruct (exc_mapM f l) as [ys|]; simpl in H; [|discriminate].
    injection H as <-. destruct Hin as [<-|Hin].
    + exists x. split; [left; reflexivity|exact Hx].
    + destruct (IH ys y eq_refl Hin) as (x' & Hin' & Hx').
      exists x'. split; [right; exact Hin'|exact Hx'].
Qed.

(** A null value reaches no bad shape. *)
Lemma null_reaches_no_bad_shape self fields_only field :
  ~ reaches_bad_shape self fields_only field VNone.
Proof. intros H. inversion H. discriminate. Qed.

(** What [prepare] of a nested field puts into the index is null,
    a mapping, or a list of mappings that is not empty: never an empty
    list, never a scalar. *)
Theorem prepare_shape ma dflt multi props model_attr instance_name obj v :
  NestedFieldPrepare.prepare
    (NestedFieldPrepare.INested ma dflt multi props)
    model_attr instance_name obj = Ok v ->
  spec_shape v = true /\ v <> VList [].
Proof.
  rewrite prepare_nested_eq. intros H.
  destruct (NestedFieldPrepare.get_instances obj _) as [[|[|first others]|instance]|e];
    simpl in H; try discriminate.
  - injection H as <-. split; [reflexivity|discriminate].
  - injection H as <-. split; [reflexivity|discriminate].
  - destruct (NestedFieldPrepare._instance_to_dict first props) as [d|];
      simpl in H; [|discriminate].
    destruct (exc_mapM _ others) as [ds|]; simpl in H; [|discriminate].
    injection H as <-. split; [|discriminate].
    simpl. induction ds as [|d' ds IH]; [reflexivity|exact IH].
  - destruct (NestedFieldPrepare._instance_to_dict instance props) as [d|];
      simpl in H; [|discriminate].
    injection H as <-. split; [reflexivity|discriminate].
Qed.

Lemma prepare_shape_witness :
  spec_shape
    (VList
       [VDict [("title", VStr "One"); ("publisher", VDict [("name", VStr "Mir")])];
        VDict [("title", VStr "Two"); ("publisher", VDict [("name", VStr "Mir")])]])
    = true.
Proof.
  exact (proj1 (prepare_shape None None true sample_book_properties
                  None (Some "books") sample_author _ eq_refl)).
Defined.

(** When the attribute the field reads is missing, is a manager
    without objects, or is neither a manager nor a model instance, the
    nested field is indexed as null. *)
Theorem nothing_related_gives_null ma dflt multi props model_attr
    instance_name obj n :
  NestedFieldPrepare.name_or model_attr instance_name = Some n ->
  NestedFieldPrepare.lookup (n +:+ "_set") (NestedFieldPrepare.attrs_of obj) = None ->
  NestedFieldPrepare.lookup n (NestedFieldPrepare.attrs_of obj) = None \/
  NestedFieldPrepare.lookup n (NestedFieldPrepare.attrs_of obj) =
    Some (NestedFieldPrepare.AManager []) \/
  (exists x, NestedFieldPrepare.lookup n (NestedFieldPrepare.attrs_of obj) =
               Some (NestedFieldPrepare.AValue x)) ->
  NestedFieldPrepare.prepare
    (NestedFieldPrepare.INested ma dflt multi props)
    model_attr instance_name obj = Ok VNone.
Proof.
  intros Hn Hset Hattr. rewrite prepare_nested_eq, Hn.
  unfold NestedFieldPrepare.get_instances. rewrite Hset.
  destruct Hattr as [->|[->|[x ->]]]; reflexivity.
Qed.

Lemma nothing_related_gives_null_witness :
  NestedFieldPrepare.prepare sample_books_field None (Some "name") sample_author
    = Ok VNone.
Proof.
  apply (nothing_related_gives_null None None true sample_book_properties
           None (Some "name") sample_author "name").
  - reflexivity.
  - reflexivity.
  - right. right. exists (VStr "Ann"). reflexivity.
Defined.

(** The reverse accessor comes first: when the object has the
    attribute [<name>_set], the nested field is prepared from it alone,
    whatever the attribute [<name>] and the other attributes hold. *)
Theorem reverse_accessor_comes_first ma dflt multi props model_attr
    instance_name obj n related :
  NestedFieldPrepare.name_or model_attr instance_name = Some n ->
  NestedFieldPrepare.lookup (n +:+ "_set") (NestedFieldPrepare.attrs_of obj) =
    Some related ->
  NestedFieldPrepare.prepare
    (NestedFieldPrepare.INested ma dflt multi props)
    model_attr instance_name obj =
  NestedFieldPrepare.prepare
    (NestedFieldPrepare.INested ma dflt multi props)
    model_attr instance_name
    (NestedFieldPrepare.Inst [(n +:+ "_set", related)]).
Proof.
  intros Hn Hset. rewrite !prepare_nested_eq, Hn.
  unfold NestedFieldPrepare.get_instances. rewrite Hset.
  cbn [NestedFieldPrepare.attrs_of NestedFieldPrepare.lookup].
  rewrite String.eqb_refl. reflexivity.
Qed.

Lemma reverse_accessor_comes_first_witness :
  NestedFieldPrepare.prepare sample_books_field None (Some "books") sample_author =
  NestedFieldPrepare.prepare sample_books_field None (Some "books")
    (NestedFieldPrepare.Inst [("books_set", sample_books)]).
Proof.
  exact (reverse_accessor_comes_first None None true sample_book_properties
           None (Some "books") sample_author "books" sample_books
           eq_refl eq_refl).
Defined.

(** The document of one related object has an entry exactly for
    the children whose own name is an attribute of the object: a child
    whose name is no attribute is left out, also when it declares a
    [model_attr] that the object has. *)
Theorem instance_to_dict_keys instance props doc :
  NestedFieldPrepare._instance_to_dict instance props = Ok doc ->
  forall k,
    In k (dict_keys doc) <->
    In k (map fst props) /\ NestedFieldPrepare.hasattr instance k = true.
Proof.
  intros H k. unfold NestedFieldPrepare._instance_to_dict in H.
  rewrite (instance_loop_keys _ _ _ _ _ H k). simpl. tauto.
Qed.

Lemma instance_to_dict_keys_witness :
  In "publisher"
    (dict_keys [("title", VStr "One"); ("publisher", VDict [("name", VStr "Mir")])]).
Proof.
  apply (instance_to_dict_keys (sample_book "One") sample_book_properties
           _ eq_refl "publisher").
  split; [right; left; reflexivity|reflexivity].
Defined.

(** What is prepared is never of a bad shape, at any depth. *)
Lemma prepared_reaches_no_bad_shape self fields_only : forall f model_attr instance_name obj v,
  is_nested_field f = true ->
  distinct_names f ->
  NestedFieldPrepare.prepare f model_attr instance_name obj = Ok v ->
  ~ reaches_bad_shape self fields_only (NestedFieldPrepare.as_field f) v.
Proof.
  induction f as [ma prep dflt conv mf|ma dflt multi props IH]
    using IField_ind_props;
    intros model_attr instance_name obj v Hnested Hdistinct H;
    [discriminate|].
  apply distinct_names_nested in Hdistinct as [Hnd Hall].
  rewrite prepare_nested_eq in H. rewrite as_field_nested.
  assert (Hdoc : forall instance d,
            NestedFieldPrepare._instance_to_dict instance props = Ok d ->
            ~ reaches_bad_shape self fields_only
                (SolrSearchResult.NestedField dflt multi
                   (map (fun nf => (fst nf, NestedFieldPrepare.as_field (snd nf)))
                      props))
                (VDict d)).
  { intros instance d Hd Hr. inversion Hr as [? ? Hbad|? ? ? ? name dflt' multi' props' _ Hin _ Hchild|];
      subst; [discriminate|].
    apply in_map_iff in Hin as ([n c] & E & Hin). simpl in E.
    injection E as -> Hc.
    destruct (NestedFieldPrepare.hasattr instance name) eqn:Hattr.
    - destruct (instance_loop_entry _ _ _ _ _ Hnd Hd name c Hin Hattr)
        as (x & Hx & Hget).
      rewrite Hget in Hchild. rewrite <- Hc in Hchild.
      refine (IH name c Hin _ None instance x _ (Hall name c Hin) Hx Hchild).
      destruct c; [discriminate|reflexivity].
    - rewrite (instance_loop_absent _ _ _ _ _ Hd Hattr) in Hchild.
      exact (null_reaches_no_bad_shape _ _ _ Hchild). }
  destruct (NestedFieldPrepare.get_instances obj _) as [[|[|first others]|instance]|e];
    simpl in H; try discriminate.
  - injection H as <-. apply null_reaches_no_bad_shape.
  - injection H as <-. apply null_reaches_no_bad_shape.
  - destruct (NestedFieldPrepare._instance_to_dict first props) as [d|] eqn:Hfirst;
      simpl in H; [|discriminate].
    destruct (exc_mapM _ others) as [ds|] eqn:Hothers; simpl in H; [|discriminate].
    injection H as <-. intros Hr.
    inversion Hr as [? ? Hbad| |? ? ? ? d0 Hin Hitem]; subst; [discriminate|].
    destruct Hin as [E|Hin].
    + injection E as <-. exact (Hdoc _ _ Hfirst Hitem).
    + apply in_map_iff in Hin as (d1 & E & Hin). injection E as ->.
      destruct (exc_mapM_in _ _ _ _ Hothers Hin) as (x & _ & Hx).
      exact (Hdoc _ _ Hx Hitem).
  - destruct (NestedFieldPrepare._instance_to_dict instance props) as [d|] eqn:Hd;
      simpl in H; [|discriminate].
    injection H as <-. exact (Hdoc _ _ Hd).
Qed.

(** Indexing and projecting agree on the shape: the value that
    [prepare] of a nested field returns, when read back by the same
    field, meets no value of a bad shape at any depth, so the projection
    raises the shape error for none of it. *)
Theorem prepared_value_projects self fields_only f model_attr instance_name obj v :
  is_nested_field f = true ->
  distinct_names f ->
  quiet_converts (NestedFieldPrepare.as_field f) ->
  NestedFieldPrepare.prepare f model_attr instance_name obj = Ok v ->
  forall msg,
    SolrSearchResult._nested_to_dict self fields_only
      (NestedFieldPrepare.as_field f) v <> Raise (ValueError msg).
Proof.
  intros Hnested Hdistinct Hquiet H msg Hraise.
  apply value_error_reaches_bad_shape in Hraise as [_ Hr]; [|exact Hquiet].
  exact (prepared_reaches_no_bad_shape self fields_only f model_attr
           instance_name obj v Hnested Hdistinct H Hr).
Qed.

Lemma prepared_value_projects_witness :
  is_nested_field sample_books_field = true /\
  forall msg,
    SolrSearchResult._nested_to_dict (sample_row None) false
      (NestedFieldPrepare.as_field sample_books_field)
      (VList
         [VDict [("title", VStr "One"); ("publisher", VDict [("name", VStr "Mir")])];
          VDict [("title", VStr "Two"); ("publisher", VDict [("name", VStr "Mir")])]])
    <> Raise (ValueError msg).
Proof.
  split; [reflexivity|].
  apply (prepared_value_projects (sample_row None) false sample_books_field
           None (Some "books") sample_author).
  - reflexivity.
  - simpl. split.
    + repeat (apply List.NoDup_cons; [simpl; intuition discriminate|]).
      apply List.NoDup_nil.
    + repeat split. repeat (apply List.NoDup_cons; [simpl; tauto|]).
      apply List.NoDup_nil.
  - simpl. repeat split; intros; discriminate.
  - reflexivity.
Defined.

(* ===================================================================== *)
(** * The admin actions *)
(* ===================================================================== *)

(** Splitting and joining are inverse: the segments hold no separator,
    and joined again they give the string. *)
Lemma split1_segments sep s : forall w ws,
  split1 sep s = (w, ws) ->
  has_char sep w = false /\
  Forall (fun x => has_char sep x = false) ws /\
  s = String.concat (String sep EmptyString) (w :: ws).
Proof.
  induction s as [|c s IH]; simpl; intros w ws H.
  - injection H as <- <-. repeat split. constructor.
  - destruct (split1 sep s) as [w' ws'].
    destruct (IH w' ws' eq_refl) as (Hw & Hws & Hs).
    destruct (Ascii.eqb c sep) eqn:Hc; injection H as <- <-.
    + apply Ascii.eqb_eq in Hc. subst c. split; [reflexivity|].
      split; [constructor; assumption|].
      rewrite Hs at 1. reflexivity.
    + split; [simpl; rewrite Hc; exact Hw|]. split; [exact Hws|].
      rewrite Hs at 1. destruct ws'; reflexivity.
Qed.

(** The parts of a label that unpacks: the text before and after its
    only dot. *)
Lemma split_label_parts label app_label model_name :
  IndexesAdmin.split_label label = Ok (app_label, model_name) ->
  label = app_label +:+ "." +:+ model_name /\
  has_char "." app_label = false /\
  has_char "." model_name = false.
Proof.
  unfold IndexesAdmin.split_label, split.
  destruct (split1 "." label) as [w ws] eqn:E.
  destruct (split1_segments _ _ _ _ E) as (Hw & Hws & Hs).
  destruct ws as [|n [|? ?]]; try discriminate.
  intros H. injection H as <- <-.
  apply Forall_cons in Hws as [Hn _]. split; [exact Hs|].
  split; assumption.
Qed.

(** The label of a row is taken apart into an application label
    and a model name exactly when it has the form [app.model] with a
    single dot; the two parts are then the text before and after it. *)
Theorem split_label_one_dot label app_label model_name :
  IndexesAdmin.split_label label = Ok (app_label, model_name) <->
  label = app_label +:+ "." +:+ model_name /\
  has_char "." app_label = false /\
  has_char "." model_name = false.
Proof.
  split; [apply split_label_parts|].
  intros (-> & Ha & Hn). unfold IndexesAdmin.split_label, split.
  change (app_label +:+ "." +:+ model_name)
    with (app_label +:+ String "." model_name).
  rewrite (split1_app "." app_label model_name Ha). unfold split.
  rewrite (split1_no_sep "." model_name Hn). reflexivity.
Qed.

Section Admin_facts.
Import IndexesAdmin.
Variable Model : Type.
Variable get_model : string -> string -> Exc Model.
Variable backends : list string.
Variable PK : Type.
Variable do_update : Z -> Z -> Z -> option PK -> Exc (option PK).
Variable perform : call Model PK -> Exc unit.

Lemma reset_loop_malformed : forall queryset acc,
  Exists (fun record => ~ well_labelled (model record)) queryset ->
  exists e records, reset_loop get_model queryset acc = (Raise e, records).
Proof.
  induction queryset as [|record rest IH]; intros acc Hbad.
  - inversion Hbad.
  - cbn [reset_loop].
    destruct (split_label (model record)) as [[a n]|e] eqn:Hsplit; simpl.
    + destruct (get_model a n) as [m|e]; [|eauto].
      apply Exists_cons in Hbad as [Hbad|Hbad].
      * exfalso. apply Hbad. exists a, n.
        apply split_label_parts. exact Hsplit.
      * destruct (IH (acc ++ [m]) Hbad) as (e & records & ->). eauto.
    + eauto.
Qed.

Lemma reset_loop_ok : forall queryset acc models records,
  reset_loop get_model queryset acc = (Ok models, records) ->
  records = map reset queryset /\
  exists found,
    models = acc ++ found /\
    Forall2 (fun record m =>
               exists app_label model_name,
                 model record = app_label +:+ "." +:+ model_name /\
                 get_model app_label model_name = Ok m)
      queryset found.
Proof.
  induction queryset as [|record rest IH]; intros acc models records H;
    cbn [reset_loop] in H.
  - injection H as <- <-. split; [reflexivity|]. exists [].
    split; [rewrite app_nil_r; reflexivity|constructor].
  - destruct (split_label (model record)) as [[a n]|e] eqn:Hsplit;
      simpl in H; [|discriminate].
    destruct (get_model a n) as [m|e] eqn:Hm; [|discriminate].
    destruct (reset_loop get_model rest (acc ++ [m])) as [r rest'] eqn:Hrest.
    injection H as -> <-.
    destruct (IH _ _ _ Hrest) as (-> & found & -> & Hall).
    split; [reflexivity|]. exists (m :: found). split.
    + rewrite <- app_assoc. reflexivity.
    + constructor; [|exact Hall]. exists a, n. split; [|exact Hm].
      apply split_label_parts in Hsplit as [Hl _]. exact Hl.
Qed.

Lemma clear_loop_ok models : forall names calls,
  clear_loop perform names models = (Ok tt, calls) ->
  calls = map (fun backend_name => clear backend_name models) names.
Proof.
  induction names as [|name rest IH]; intros calls H; cbn [clear_loop] in H.
  - injection H as <-. reflexivity.
  - destruct (perform (clear name models)); [|discriminate].
    destruct (clear_loop perform rest models) as [r calls'] eqn:Hrest.
    injection H as -> <-. rewrite (IH _ eq_refl). reflexivity.
Qed.

Lemma range_negative_step : forall fuel total step,
  (step < 0)%Z -> (0 <= total)%Z -> range_loop fuel 0 total step = [].
Proof.
  intros [|fuel] total step Hs Ht; [reflexivity|]. cbn [range_loop].
  destruct (0 <? step)%Z eqn:E; [apply Z.ltb_lt in E; lia|].
  destruct (total <? 0)%Z eqn:E'; [apply Z.ltb_lt in E'; lia|reflexivity].
Qed.

Lemma batch_loop_tiles total batch_size :
  (0 < batch_size)%Z ->
  forall fuel start max_pk r calls,
    (total - start <= Z.of_nat fuel)%Z ->
    batch_loop (Model := Model) do_update
      (range_loop fuel start total batch_size) total batch_size max_pk =
      (Ok r, calls) ->
    tiles batch_size (Z.min start total) total calls.
Proof.
  intros Hsize. induction fuel as [|fuel IH];
    intros start max_pk r calls Hfuel H; cbn [range_loop] in H.
  - injection H as _ <-. simpl. lia.
  - destruct (0 <? batch_size)%Z eqn:E; [|apply Z.ltb_ge in E; lia].
    destruct (start <? total)%Z eqn:Hlt.
    + apply Z.ltb_lt in Hlt. cbn [batch_loop] in H.
      destruct (do_update start _ total max_pk) as [max_pk'|e];
        [|discriminate].
      destruct (batch_loop do_update _ total batch_size max_pk')
        as [r' calls'] eqn:Hrest.
      injection H as -> <-.
      apply IH in Hrest; [|lia]. cbn [tiles].
      split; [lia|]. split; [lia|]. split; [lia|]. split; [reflexivity|].
      exact Hrest.
    + apply Z.ltb_ge in Hlt. injection H as _ <-. simpl. lia.
Qed.

End Admin_facts.

(** One row whose label is not of the form [app.model] stops the
    clearing before anything is done: no backend is cleared and nothing
    is saved. *)
Theorem clear_index_malformed_label {Model PK}
    (get_model : string -> string -> Exc Model) (backends : list string)
    (perform : IndexesAdmin.call Model PK -> Exc unit)
    (queryset : list IndexesAdmin.Indexes) :
  Exists (fun record => ~ well_labelled (IndexesAdmin.model record)) queryset ->
  exists e records,
    IndexesAdmin._clear_index get_model backends perform queryset =
      (Raise e, [], records).
Proof.
  intros Hbad. unfold IndexesAdmin._clear_index.
  destruct (reset_loop_malformed Model get_model queryset [] Hbad)
    as (e & records & ->).
  exists e, records. reflexivity.
Qed.

Lemma clear_index_malformed_label_witness :
  exists e records,
    IndexesAdmin._clear_index sample_get_model ["default"] sample_perform
      (sample_records ++
       [{| IndexesAdmin.guid := 3; IndexesAdmin.document := "Broken";
           IndexesAdmin.model := "Book"; IndexesAdmin.hints := 1;
           IndexesAdmin.updated_at := None |}]) =
      (Raise e, [], records).
Proof.
  apply clear_index_malformed_label.
  apply Exists_cons_tl, Exists_cons_tl, Exists_cons_hd.
  intros (a & n & H & _ & _). simpl in H.
  assert (Hdot : has_char "." "Book" = true).
  { rewrite H. clear H. induction a as [|c a IH]; [reflexivity|].
    simpl. rewrite IH. apply orb_true_r. }
  discriminate Hdot.
Defined.

(** A clearing that succeeds has cleared every configured backend
    once, in order, each with the models of all the rows, one for each
    row in order, and then has saved every row with a count of zero and
    no update time. *)
Theorem clear_index_calls {Model PK}
    (get_model : string -> string -> Exc Model) (backends : list string)
    (perform : IndexesAdmin.call Model PK -> Exc unit)
    (queryset : list IndexesAdmin.Indexes) calls records :
  IndexesAdmin._clear_index get_model backends perform queryset =
    (Ok tt, calls, records) ->
  records = map IndexesAdmin.reset queryset /\
  exists models,
    Forall2 (fun record m =>
               exists app_label model_name,
                 IndexesAdmin.model record = app_label +:+ "." +:+ model_name /\
                 get_model app_label model_name = Ok m)
      queryset models /\
    calls =
      map (fun backend_name => IndexesAdmin.clear backend_name models) backends ++
      [IndexesAdmin.bulk_update (map IndexesAdmin.reset queryset)
         ["hints"; "updated_at"]].
Proof.
  unfold IndexesAdmin._clear_index. intros H.
  destruct (IndexesAdmin.reset_loop get_model queryset []) as [[models|e] recs]
    eqn:Hreset; [|discriminate].
  destruct (reset_loop_ok Model get_model _ _ _ _ Hreset)
    as (-> & found & Hfound & Hall).
  simpl in Hfound. subst found.
  destruct (IndexesAdmin.clear_loop perform backends models) as [[[]|e] cs]
    eqn:Hclear; [|discriminate].
  injection H as _ <- <-. split; [reflexivity|].
  exists models. split; [exact Hall|].
  rewrite (clear_loop_ok Model PK perform models _ _ Hclear). reflexivity.
Qed.

Lemma clear_index_calls_witness :
  map IndexesAdmin.reset sample_records = map IndexesAdmin.reset sample_records /\
  exists models,
    Forall2 (fun record m =>
               exists app_label model_name,
                 IndexesAdmin.model record = app_label +:+ "." +:+ model_name /\
                 sample_get_model app_label model_name = Ok m)
      sample_records models /\
    ([IndexesAdmin.clear "default" ["Book"; "Author"];
      IndexesAdmin.clear "replica" ["Book"; "Author"];
      IndexesAdmin.bulk_update (map IndexesAdmin.reset sample_records)
        ["hints"; "updated_at"]] : list (IndexesAdmin.call string Z)) =
      map (fun backend_name => IndexesAdmin.clear backend_name models)
        ["default"; "replica"] ++
      [IndexesAdmin.bulk_update (map IndexesAdmin.reset sample_records)
         ["hints"; "updated_at"]].
Proof.
  exact (clear_index_calls sample_get_model ["default"; "replica"]
           sample_perform sample_records _ _ eq_refl).
Defined.

(** With a positive batch size the update of one index goes
    through all its rows: the batches start at row 0, each begins where
    the one before ended, none is empty or longer than the batch size,
    and the last ends at the total. *)
Theorem update_batches_tile {Model PK}
    (do_update : Z -> Z -> Z -> option PK -> Exc (option PK))
    (total batch_size : Z) r (calls : list (IndexesAdmin.call Model PK)) :
  (0 < batch_size)%Z ->
  (0 <= total)%Z ->
  IndexesAdmin.update_batches do_update total batch_size = (Ok r, calls) ->
  tiles batch_size 0 total calls.
Proof.
  intros Hsize Htotal. unfold IndexesAdmin.update_batches, IndexesAdmin.range.
  destruct (batch_size =? 0)%Z eqn:E; [apply Z.eqb_eq in E; lia|].
  intros H.
  apply (batch_loop_tiles Model PK do_update total batch_size Hsize) in H;
    [|lia].
  replace (Z.min 0 total) with 0%Z in H by lia. exact H.
Qed.

Lemma update_batches_tile_witness :
  tiles (Model := string) 4 0 10
    [IndexesAdmin.update 0 4 10 None;
     IndexesAdmin.update 4 8 10 (Some 4%Z);
     IndexesAdmin.update 8 10 10 (Some 8%Z)].
Proof.
  apply (update_batches_tile sample_do_update 10 4 (Some 10%Z)).
  - lia.
  - lia.
  - reflexivity.
Defined.

(** A batch size that is not positive indexes nothing: zero is
    refused with a value error before any batch, and with a negative
    size the loop ends at once without a batch and without an error. *)
Theorem update_batches_without_batches {Model PK}
    (do_update : Z -> Z -> Z -> option PK -> Exc (option PK))
    (total batch_size : Z) :
  (batch_size <= 0)%Z ->
  (0 <= total)%Z ->
  IndexesAdmin.update_batches (Model := Model) do_update total batch_size =
    (if (batch_size =? 0)%Z
     then Raise (ValueError "range() arg 3 must not be zero")
     else Ok None,
     []).
Proof.
  intros Hsize Htotal. unfold IndexesAdmin.update_batches, IndexesAdmin.range.
  destruct (batch_size =? 0)%Z eqn:E; [reflexivity|].
  apply Z.eqb_neq in E.
  rewrite range_negative_step by lia. reflexivity.
Qed.

Lemma update_batches_without_batches_witness :
  IndexesAdmin.update_batches (Model := string) sample_do_update 10 (-4) =
    (Ok None, []).
Proof.
  apply (update_batches_without_batches (Model := string) sample_do_update 10 (-4));
    lia.
Defined.

(* ===================================================================== *)
(** * The list of indexes *)
(* ===================================================================== *)

Section View_facts.
Import FetchIndexesView.

Lemma extends_refl db : extends db db.
Proof. exists []. rewrite app_nil_r. reflexivity. Qed.

Lemma extends_trans db1 db2 db3 :
  extends db1 db2 -> extends db2 db3 -> extends db1 db3.
Proof.
  intros [a1 H1] [a2 H2]. exists (a1 ++ a2).
  rewrite H2, H1, app_assoc. reflexivity.
Qed.

Lemma listed_extends document db db' :
  extends db db' -> listed document db -> listed document db'.
Proof.
  intros [added H] (r & Hin & Hdoc).
  assert (Hin' : In (set_hints r 0) (map (fun r => set_hints r 0) db')).
  { rewrite H. apply in_or_app. left.
    exact (in_map (fun r => set_hints r 0) db r Hin). }
  apply in_map_iff in Hin' as (r' & E & Hin').
  exists r'. split; [exact Hin'|]. rewrite <- Hdoc.
  change (IndexesAdmin.document (set_hints r' 0) =
          IndexesAdmin.document (set_hints r 0)).
  rewrite E. reflexivity.
Qed.

Lemma NoDup_snoc {A} (l : list A) x :
  List.NoDup l -> ~ In x l -> List.NoDup (l ++ [x]).
Proof.
  induction l as [|y l IH]; intros Hnd Hx; simpl.
  - constructor; [intros []|constructor].
  - apply List.NoDup_cons_iff in Hnd as [Hy Hnd].
    apply List.NoDup_cons.
    + intros Hin. apply in_app_or in Hin as [Hin|[<-|[]]]; [exact (Hy Hin)|].
      apply Hx. left. reflexivity.
    + apply IH; [exact Hnd|]. intros Hin. apply Hx. right. exact Hin.
Qed.

Lemma list_max_bound (l : list nat) n : In n l -> n <= list_max l.
Proof.
  induction l as [|x l IH]; [intros []|].
  intros [->|Hin]; simpl; [lia|]. specialize (IH Hin). lia.
Qed.

Lemma uuid4_fresh db : ~ In (uuid4 db) (map IndexesAdmin.guid db).
Proof.
  intros Hin. apply list_max_bound in Hin. unfold uuid4 in Hin. lia.
Qed.

(** With distinct document names, at most one row has a given name. *)
Lemma filter_document document : forall db,
  List.NoDup (map IndexesAdmin.document db) ->
  (List.filter (fun r => String.eqb (IndexesAdmin.document r) document) db = [] /\
   ~ In document (map IndexesAdmin.document db)) \/
  (exists r,
     List.filter (fun r => String.eqb (IndexesAdmin.document r) document) db = [r] /\
     In r db /\ IndexesAdmin.document r = document).
Proof.
  induction db as [|x db IH]; intros Hnd.
  - left. split; [reflexivity|intros []].
  - cbn [map] in Hnd. apply List.NoDup_cons_iff in Hnd as [Hx Hnd].
    cbn [List.filter]. destruct (String.eqb (IndexesAdmin.document x) document) eqn:E.
    + apply String.eqb_eq in E. right. exists x.
      destruct (IH Hnd) as [[-> _]|(r & _ & Hin & Hr)].
      * split; [reflexivity|]. split; [left; reflexivity|exact E].
      * exfalso. apply Hx. rewrite E, <- Hr. apply in_map. exact Hin.
    + apply String.eqb_neq in E.
      destruct (IH Hnd) as [[-> Hno]|(r & -> & Hin & Hr)].
      * left. split; [reflexivity|]. intros [H|H]; [exact (E H)|exact (Hno H)].
      * right. exists r. split; [reflexivity|]. split; [right; exact Hin|exact Hr].
Qed.

(** Saving a row of the table with another count changes that row only. *)
Lemma save_set_hints r hints : forall db,
  List.NoDup (map IndexesAdmin.guid db) ->
  In r db ->
  map IndexesAdmin.guid (save (set_hints r hints) db) = map IndexesAdmin.guid db /\
  map (fun r => set_hints r 0) (save (set_hints r hints) db) =
    map (fun r => set_hints r 0) db.
Proof.
  intros db Hnd Hin. unfold save. rewrite !map_map.
  assert (Hsame : forall x, In x db ->
            IndexesAdmin.guid x = IndexesAdmin.guid r -> x = r).
  { clear -Hnd Hin. induction db as [|y db IH]; intros x Hx Hg; [destruct Hx|].
    cbn [map] in Hnd. apply List.NoDup_cons_iff in Hnd as [Hy Hnd].
    destruct Hx as [->|Hx], Hin as [->|Hin].
    - reflexivity.
    - exfalso. apply Hy. rewrite Hg. apply in_map. exact Hin.
    - exfalso. apply Hy. rewrite <- Hg. apply in_map. exact Hx.
    - exact (IH Hnd Hin x Hx Hg). }
  split; apply map_ext_in; intros x Hx; cbn [IndexesAdmin.guid set_hints];
    destruct (Nat.eqb (IndexesAdmin.guid x) (IndexesAdmin.guid r)) eqn:E;
    try reflexivity; apply Nat.eqb_eq in E; rewrite (Hsame x Hx E); reflexivity.
Qed.

Lemma extends_documents db db' :
  map (fun r => set_hints r 0) db' = map (fun r => set_hints r 0) db ->
  map IndexesAdmin.document db' = map IndexesAdmin.document db.
Proof.
  intros H.
  assert (E : forall l, map IndexesAdmin.document l =
            map IndexesAdmin.document (map (fun r => set_hints r 0) l)).
  { intros l. rewrite map_map. reflexivity. }
  rewrite (E db'), (E db), H. reflexivity.
Qed.

Lemma upsert_keyed index db :
  keyed db ->
  exists db',
    upsert index db = Ok db' /\ keyed db' /\ extends db db' /\
    listed (class_name index) db'.
Proof.
  intros [Hguid Hdoc]. unfold upsert, get_or_create.
  destruct (filter_document (class_name index) db Hdoc)
    as [[-> Hno]|(r & -> & Hin & Hr)]; simpl.
  - eexists. split; [reflexivity|]. split; [|split].
    + split; rewrite map_app; simpl.
      * apply NoDup_snoc; [exact Hguid|apply uuid4_fresh].
      * apply NoDup_snoc; [exact Hdoc|exact Hno].
    + eexists. rewrite map_app. reflexivity.
    + eexists. split; [apply in_or_app; right; left; reflexivity|reflexivity].
  - destruct (save_set_hints r (count index) db Hguid Hin) as [Hg Hi].
    eexists. split; [reflexivity|]. split; [|split].
    + split; [rewrite Hg; exact Hguid|].
      rewrite (extends_documents _ _ Hi). exact Hdoc.
    + exists []. rewrite app_nil_r. exact Hi.
    + apply (listed_extends _ db).
      * exists []. rewrite app_nil_r. exact Hi.
      * exists r. split; assumption.
Qed.

Variable Model : Type.
Variable labels : list string.
Variable backends : list string.
Variable haystack_get_models : string -> list Model.
Variable get_index : string -> Model -> option SearchIndex.

Lemma models_loop_keyed using_ : forall models db,
  keyed db ->
  exists db',
    models_loop Model get_index using_ models db = Ok db' /\
    keyed db' /\ extends db db' /\
    forall model_ index,
      In model_ models -> get_index using_ model_ = Some index ->
      listed (class_name index) db'.
Proof.
  induction models as [|m rest IH]; intros db Hk; cbn [models_loop].
  - exists db. split; [reflexivity|]. split; [exact Hk|].
    split; [apply extends_refl|]. intros ? ? [].
  - destruct (get_index using_ m) as [index|] eqn:Hm.
    + destruct (upsert_keyed index db Hk) as (db1 & -> & Hk1 & He1 & Hl1).
      simpl. destruct (IH db1 Hk1) as (db' & -> & Hk' & He' & Hl').
      exists db'. split; [reflexivity|]. split; [exact Hk'|].
      split; [exact (extends_trans _ _ _ He1 He')|].
      intros m' index' [<-|Hin] Hi.
      * rewrite Hm in Hi. injection Hi as <-.
        exact (listed_extends _ _ _ He' Hl1).
      * exact (Hl' m' index' Hin Hi).
    + destruct (IH db Hk) as (db' & -> & Hk' & He' & Hl').
      exists db'. split; [reflexivity|]. split; [exact Hk'|].
      split; [exact He'|].
      intros m' index' [<-|Hin] Hi; [congruence|exact (Hl' m' index' Hin Hi)].
Qed.

Lemma backends_loop_keyed label : forall usings db,
  keyed db ->
  exists db',
    backends_loop Model haystack_get_models get_index label usings db = Ok db' /\
    keyed db' /\ extends db db' /\
    forall using_ model_ index,
      In using_ usings -> In model_ (haystack_get_models label) ->
      get_index using_ model_ = Some index ->
      listed (class_name index) db'.
Proof.
  induction usings as [|u rest IH]; intros db Hk; cbn [backends_loop].
  - exists db. split; [reflexivity|]. split; [exact Hk|].
    split; [apply extends_refl|]. intros ? ? ? [].
  - destruct (models_loop_keyed u (haystack_get_models label) db Hk)
      as (db1 & -> & Hk1 & He1 & Hl1).
    simpl. destruct (IH db1 Hk1) as (db' & -> & Hk' & He' & Hl').
    exists db'. split; [reflexivity|]. split; [exact Hk'|].
    split; [exact (extends_trans _ _ _ He1 He')|].
    intros u' m index [<-|Hin] Hm Hi.
    + exact (listed_extends _ _ _ He' (Hl1 m index Hm Hi)).
    + exact (Hl' u' m index Hin Hm Hi).
Qed.

Lemma labels_loop_keyed : forall ls db,
  keyed db ->
  exists db',
    labels_loop Model backends haystack_get_models get_index ls db = Ok db' /\
    keyed db' /\ extends db db' /\
    forall label using_ model_ index,
      In label ls -> In using_ backends ->
      In model_ (haystack_get_models label) ->
      get_index using_ model_ = Some index ->
      listed (class_name index) db'.
Proof.
  induction ls as [|l rest IH]; intros db Hk; cbn [labels_loop].
  - exists db. split; [reflexivity|]. split; [exact Hk|].
    split; [apply extends_refl|]. intros ? ? ? ? [].
  - destruct (backends_loop_keyed l backends db Hk)
      as (db1 & -> & Hk1 & He1 & Hl1).
    simpl. destruct (IH db1 Hk1) as (db' & -> & Hk' & He' & Hl').
    exists db'. split; [reflexivity|]. split; [exact Hk'|].
    split; [exact (extends_trans _ _ _ He1 He')|].
    intros l' u m index [<-|Hin] Hu Hm Hi.
    + exact (listed_extends _ _ _ He' (Hl1 u m index Hu Hm Hi)).
    + exact (Hl' l' u m index Hin Hu Hm Hi).
Qed.

End View_facts.

(** On a table whose rows have distinct keys and distinct document
    names, fetching the indexes succeeds and keeps them distinct; the
    rows it finds stay in place with their key, document, model label
    and update time, only their counts may change, and new rows come
    after them. *)
Theorem post_keeps_rows {Model} (labels backends : list string)
    (haystack_get_models : string -> list Model)
    (get_index : string -> Model -> option FetchIndexesView.SearchIndex)
    (db : FetchIndexesView.Table) :
  keyed db ->
  exists db',
    FetchIndexesView.post labels backends haystack_get_models get_index db =
      Ok db' /\
    keyed db' /\ extends db db'.
Proof.
  intros Hk. unfold FetchIndexesView.post.
  destruct (labels_loop_keyed Model backends haystack_get_models get_index
              labels db Hk) as (db' & H & Hk' & He & _).
  exists db'. split; [exact H|]. split; [exact Hk'|exact He].
Qed.

Lemma sample_records_keyed : keyed sample_records.
Proof.
  split; simpl.
  - repeat (apply List.NoDup_cons; [simpl; lia|]). apply List.NoDup_nil.
  - repeat (apply List.NoDup_cons; [simpl; intuition discriminate|]).
    apply List.NoDup_nil.
Defined.

Lemma post_keeps_rows_witness :
  exists db',
    FetchIndexesView.post ["library"] ["default"] sample_models
      sample_get_index sample_records = Ok db' /\
    keyed db' /\ extends sample_records db'.
Proof.
  exact (post_keeps_rows ["library"] ["default"] sample_models
           sample_get_index sample_records sample_records_keyed).
Defined.

(** After fetching, the table has a row for the index class of
    every model that some backend handles. *)
Theorem post_lists_handled {Model} (labels backends : list string)
    (haystack_get_models : string -> list Model)
    (get_index : string -> Model -> option FetchIndexesView.SearchIndex)
    (db db' : FetchIndexesView.Table) label using_ model_ index :
  keyed db ->
  FetchIndexesView.post labels backends haystack_get_models get_index db =
    Ok db' ->
  In label labels ->
  In using_ backends ->
  In model_ (haystack_get_models label) ->
  get_index using_ model_ = Some index ->
  listed (FetchIndexesView.class_name index) db'.
Proof.
  intros Hk H Hl Hu Hm Hi. unfold FetchIndexesView.post in H.
  destruct (labels_loop_keyed Model backends haystack_get_models get_index
              labels db Hk) as (db1 & H1 & _ & _ & Hlisted).
  rewrite H1 in H. injection H as <-.
  exact (Hlisted label using_ model_ index Hl Hu Hm Hi).
Qed.

Lemma post_lists_handled_witness :
  listed "BookDocument"
    [{| IndexesAdmin.guid := 1; IndexesAdmin.document := "BookDocument";
        IndexesAdmin.model := "library.Book"; IndexesAdmin.hints := 40;
        IndexesAdmin.updated_at := Some 1700000000%Z |};
     {| IndexesAdmin.guid := 2; IndexesAdmin.document := "AuthorDocument";
        IndexesAdmin.model := "library.Author"; IndexesAdmin.hints := 3;
        IndexesAdmin.updated_at := None |}].
Proof.
  apply (post_lists_handled ["library"] ["default"] sample_models
           sample_get_index sample_records _ "library" "default" "Book"
           {| FetchIndexesView.class_name := "BookDocument";
              FetchIndexesView.model_label := "library.Book";
              FetchIndexesView.count := 40 |}).
  - exact sample_records_keyed.
  - reflexivity.
  - left. reflexivity.
  - left. reflexivity.
  - left. reflexivity.
  - reflexivity.
Defined.
